(** * Verification of [examples/slog.py]

    A shallow embedding of the sparse-logistic-regression example script
    and proofs of the properties stated about it.

    Conventions of the embedding.
    - A float64 value is a rational number ([Q]); arithmetic is exact and
      equations between computed numbers are stated with [==].  Rounding,
      infinities and NaN are not part of this model; the kernel and the
      mixture statistics are given a second time over binary64 floats
      ([kernel_f64], [gaussian_mixture_stats_f64]), and the last part of
      the file shows where rounding makes the two differ.
    - A numpy / jax array is its shape together with its indexing function.
    - A Python exception is a value of [exn]; code that can raise returns
      a [result].
    - Functions of the array framework whose value cannot be computed on
      rationals ([exp], [sqrt], Cholesky factorisation, triangular solves),
      the random generators and the sampler are parameters of the
      development, exactly as they are imports of the script. *)

From Stdlib Require Import List Bool Arith ZArith QArith Qabs Qfield Lia Lqa String.
From Stdlib Require Import Morphisms Permutation.
From Stdlib Require Import DecimalString.
From Corelib Require Import PrimFloat.
Import ListNotations.

Open Scope Q_scope.

(** ** Exceptions *)

Inductive exn : Type :=
| AssertionError
| IndexError
| ValueError
| TypeError.

Inductive result (A : Type) : Type :=
| Ok (a : A)
| Raise (e : exn).

Arguments Ok {A} a.
Arguments Raise {A} e.

Definition rbind {A B : Type} (m : result A) (f : A -> result B) : result B :=
  match m with
  | Ok a => f a
  | Raise e => Raise e
  end.

Declare Scope result_scope.
Delimit Scope result_scope with result.
Notation "x <- m ;; k" := (rbind m (fun x => k))
  (at level 61, m at next level, right associativity) : result_scope.

(** ** Rational numbers standing for floats *)

Definition Qltb (x y : Q) : bool :=
  match x ?= y with
  | Lt => true
  | _ => false
  end.

Definition square (x : Q) : Q := x * x.

Definition Qsum (l : list Q) : Q := fold_right Qplus 0 l.

(** [sum_upto n f] is the sum of [f 0 .. f (n-1)], the reduction over one
    axis of length [n]. *)
Definition sum_upto (n : nat) (f : nat -> Q) : Q := Qsum (map f (seq 0 n)).

(** ** Arrays *)

Record vector : Type := mkvec { vlen : nat; vget : nat -> Q }.

Record matrix : Type := mkmat { nrows : nat; ncols : nat; mget : nat -> nat -> Q }.

Definition shape (M : matrix) : nat * nat := (nrows M, ncols M).

Definition shape_eqb (A B : matrix) : bool :=
  Nat.eqb (nrows A) (nrows B) && Nat.eqb (ncols A) (ncols B).

Definition vec_of_list (l : list Q) : vector :=
  mkvec (List.length l) (fun i => nth i l 0).

Definition list_of_vec (v : vector) : list Q :=
  map (vget v) (seq 0 (vlen v)).

Definition row (M : matrix) (i : nat) : vector := mkvec (ncols M) (mget M i).

Definition zeros (n p : nat) : matrix := mkmat n p (fun _ _ => 0).

Definition eye (n : nat) : matrix :=
  mkmat n n (fun i j => if Nat.eqb i j then 1 else 0).

Definition transpose (M : matrix) : matrix :=
  mkmat (ncols M) (nrows M) (fun i j => mget M j i).

(** Elementwise map, [np.square], scalar multiples and scalar shifts. *)
Definition mmap (f : Q -> Q) (M : matrix) : matrix :=
  mkmat (nrows M) (ncols M) (fun i j => f (mget M i j)).

Definition msquare : matrix -> matrix := mmap square.
Definition mscale (a : Q) : matrix -> matrix := mmap (fun x => a * x).
Definition sadd (a : Q) : matrix -> matrix := mmap (fun x => a + x).
Definition madd_scalar (M : matrix) (a : Q) : matrix := mmap (fun x => x + a) M.

(** numpy broadcasting of one axis: equal lengths, or one of them is 1. *)
Definition broadcast_dim (a b : nat) : result nat :=
  if Nat.eqb a b then Ok a
  else if Nat.eqb a 1 then Ok b
  else if Nat.eqb b 1 then Ok a
  else Raise ValueError.

Definition bidx (dim i : nat) : nat := if Nat.eqb dim 1 then O else i.

Definition madd (A B : matrix) : result matrix :=
  (r <- broadcast_dim (nrows A) (nrows B) ;;
   c <- broadcast_dim (ncols A) (ncols B) ;;
   Ok (mkmat r c (fun i j =>
         mget A (bidx (nrows A) i) (bidx (ncols A) j)
         + mget B (bidx (nrows B) i) (bidx (ncols B) j))))%result.

(** [dot(X, Z) = np.dot(X, Z[..., None])[..., 0]].

    For two-dimensional [X] of shape (n, p) and [Z] of shape (m, p) the
    array [Z[..., None]] has shape (m, p, 1); [np.dot] contracts the last
    axis of [X] with the second-to-last axis of that array, so the result
    has shape (n, m) and entry (i, j) is the inner product of row i of [X]
    and row j of [Z].  [np] is [jax.numpy] here: its [dot] and [matmul]
    raise [TypeError] when the contracted axes differ in length. *)
Definition dot (X Z : matrix) : result matrix :=
  if Nat.eqb (ncols X) (ncols Z)
  then Ok (mkmat (nrows X) (nrows Z)
             (fun i j => sum_upto (ncols X) (fun k => mget X i k * mget Z j k)))
  else Raise TypeError.

(** The same function at a two-dimensional [X] of shape (n, p) and a
    one-dimensional [z] of length p: [z[..., None]] has shape (p, 1), the
    product is the matrix-vector product. *)
Definition dot_mv (X : matrix) (z : vector) : result vector :=
  if Nat.eqb (ncols X) (vlen z)
  then Ok (mkvec (nrows X)
             (fun i => sum_upto (ncols X) (fun k => mget X i k * vget z k)))
  else Raise TypeError.

(** The same function at two one-dimensional arguments, and [np.dot] on
    two one-dimensional arguments: the inner product. *)
Definition dot_vv (y z : vector) : result Q :=
  if Nat.eqb (vlen y) (vlen z)
  then Ok (sum_upto (vlen y) (fun k => vget y k * vget z k))
  else Raise TypeError.

(** ** The kernel *)

Definition default_jitter : Q := 1 # 1000000.

Definition kernel (X Z : matrix) (eta1 eta2 c : Q) (jitter : Q) : result matrix :=
  (let eta1sq := square eta1 in
   let eta2sq := square eta2 in
   XZ <- dot X Z ;;
   let k1 := mscale ((1 # 2) * eta2sq) (msquare (sadd 1 XZ)) in
   X2Z2 <- dot (msquare X) (msquare Z) ;;
   let k2 := mscale (- (1 # 2) * eta2sq) X2Z2 in
   XZ' <- dot X Z ;;
   let k3 := mscale (eta1sq - eta2sq) XZ' in
   let k4 := square c - (1 # 2) * eta2sq in
   if shape_eqb X Z
   then
     let k4 := sadd k4 (mscale jitter (eye (nrows X))) in
     k12 <- madd k1 k2 ;;
     k123 <- madd k12 k3 ;;
     madd k123 k4
   else
     k12 <- madd k1 k2 ;;
     k123 <- madd k12 k3 ;;
     Ok (madd_scalar k123 k4))%result.

(** The inner product of row [i] of [X] and row [j] of [Z]. *)
Definition rowdot (X Z : matrix) (i j : nat) : Q :=
  sum_upto (ncols X) (fun k => mget X i k * mget Z j k).

(** The value the quadratic feature map assigns to a pair of rows. *)
Definition quadratic_kernel_entry (X Z : matrix) (eta1 eta2 c : Q) (i j : nat) : Q :=
  square c + square eta1 * rowdot X Z i j
  + (square eta2 / 2)
    * (square (rowdot X Z i j)
       - sum_upto (ncols X) (fun k => square (mget X i k) * square (mget Z j k))).

(** ** Further array operations used by the post-processing *)

(** [v * M] and [M * v] for a one-dimensional [v]: [v] is broadcast along
    the rows of [M]. *)
Definition vmulm (v : vector) (M : matrix) : result matrix :=
  (c <- broadcast_dim (vlen v) (ncols M) ;;
   Ok (mkmat (nrows M) c (fun i j =>
         vget v (bidx (vlen v) j) * mget M i (bidx (ncols M) j))))%result.

Definition mmulv (M : matrix) (v : vector) : result matrix :=
  (c <- broadcast_dim (ncols M) (vlen v) ;;
   Ok (mkmat (nrows M) c (fun i j =>
         mget M i (bidx (ncols M) j) * vget v (bidx (vlen v) j))))%result.

Definition msub (A B : matrix) : result matrix :=
  (r <- broadcast_dim (nrows A) (nrows B) ;;
   c <- broadcast_dim (ncols A) (ncols B) ;;
   Ok (mkmat r c (fun i j =>
         mget A (bidx (nrows A) i) (bidx (ncols A) j)
         - mget B (bidx (nrows B) i) (bidx (ncols B) j))))%result.

Definition vmap1 (f : Q -> Q) (v : vector) : vector :=
  mkvec (vlen v) (fun i => f (vget v i)).

Definition vdiv (u v : vector) : result vector :=
  (n <- broadcast_dim (vlen u) (vlen v) ;;
   Ok (mkvec n (fun i => vget u (bidx (vlen u) i) / vget v (bidx (vlen v) i))))%result.

(** [np.matmul] of two matrices, and of a matrix and a one-dimensional
    array. *)
Definition matmul (A B : matrix) : result matrix :=
  if Nat.eqb (ncols A) (nrows B)
  then Ok (mkmat (nrows A) (ncols B)
             (fun i j => sum_upto (ncols A) (fun k => mget A i k * mget B k j)))
  else Raise TypeError.

Definition matmul_mv (A : matrix) (v : vector) : result vector :=
  if Nat.eqb (ncols A) (vlen v)
  then Ok (mkvec (nrows A)
             (fun i => sum_upto (ncols A) (fun k => mget A i k * vget v k)))
  else Raise TypeError.

(** [jax.ops.index_update(M, jax.ops.index[:, d], v)]: column [d] of the
    result is [v], every other entry is the entry of [M].  An update at a
    column outside the array is dropped. *)
Definition index_update_col (M : matrix) (d : nat) (v : vector) : matrix :=
  if Nat.ltb d (ncols M)
  then mkmat (nrows M) (ncols M)
         (fun i j => if Nat.eqb j d then vget v i else mget M i j)
  else M.

(** ** Imports of the script whose values are not rational functions *)

Class ArrayFramework : Type := {
  np_exp : Q -> Q;
  np_sqrt : Q -> Q;
  (** [cho_factor(A, lower=True)[0]] *)
  cho_factor : matrix -> matrix;
  (** [cho_solve((L, True), b)] *)
  cho_solve : matrix -> vector -> vector;
  (** [solve_triangular(L, B, lower=True)] *)
  solve_triangular : matrix -> matrix -> matrix
}.

Definition sigmoid `{ArrayFramework} (x : Q) : Q := 1 / (1 + np_exp (- x)).

(** ** Posterior marginals of the coefficients *)

Definition compute_coefficient_mean_variance `{ArrayFramework}
    (X : matrix) (Y : vector) (probe : matrix) (vec : vector)
    (eta1 eta2 c : Q) (kappa omega : vector) : result (Q * Q) :=
  (kprobe <- vmulm kappa probe ;;
   kX <- vmulm kappa X ;;
   k_xx <- kernel kX kX eta1 eta2 c default_jitter ;;
   k_probeX <- kernel kprobe kX eta1 eta2 c default_jitter ;;
   k_prbprb <- kernel kprobe kprobe eta1 eta2 c default_jitter ;;
   D <- mmulv (eye (nrows X)) (vmap1 (fun w => 1 / w) omega) ;;
   A <- madd k_xx D ;;
   let L := cho_factor A in
   Yw <- vdiv Y omega ;;
   let mu := vmap1 (fun x => (1 # 2) * x) (cho_solve L Yw) in
   kmu <- dot_mv k_probeX mu ;;
   mu <- dot_vv vec kmu ;;
   let Linv_kXprobe := solve_triangular L (transpose k_probeX) in
   LtL <- matmul (transpose Linv_kXprobe) Linv_kXprobe ;;
   var <- msub k_prbprb LtL ;;
   varvec <- matmul_mv var vec ;;
   var <- dot_vv vec varvec ;;
   Ok (mu, var))%result.

(** The matrix bound to [k_probeX] in [compute_coefficient_mean_variance]:
    the cross-covariance between the probe points and the data. *)
Definition cross_covariance (X probe : matrix) (eta1 eta2 c : Q) (kappa : vector)
  : result matrix :=
  (kprobe <- vmulm kappa probe ;;
   kX <- vmulm kappa X ;;
   kernel kprobe kX eta1 eta2 c default_jitter)%result.

Definition singleton_probe (P dimension : nat) : matrix :=
  index_update_col (zeros 2 P) dimension (vec_of_list [1; -1]).

Definition singleton_vec : vector := vec_of_list [1 # 2; - (1 # 2)].

Definition compute_singleton_mean_variance `{ArrayFramework}
    (X : matrix) (Y : vector) (dimension : nat)
    (eta1 eta2 c : Q) (kappa omega : vector) : result (Q * Q) :=
  let probe := singleton_probe (ncols X) dimension in
  let vec := singleton_vec in
  compute_coefficient_mean_variance X Y probe vec eta1 eta2 c kappa omega.

Definition pairwise_probe (P dim1 dim2 : nat) : matrix :=
  let probe := zeros 4 P in
  let probe := index_update_col probe dim1 (vec_of_list [1; 1; -1; -1]) in
  index_update_col probe dim2 (vec_of_list [1; -1; 1; -1]).

Definition pairwise_vec : vector :=
  vec_of_list [1 # 4; - (1 # 4); - (1 # 4); 1 # 4].

Definition compute_pairwise_mean_variance `{ArrayFramework}
    (X : matrix) (Y : vector) (dim1 dim2 : nat)
    (eta1 eta2 c : Q) (kappa omega : vector) : result (Q * Q) :=
  let probe := pairwise_probe (ncols X) dim1 dim2 in
  let vec := pairwise_vec in
  compute_coefficient_mean_variance X Y probe vec eta1 eta2 c kappa omega.

(** ** Mean and variance of a Gaussian mixture *)

(** [np.mean] of a one-dimensional array.  Of an empty array [np.mean] is
    [nan]; here the quotient by zero is 0, so the two agree on non-empty
    arrays only. *)
Definition mean (l : list Q) : Q := Qsum l / inject_Z (Z.of_nat (List.length l)).

Definition gaussian_mixture_stats (mus variances : list Q) : Q * Q :=
  let mean_mu := mean mus in
  let mean_var := mean variances + mean (map square mus) - square mean_mu in
  (mean_mu, mean_var).

(** ** Command-line arguments, samples, results *)

Record args : Type := mkargs {
  num_samples : Z;
  num_warmup : Z;
  num_chains : Z;
  mtd : Z;
  num_data : Z;
  num_dimensions : Z;
  seed : Z;
  active_dimensions : Z;
  thinning : Z;
  device : string
}.

(** The defaults of the argument parser. *)
Definition default_args : args :=
  mkargs 300 200 1 6 0 128 0 6 10 "cpu"%string.

Definition set_num_data (n : Z) (a : args) : args :=
  mkargs (num_samples a) (num_warmup a) (num_chains a) (mtd a) n
         (num_dimensions a) (seed a) (active_dimensions a) (thinning a) (device a).

Record hyperparameters : Type := mkhypers {
  expected_sparsity : Z;
  alpha1 : Q; beta1 : Q; sigma : Q;
  alpha2 : Q; beta2 : Q; hyper_c : Q
}.

(** One posterior draw: the value of every sample site of the model.  The
    dictionary returned by [mcmc.get_samples()] maps each site to the
    array of its draws, all with the same leading length; it is modelled
    as the list of draws. *)
Record draw : Type := mkdraw {
  draw_eta1 : Q;
  draw_msq : Q;
  draw_xisq : Q;
  draw_eta2 : Q;
  draw_lambda : vector;
  draw_kappa : vector;
  draw_omega : vector
}.

Definition samples : Type := list draw.

(** The entry [results[N]]. *)
Record run_results : Type := mkrun {
  expected_thetas : list Q;
  coeff_means : list Q;
  coeff_stds : list Q;
  correct_singletons : nat;
  false_singletons : nat;
  missed_singletons : nat;
  correct_quads : nat;
  false_quads : nat;
  missed_quads : nat
}.

(** The dictionary [results]: the entry ['args'] and one entry per [N]. *)
Record results : Type := mkresults {
  results_args : args;
  results_runs : list (Z * run_results)
}.

(** ** The outside world *)

(** One call of [print]: the format and the values it is applied to. *)
Inductive line : Type :=
| PrintNumberOfOnes (ones minus_ones : nat)
| PrintSummary (s : samples)
| PrintElapsed (t : Q)
| PrintCoefficients (S : Z) (thetas : list Q)
| PrintDimension (dim : nat) (P : Z) (label : string) (mean std : Q)
| PrintSingletons (correct false missed : nat)
| PrintTotalActive (found : nat) (expected : Z)
| PrintPairwiseCoefficient (theta : Q)
| PrintInteraction (dim1 dim2 : nat) (mean std : Q)
| PrintNoInteraction (dim1 dim2 : nat) (mean std : Q)
| PrintQuads (correct false missed : nat)
| PrintResults (r : results).

Record world : Type := mkworld {
  stdout : list line;
  files : list (string * results);
  clock : Q
}.

(** Programs that print, read the clock and may raise. *)
Definition M (A : Type) : Type := world -> result A * world.

Definition ret {A : Type} (a : A) : M A := fun w => (Ok a, w).

Definition bind {A B : Type} (m : M A) (f : A -> M B) : M B :=
  fun w =>
    match m w with
    | (Ok a, w') => f a w'
    | (Raise e, w') => (Raise e, w')
    end.

Definition lift {A : Type} (r : result A) : M A := fun w => (r, w).

Declare Scope io_scope.
Delimit Scope io_scope with io.
Notation "x <- m ;; k" := (bind m (fun x => k))
  (at level 61, m at next level, right associativity) : io_scope.
Notation "m ;; k" := (bind m (fun _ => k))
  (at level 61, right associativity) : io_scope.

Definition print (l : line) : M unit :=
  fun w => (Ok tt, mkworld (stdout w ++ [l]) (files w) (clock w)).

Definition time_time : M Q := fun w => (Ok (clock w), w).

Definition sleep (dt : Q) : M unit :=
  fun w => (Ok tt, mkworld (stdout w) (files w) (clock w + dt)).

Definition assert (b : bool) : M unit :=
  if b then ret tt else lift (Raise AssertionError).

(** The effect the two lines
    [with open(log_dir + log_file + '.pkl', 'wb') as f: pickle.dump(results, f, protocol=2)]
    would have; they are comments in the script and [main] does not
    contain this operation. *)
Definition pickle_dump (path : string) (r : results) : M unit :=
  fun w => (Ok tt, mkworld (stdout w) ((path, r) :: files w) (clock w)).

(** ** Random numbers *)

(** The global generator of [numpy.random]. *)
Class RandomState : Type := {
  rng : Type;
  (** the state after [onp.random.seed(seed)], for a seed it accepts *)
  seeded : Z -> rng;
  (** one draw of [onp.random.rand] *)
  random_sample : rng -> Q * rng;
  (** one draw of [onp.random.binomial(1, p)] *)
  binomial1 : Q -> rng -> bool * rng
}.

(** [onp.random.seed] accepts the integers that fit 32 unsigned bits. *)
Definition np_random_seed `{RandomState} (seed : Z) : result rng :=
  if (0 <=? seed)%Z && (seed <? 2 ^ 32)%Z then Ok (seeded seed) else Raise ValueError.

Fixpoint rand `{RandomState} (n : nat) (g : rng) : list Q * rng :=
  match n with
  | O => ([], g)
  | S n' =>
      let (x, g1) := random_sample g in
      let (xs, g2) := rand n' g1 in
      (x :: xs, g2)
  end.

Fixpoint binomial `{RandomState} (ps : list Q) (g : rng) : list bool * rng :=
  match ps with
  | [] => ([], g)
  | p :: ps' =>
      let (b, g1) := binomial1 p g in
      let (bs, g2) := binomial ps' g1 in
      (b :: bs, g2)
  end.

(** [2 * b - 1] for a draw [b] in {0, 1}. *)
Definition sign_of_bit (b : bool) : Q := 2 * (if b then 1 else 0) - 1.

Fixpoint mul_lists (xs ys : list Q) : list Q :=
  match xs, ys with
  | x :: xs', y :: ys' => x * y :: mul_lists xs' ys'
  | _, _ => []
  end.

Definition matrix_of_list (n p : nat) (l : list Q) : matrix :=
  mkmat n p (fun i j => nth (i * p + j) l 0).

(** [X[:, k]] *)
Definition column (X : matrix) (k : nat) : result vector :=
  if Nat.ltb k (ncols X) then Ok (mkvec (nrows X) (fun i => mget X i k))
  else Raise IndexError.

Definition count_eq (v : Q) (l : list Q) : nat :=
  List.length (filter (Qeq_bool v) l).

(** ** The synthetic data set *)

Record dataset : Type := mkdata {
  data_X : matrix;
  data_Y : vector;
  data_W : vector;
  data_pairwise_coefficient : Q;
  data_expected_quad_dims : list (nat * nat)
}.

Definition get_data `{ArrayFramework} `{RandomState} (N S P seed : Z) : M dataset :=
  (assert ((S <? P)%Z && (1 <? P)%Z && (0 <? S)%Z) ;;
   g <- lift (np_random_seed seed) ;;
   let (u, g) := rand (Z.to_nat S) g in
   let W := map (fun r => 1 + (3 # 2) * r) u in
   let (b, g) := binomial (repeat (1 # 2) (List.length W)) g in
   let flip := map sign_of_bit b in
   let W := vec_of_list (mul_lists W flip) in
   lift (if (N <? 0)%Z then Raise ValueError else Ok tt) ;;
   let n := Z.to_nat N in
   let p := Z.to_nat P in
   let (u, g) := rand (n * p) g in
   let X := map (fun r => r + (1 # 2)) u in
   let (b, g) := binomial (repeat (1 # 2) (List.length X)) g in
   let flip := map sign_of_bit b in
   let X := matrix_of_list n p (mul_lists X flip) in
   let pairwise_coefficient := 3 in
   let expected_quad_dims := [(0%nat, 1%nat); (2%nat, 3%nat)] in
   let linear := fun i => sum_upto (Z.to_nat S) (fun k => mget X i k * vget W k) in
   X0 <- lift (column X 0) ;;
   X1 <- lift (column X 1) ;;
   X2 <- lift (column X 2) ;;
   X3 <- lift (column X 3) ;;
   let Y := map (fun i => linear i
                          + pairwise_coefficient
                            * (vget X0 i * vget X1 i - vget X2 i * vget X3 i))
                (seq 0 n) in
   let (b, g) := binomial (map sigmoid Y) g in
   let Y := vec_of_list (map sign_of_bit b) in
   print (PrintNumberOfOnes (count_eq 1 (list_of_vec Y))
                            (count_eq (-1) (list_of_vec Y))) ;;
   assert ((Z.of_nat (nrows X) =? N)%Z && (Z.of_nat (ncols X) =? P)%Z) ;;
   assert (Z.of_nat (vlen Y) =? N)%Z ;;
   ret (mkdata X Y W pairwise_coefficient expected_quad_dims))%io.

(** ** Inference *)

(** The process environment and the sampler ([NUTS] and [MCMC] applied to
    the function [model] of the script, which only the sampler calls).  A
    run of the sampler returns the collected draws and takes some
    wall-clock time. *)
Class Sampler : Type := {
  os_environ : list string;
  mcmc_run :
    forall (max_tree_depth num_warmup num_samples num_chains : Z)
           (progress_bar : bool) (rng_key : Z)
           (X : matrix) (Y : vector) (hypers : hyperparameters),
      result (samples * Q)
}.

(** [l[::k]] *)
Fixpoint every_nth {A : Type} (k skip : nat) (l : list A) : list A :=
  match l with
  | [] => []
  | x :: t =>
      match skip with
      | O => x :: every_nth k (k - 1) t
      | S skip' => every_nth k skip' t
      end
  end.

Definition slice_step {A : Type} (l : list A) (k : Z) : result (list A) :=
  if (k =? 0)%Z then Raise ValueError
  else if (0 <? k)%Z then Ok (every_nth (Z.to_nat k) 0 l)
  else Ok (every_nth (Z.to_nat (- k)) 0 (rev l)).

Definition run_inference `{Sampler} (a : args) (rng_key : Z)
    (X : matrix) (Y : vector) (hypers : hyperparameters) : M samples :=
  (start <- time_time ;;
   let progress_bar :=
     if existsb (String.eqb "NUMPYRO_SPHINXBUILD"%string) os_environ then false else true in
   r <- lift (mcmc_run (mtd a) (num_warmup a) (num_samples a) (num_chains a)
                       progress_bar rng_key X Y hypers) ;;
   sleep (snd r) ;;
   print (PrintSummary (fst r)) ;;
   now <- time_time ;;
   print (PrintElapsed (now - start)) ;;
   s <- lift (slice_step (fst r) (thinning a)) ;;
   ret s)%io.

(** ** Posterior summaries *)

(** [vmap(f)(l)] *)
Fixpoint vmap {A B : Type} (f : A -> result B) (l : list A) : result (list B) :=
  match l with
  | [] => Ok []
  | x :: t => (y <- f x ;; ys <- vmap f t ;; Ok (y :: ys))%result
  end.

Definition analyze_dimension `{ArrayFramework}
    (s : samples) (X : matrix) (Y : vector) (dimension : nat)
    (hypers : hyperparameters) : result (Q * Q) :=
  (mv <- vmap (fun d => compute_singleton_mean_variance X Y dimension
                          (draw_eta1 d) (draw_eta2 d) (hyper_c hypers)
                          (draw_kappa d) (draw_omega d)) s ;;
   let (mean, variance) := gaussian_mixture_stats (map fst mv) (map snd mv) in
   let std := np_sqrt variance in
   Ok (mean, std))%result.

Definition analyze_pair_of_dimensions `{ArrayFramework}
    (s : samples) (X : matrix) (Y : vector) (dim1 dim2 : nat)
    (hypers : hyperparameters) : result (Q * Q) :=
  (mv <- vmap (fun d => compute_pairwise_mean_variance X Y dim1 dim2
                          (draw_eta1 d) (draw_eta2 d) (hyper_c hypers)
                          (draw_kappa d) (draw_omega d)) s ;;
   let (mean, variance) := gaussian_mixture_stats (map fst mv) (map snd mv) in
   let std := np_sqrt variance in
   Ok (mean, std))%result.

(** ** Reporting *)

(** [lower < 0.0 and upper > 0.0] for the interval [mean +- 2 * std]. *)
Definition contains_zero (mean std : Q) : bool :=
  let lower := mean - 2 * std in
  let upper := mean + 2 * std in
  Qltb lower 0 && Qltb 0 upper.

(** The loop [for dim, (mean, std) in enumerate(zip(means, stds))]. *)
Fixpoint classify_dimensions (P : Z) (dim : nat) (stats : list (Q * Q))
    (active_dims : list nat) : M (list nat) :=
  match stats with
  | [] => ret active_dims
  | (mean, std) :: rest =>
      let inactive := (if contains_zero mean std then "inactive" else "active")%string in
      let active_dims :=
        if String.eqb inactive "active"%string then active_dims ++ [dim] else active_dims in
      (print (PrintDimension (dim + 1) P inactive mean std) ;;
       classify_dimensions P (S dim) rest active_dims)%io
  end.

(** [len(set(a) & set(b))] and [len(set(a) - set(b))]. *)
Section SetCounts.

Context {A : Type} (eq_dec : forall x y : A, {x = y} + {x <> y}).

Definition mem (x : A) (l : list A) : bool :=
  if in_dec eq_dec x l then true else false.

Definition len_inter (a b : list A) : nat :=
  List.length (filter (fun x => mem x b) (nodup eq_dec a)).

Definition len_diff (a b : list A) : nat :=
  List.length (filter (fun x => negb (mem x b)) (nodup eq_dec a)).

End SetCounts.

Definition pair_eq_dec (x y : nat * nat) : {x = y} + {x <> y}.
Proof. decide equality; apply Nat.eq_dec. Defined.

(** The loop [for dim_pair, mean, std in zip(dim_pairs, means, stds)]. *)
Fixpoint classify_pairs (stats : list ((nat * nat) * (Q * Q)))
    (active_quad_dims : list (nat * nat)) : M (list (nat * nat)) :=
  match stats with
  | [] => ret active_quad_dims
  | ((dim1, dim2), (mean, std)) :: rest =>
      if Nat.leb dim2 dim1 then classify_pairs rest active_quad_dims
      else if negb (contains_zero mean std)
      then (print (PrintInteraction (dim1 + 1) (dim2 + 1) mean std) ;;
            classify_pairs rest (active_quad_dims ++ [(dim1, dim2)]))%io
      else (print (PrintNoInteraction (dim1 + 1) (dim2 + 1) mean std) ;;
            classify_pairs rest active_quad_dims)%io
  end.

(** The statements of [main] between the comment on the coefficients
    [theta_ij] and the pairwise counts. *)
Definition pairwise_stage `{ArrayFramework}
    (s : samples) (X : matrix) (Y : vector) (hypers : hyperparameters)
    (active_dims : list nat) : M (list (nat * nat)) :=
  let active_quad_dims := [] in
  if Nat.ltb 0 (List.length active_dims)
  then
    let dim_pairs := list_prod active_dims active_dims in
    (stats <- lift (vmap (fun dim_pair =>
                            analyze_pair_of_dimensions s X Y
                              (fst dim_pair) (snd dim_pair) hypers) dim_pairs) ;;
     classify_pairs (combine dim_pairs stats) active_quad_dims)%io
  else ret active_quad_dims.

Definition str (z : Z) : string := NilZero.string_of_int (Z.to_int z).

Definition log_dir : string := "/home/jankowiak/Research/numpyro/slog/"%string.

Definition log_file (a : args) : string :=
  ("slog.P_" ++ str (num_dimensions a) ++ ".S_" ++ str (active_dimensions a)
   ++ ".seed_" ++ str (seed a) ++ ".ns_" ++ str (num_warmup a) ++ "_"
   ++ str (num_samples a) ++ ".mtd_" ++ str (mtd a))%string.

(** The body of the loop [for N in [200]]. *)
Definition run_for `{ArrayFramework} `{RandomState} `{Sampler}
    (a : args) (P N : Z) : M run_results :=
  (d <- get_data N (active_dimensions a) P (seed a) ;;
   let X := data_X d in
   let Y := data_Y d in
   let expected_thetas := data_W d in
   let expected_pairwise := data_pairwise_coefficient d in
   let expected_quad_dims := data_expected_quad_dims d in
   let hypers := mkhypers (active_dimensions a) 2 1 2 2 1 1 in
   let rng_key := seed a in
   s <- run_inference a rng_key X Y hypers ;;
   stats <- lift (vmap (fun dim => analyze_dimension s X Y dim hypers)
                       (seq 0 (Z.to_nat (num_dimensions a)))) ;;
   let means := map fst stats in
   let stds := map snd stats in
   print (PrintCoefficients (active_dimensions a) (list_of_vec expected_thetas)) ;;
   let expected_active_dims := seq 0 (Z.to_nat (active_dimensions a)) in
   active_dims <- classify_dimensions (num_dimensions a) 0 (combine means stds) [] ;;
   let correct_singletons := len_inter Nat.eq_dec active_dims expected_active_dims in
   let false_singletons := len_diff Nat.eq_dec active_dims expected_active_dims in
   let missed_singletons := len_diff Nat.eq_dec expected_active_dims active_dims in
   print (PrintSingletons correct_singletons false_singletons missed_singletons) ;;
   print (PrintTotalActive (List.length active_dims) (active_dimensions a)) ;;
   print (PrintPairwiseCoefficient expected_pairwise) ;;
   active_quad_dims <- pairwise_stage s X Y hypers active_dims ;;
   let correct_quads := len_inter pair_eq_dec active_quad_dims expected_quad_dims in
   let false_quads := len_diff pair_eq_dec active_quad_dims expected_quad_dims in
   let missed_quads := len_diff pair_eq_dec expected_quad_dims active_quad_dims in
   print (PrintQuads correct_quads false_quads missed_quads) ;;
   ret (mkrun (list_of_vec expected_thetas) means stds
              correct_singletons false_singletons missed_singletons
              correct_quads false_quads missed_quads))%io.

Fixpoint for_each_N `{ArrayFramework} `{RandomState} `{Sampler}
    (a : args) (P : Z) (Ns : list Z) (res : results) : M results :=
  match Ns with
  | [] => ret res
  | N :: rest =>
      (r <- run_for a P N ;;
       for_each_N a P rest
         (mkresults (results_args res) (results_runs res ++ [(N, r)])))%io
  end.

Definition main `{ArrayFramework} `{RandomState} `{Sampler} (a : args) : M unit :=
  let res := mkresults a [] in
  let P := num_dimensions a in
  (res <- for_each_N a P [200%Z] res ;;
   print (PrintResults res) ;;
   let log_dir := log_dir in
   let log_file := log_file a in
   ret tt)%io.

(** ** Sample implementations of the imports

    The properties below hold for every implementation of the imports.
    The following ones are used to run the definitions on concrete
    inputs. *)

Definition sample_framework : ArrayFramework :=
  {| np_exp := fun x => 1 + x * x;
     np_sqrt := fun x => x;
     cho_factor := fun A => A;
     cho_solve := fun _ b => b;
     solve_triangular := fun _ B => B |}.

(** A linear congruential generator; a uniform draw is the three low
    decimal digits of the state, a binomial draw compares a uniform draw
    with the success probability. *)
Definition lcg_next (g : Z) : Z := ((g * 1103515245 + 12345) mod 2147483648)%Z.

Definition lcg_uniform (g : Z) : Q := (g mod 1000)%Z # 1000.

Definition sample_random : RandomState :=
  {| rng := Z;
     seeded := fun s => lcg_next s;
     random_sample := fun g => (lcg_uniform g, lcg_next g);
     binomial1 := fun p g => (Qltb (lcg_uniform g) p, lcg_next g) |}.

Definition ones (n : nat) : vector := mkvec n (fun _ => 1).

Definition sample_draw (N P : nat) : draw :=
  mkdraw 1 1 1 1 (ones P) (ones P) (ones N).

Definition sample_sampler : Sampler :=
  {| os_environ := [];
     mcmc_run := fun _ _ num_samples _ _ _ X _ _ =>
       Ok (repeat (sample_draw (nrows X) (ncols X)) (Z.to_nat num_samples), 1) |}.

Definition empty_world : world := mkworld [] [] 0.

Definition sample_X : matrix := matrix_of_list 2 2 [1; 2; 3; 4].

Definition sample_Z : matrix := matrix_of_list 3 2 [1; 0; 0; 1; 1 # 2; - (1)].

Definition sample_kappa : vector := vec_of_list [1 # 2; 2].

(** ** Quadratic functions and probes

    The function [x |-> c0 + sum_k theta_k x_k + sum_{k<l} theta_kl x_k x_l]
    of a point [x] with [P] coordinates. *)
Definition quadratic (P : nat) (c0 : Q) (theta : nat -> Q) (theta2 : nat -> nat -> Q)
    (x : nat -> Q) : Q :=
  c0
  + sum_upto P (fun k => theta k * x k)
  + sum_upto P (fun k =>
      sum_upto P (fun l => if Nat.ltb k l then theta2 k l * x k * x l else 0)).

(** The weighted sum [np.dot(vec, f(probe))] of the values of [f] at the
    rows of a probe matrix. *)
Definition probe_response (probe : matrix) (vec : vector) (f : (nat -> Q) -> Q) : Q :=
  sum_upto (vlen vec) (fun r => vget vec r * f (mget probe r)).

(** ** Equally weighted Gaussian mixtures

    The mean and the variance of the mixture that gives weight [1 / n] to
    each of [n] Gaussian components with the given means and variances:
    the mean is [sum_i w mu_i] and the variance is
    [sum_i w (var_i + mu_i^2)] minus the square of the mean. *)
Definition mixture_weight (mus : list Q) : Q :=
  1 / inject_Z (Z.of_nat (List.length mus)).

Definition mixture_mean (mus : list Q) : Q :=
  Qsum (map (fun mu => mixture_weight mus * mu) mus).

Definition mixture_variance (mus variances : list Q) : Q :=
  Qsum (map (fun c => mixture_weight mus * (snd c + square (fst c)))
            (combine mus variances))
  - square (mixture_mean mus).

(** ** Frame condition

    A program that leaves the files alone and only adds lines to the
    standard output. *)
Definition only_prints {A : Type} (m : M A) : Prop :=
  forall w,
    files (snd (m w)) = files w
    /\ exists lines, stdout (snd (m w)) = stdout w ++ lines.

(** The command line
    [--num-samples 0 --num-warmup 2 --num-dimensions 4 --active-dimensions 2 --thinning 1]:
    four dimensions, two of them active, no draw collected. *)
Definition small_args : args := mkargs 0 2 1 6 0 4 0 2 1 "cpu"%string.

(** The line [RESULTS] with the stored value of [num_data] blanked. *)
Definition erase_num_data (l : line) : line :=
  match l with
  | PrintResults r =>
      PrintResults (mkresults (set_num_data 0 (results_args r)) (results_runs r))
  | _ => l
  end.

(** A sampler that always fails. *)
Definition failing_sampler : Sampler :=
  {| os_environ := [];
     mcmc_run := fun _ _ _ _ _ _ _ _ _ => Raise ValueError |}.

(** ** The arithmetic of the script in float64

    The script runs with [enable_x64()]: its numbers are IEEE binary64
    values.  The definitions above read its expressions over the
    rationals; the ones below read the same expressions, operation by
    operation, over binary64, so that the effect of rounding can be
    computed at a concrete input.  A sum over an axis adds the terms from
    left to right; the order the array framework uses is not specified,
    and the inputs on which these definitions are evaluated below have
    sums of one or two terms, for which the order does not matter. *)

Definition square_f64 (x : float) : float := (x * x)%float.

Definition sum_f64 (l : list float) : float := fold_left PrimFloat.add l 0%float.

Fixpoint float_of_nat (n : nat) : float :=
  match n with
  | O => 0%float
  | S m => (float_of_nat m + 1)%float
  end.

Definition mean_f64 (l : list float) : float :=
  (sum_f64 l / float_of_nat (List.length l))%float.

Definition gaussian_mixture_stats_f64 (mus variances : list float) : float * float :=
  let mean_mu := mean_f64 mus in
  let mean_var :=
    (mean_f64 variances + mean_f64 (map square_f64 mus) - square_f64 mean_mu)%float in
  (mean_mu, mean_var).

(** A two-dimensional array of floats, row by row. *)
Definition fmatrix : Type := list (list float).

Definition fshape (M : fmatrix) : nat * nat := (List.length M, List.length (hd [] M)).

Definition fshape_eqb (A B : fmatrix) : bool :=
  Nat.eqb (fst (fshape A)) (fst (fshape B)) && Nat.eqb (snd (fshape A)) (snd (fshape B)).

Fixpoint zip_f64 (f : float -> float -> float) (xs ys : list float) : list float :=
  match xs, ys with
  | x :: xs', y :: ys' => f x y :: zip_f64 f xs' ys'
  | _, _ => []
  end.

Fixpoint fmatrix_zip (f : float -> float -> float) (A B : fmatrix) : fmatrix :=
  match A, B with
  | a :: A', b :: B' => zip_f64 f a b :: fmatrix_zip f A' B'
  | _, _ => []
  end.

Definition fmatrix_map (f : float -> float) (M : fmatrix) : fmatrix := map (map f) M.

Definition eye_f64 (n : nat) : fmatrix :=
  map (fun i => map (fun j => if Nat.eqb i j then 1%float else 0%float) (seq 0 n))
      (seq 0 n).

Definition dot_f64 (X Z : fmatrix) : result fmatrix :=
  if Nat.eqb (snd (fshape X)) (snd (fshape Z))
  then Ok (map (fun x => map (fun z => sum_f64 (zip_f64 PrimFloat.mul x z)) Z) X)
  else Raise TypeError.

Definition kernel_f64 (X Z : fmatrix) (eta1 eta2 c : float) (jitter : float)
  : result fmatrix :=
  (let eta1sq := square_f64 eta1 in
   let eta2sq := square_f64 eta2 in
   XZ <- dot_f64 X Z ;;
   let k1 := fmatrix_map (fun d => (0.5 * eta2sq * square_f64 (1.0 + d))%float) XZ in
   X2Z2 <- dot_f64 (fmatrix_map square_f64 X) (fmatrix_map square_f64 Z) ;;
   let k2 := fmatrix_map (fun q => (- 0.5 * eta2sq * q)%float) X2Z2 in
   XZ' <- dot_f64 X Z ;;
   let k3 := fmatrix_map (fun d => ((eta1sq - eta2sq) * d)%float) XZ' in
   let k4 := (square_f64 c - 0.5 * eta2sq)%float in
   if fshape_eqb X Z
   then
     let k4 := fmatrix_map (fun e => (k4 + jitter * e)%float) (eye_f64 (List.length X)) in
     Ok (fmatrix_zip PrimFloat.add
           (fmatrix_zip PrimFloat.add (fmatrix_zip PrimFloat.add k1 k2) k3) k4)
   else
     Ok (fmatrix_map (fun x => (x + k4)%float)
           (fmatrix_zip PrimFloat.add (fmatrix_zip PrimFloat.add k1 k2) k3)))%result.

(** The quadratic form of one pair of rows, in float64. *)
Definition quadratic_kernel_entry_f64 (x z : list float) (eta1 eta2 c : float) : float :=
  let d := sum_f64 (zip_f64 PrimFloat.mul x z) in
  let q := sum_f64 (zip_f64 PrimFloat.mul (map square_f64 x) (map square_f64 z)) in
  (square_f64 c + square_f64 eta1 * d
   + (square_f64 eta2 / 2) * (square_f64 d - q))%float.

(** [1.0e-6], the default jitter, as the nearest binary64 value. *)
Definition default_jitter_f64 : float := 0x1.0c6f7a0b5ed8dp-20%float.

(** * Properties *)

(** ** Arithmetic on the stand-in for floats *)

Lemma Qltb_lt (x y : Q) : Qltb x y = true <-> x < y.
Proof.
  unfold Qltb. rewrite Qlt_alt. destruct (x ?= y); split; congruence.
Qed.

Lemma Qltb_ge (x y : Q) : Qltb x y = false <-> y <= x.
Proof.
  split; intro H.
  - apply Qnot_lt_le. intro L. apply Qltb_lt in L. congruence.
  - destruct (Qltb x y) eqn:E; [|reflexivity].
    apply Qltb_lt in E. exfalso. exact (Qlt_not_le _ _ E H).
Qed.

#[global] Instance square_Proper : Proper (Qeq ==> Qeq) square.
Proof. intros x y E. unfold square. now rewrite E. Qed.

Lemma Qsum_app (l1 l2 : list Q) : Qsum (l1 ++ l2) == Qsum l1 + Qsum l2.
Proof.
  induction l1 as [|x l1 IH]; simpl.
  - ring.
  - rewrite IH. ring.
Qed.

Lemma sum_upto_S (n : nat) (f : nat -> Q) :
  sum_upto (S n) f == sum_upto n f + f n.
Proof.
  unfold sum_upto. rewrite seq_S, map_app, Qsum_app. simpl. ring.
Qed.

Lemma sum_upto_ext (n : nat) (f g : nat -> Q) :
  (forall k, (k < n)%nat -> f k == g k) -> sum_upto n f == sum_upto n g.
Proof.
  induction n as [|n IH]; intro H.
  - reflexivity.
  - rewrite !sum_upto_S, IH by (intros; apply H; lia).
    rewrite (H n) by lia. reflexivity.
Qed.

Lemma sum_upto_zero (n : nat) (f : nat -> Q) :
  (forall k, (k < n)%nat -> f k == 0) -> sum_upto n f == 0.
Proof.
  induction n as [|n IH]; intro H.
  - reflexivity.
  - rewrite sum_upto_S, IH by (intros; apply H; lia).
    rewrite (H n) by lia. ring.
Qed.

(** A sum whose terms vanish away from one index is the term there. *)
Lemma sum_upto_single (n d : nat) (f : nat -> Q) :
  (d < n)%nat -> (forall k, (k < n)%nat -> k <> d -> f k == 0) ->
  sum_upto n f == f d.
Proof.
  induction n as [|n IH]; intros Hd H.
  - lia.
  - rewrite sum_upto_S. destruct (Nat.eq_dec d n) as [->|Hne].
    + rewrite sum_upto_zero by (intros; apply H; lia). ring.
    + rewrite IH by (try lia; intros; apply H; lia).
      rewrite (H n) by lia. ring.
Qed.

(** A sum whose terms vanish away from two indices is the sum of the two
    terms. *)
Lemma sum_upto_two (n i j : nat) (f : nat -> Q) :
  (i < n)%nat -> (j < n)%nat -> i <> j ->
  (forall k, (k < n)%nat -> k <> i -> k <> j -> f k == 0) ->
  sum_upto n f == f i + f j.
Proof.
  induction n as [|n IH]; intros Hi Hj Hij H.
  - lia.
  - rewrite sum_upto_S. destruct (Nat.eq_dec i n) as [->|Hin].
    + rewrite (sum_upto_single n j) by (try lia; intros; apply H; lia). ring.
    + destruct (Nat.eq_dec j n) as [->|Hjn].
      * rewrite (sum_upto_single n i) by (try lia; intros; apply H; lia). ring.
      * rewrite IH by (try lia; intros; apply H; lia).
        rewrite (H n) by lia. ring.
Qed.

Lemma bidx_in_range (dim i : nat) : (i < dim)%nat -> bidx dim i = i.
Proof.
  unfold bidx. destruct (Nat.eqb_spec dim 1); lia.
Qed.

Lemma broadcast_dim_same (n : nat) : broadcast_dim n n = Ok n.
Proof. unfold broadcast_dim. now rewrite Nat.eqb_refl. Qed.

(** ** The kernel *)

Lemma shape_eqb_true (A B : matrix) : shape_eqb A B = true <-> shape A = shape B.
Proof.
  unfold shape_eqb, shape. rewrite andb_true_iff, !Nat.eqb_eq.
  split; [intros [-> ->]; reflexivity | intro H; inversion H; auto].
Qed.

Lemma shape_eqb_false (A B : matrix) : shape_eqb A B = false <-> shape A <> shape B.
Proof.
  rewrite <- shape_eqb_true. destruct (shape_eqb A B); split; congruence.
Qed.

Lemma madd_same_shape (A B : matrix) :
  nrows A = nrows B -> ncols A = ncols B ->
  madd A B =
  Ok (mkmat (nrows A) (ncols A) (fun i j =>
        mget A (bidx (nrows A) i) (bidx (ncols A) j)
        + mget B (bidx (nrows B) i) (bidx (ncols B) j))).
Proof.
  intros Hr Hc. unfold madd. rewrite <- Hr, <- Hc, !broadcast_dim_same.
  reflexivity.
Qed.

(** The value of [kernel] in both branches of its shape test: the
    quadratic form, plus [jitter] on the diagonal when the shapes agree. *)
Lemma kernel_value (X Z : matrix) (eta1 eta2 c jitter : Q) :
  ncols X = ncols Z ->
  exists K,
    kernel X Z eta1 eta2 c jitter = Ok K
    /\ nrows K = nrows X /\ ncols K = nrows Z
    /\ forall i j, (i < nrows X)%nat -> (j < nrows Z)%nat ->
         mget K i j ==
         quadratic_kernel_entry X Z eta1 eta2 c i j
         + (if shape_eqb X Z then jitter * (if Nat.eqb i j then 1 else 0) else 0).
Proof.
  intros Hc. unfold kernel, dot.
  replace (ncols (msquare X) =? ncols (msquare Z))%nat with true
    by (simpl; rewrite Hc; symmetry; apply Nat.eqb_refl).
  rewrite Hc, Nat.eqb_refl. cbn [rbind].
  destruct (shape_eqb X Z) eqn:E.
  - apply shape_eqb_true in E. inversion E as [[Hr Hc']].
    rewrite madd_same_shape by (cbn; congruence). cbn [rbind].
    rewrite madd_same_shape by (cbn; congruence). cbn [rbind].
    rewrite madd_same_shape by (cbn; congruence).
    eexists. split; [reflexivity|]. cbn [nrows ncols mget mscale msquare sadd mmap eye].
    repeat split; auto.
    intros i j Hi Hj. rewrite <- Hr in *.
    rewrite !(bidx_in_range (nrows X) i), !(bidx_in_range (nrows X) j) by lia.
    unfold quadratic_kernel_entry, rowdot, square. rewrite <- ?Hc.
    destruct (Nat.eqb i j); field.
  - rewrite madd_same_shape by (cbn; congruence). cbn [rbind].
    rewrite madd_same_shape by (cbn; congruence). cbn [rbind].
    eexists. split; [reflexivity|].
    cbn [nrows ncols mget mscale msquare sadd mmap madd_scalar].
    repeat split; auto.
    intros i j Hi Hj.
    rewrite !(bidx_in_range (nrows X) i), !(bidx_in_range (nrows Z) j) by lia.
    unfold quadratic_kernel_entry, rowdot, square. rewrite <- ?Hc.
    field.
Qed.

(** C2 (as amended): in exact arithmetic, for matrices [X] and [Z] with
    the same number of columns and different shapes, and all scalars
    [eta1], [eta2], [c] (and every [jitter]), the sum [k1 + k2 + k3 + k4]
    that [kernel] returns is the matrix whose entry (i, j) is
    [c^2 + eta1^2 (x_i . z_j) + (eta2^2 / 2) ((x_i . z_j)^2 - sum_k x_ik^2 z_jk^2)].
    The numbers here are rationals; what the same sum gives in float64 is
    the subject of the last part of the file. *)
Theorem kernel_is_quadratic_form (X Z : matrix) (eta1 eta2 c jitter : Q) :
  ncols X = ncols Z ->
  shape X <> shape Z ->
  exists K,
    kernel X Z eta1 eta2 c jitter = Ok K
    /\ shape K = (nrows X, nrows Z)
    /\ forall i j, (i < nrows X)%nat -> (j < nrows Z)%nat ->
         mget K i j ==
         square c + square eta1 * rowdot X Z i j
         + (square eta2 / 2)
           * (square (rowdot X Z i j)
              - sum_upto (ncols X)
                  (fun k => square (mget X i k) * square (mget Z j k))).
Proof.
  intros Hc Hs. apply shape_eqb_false in Hs.
  destruct (kernel_value X Z eta1 eta2 c jitter Hc) as (K & HK & Hr & Hcol & Hent).
  exists K. split; [exact HK|]. split.
  - unfold shape. now rewrite Hr, Hcol.
  - intros i j Hi Hj. rewrite (Hent i j Hi Hj), Hs.
    unfold quadratic_kernel_entry. ring.
Qed.

Lemma kernel_is_quadratic_form_witness :
  exists K,
    kernel sample_X sample_Z 1 2 3 default_jitter = Ok K
    /\ shape K = (2%nat, 3%nat)
    /\ forall i j, (i < 2)%nat -> (j < 3)%nat ->
         mget K i j ==
         square 3 + square 1 * rowdot sample_X sample_Z i j
         + (square 2 / 2)
           * (square (rowdot sample_X sample_Z i j)
              - sum_upto 2
                  (fun k => square (mget sample_X i k) * square (mget sample_Z j k))).
Proof.
  apply (kernel_is_quadratic_form sample_X sample_Z 1 2 3 default_jitter).
  - reflexivity.
  - discriminate.
Defined.

Lemma vmulm_columns (v : vector) (M : matrix) :
  vlen v = ncols M ->
  vmulm v M =
  Ok (mkmat (nrows M) (ncols M) (fun i j =>
        vget v (bidx (vlen v) j) * mget M i (bidx (ncols M) j))).
Proof.
  intro H. unfold vmulm. rewrite H, broadcast_dim_same. reflexivity.
Qed.

Lemma singleton_probe_shape (P d : nat) : shape (singleton_probe P d) = (2%nat, P).
Proof.
  unfold singleton_probe, index_update_col. simpl.
  destruct (d <? P)%nat; reflexivity.
Qed.

Lemma pairwise_probe_shape (P d1 d2 : nat) :
  shape (pairwise_probe P d1 d2) = (4%nat, P).
Proof.
  unfold pairwise_probe, index_update_col. simpl.
  destruct (d1 <? P)%nat; simpl; destruct (d2 <? P)%nat; reflexivity.
Qed.

(** C8 (as amended): [kernel] adds the term [jitter * I] to its constant
    term exactly when its two arguments have the same shape, whether or
    not they are the same matrix.  The matrix [k_probeX] from which
    [compute_coefficient_mean_variance] computes its mean and its variance
    is [kernel(kprobe, kX, ...)]; it is computed with the default jitter on
    its diagonal when the probe matrix has as many rows as [X], and
    without it otherwise; the probe matrices of the script have 2 and 4
    rows.  In exact arithmetic a diagonal entry with the jitter is the
    quadratic form plus [jitter]. *)
Theorem kernel_jitter_on_equal_shapes `{ArrayFramework}
    (probe X : matrix) (eta1 eta2 c jitter : Q) (kappa : vector) (d d1 d2 : nat) :
  ncols probe = ncols X ->
  vlen kappa = ncols X ->
  (exists K,
      kernel probe X eta1 eta2 c jitter = Ok K
      /\ forall i j, (i < nrows probe)%nat -> (j < nrows X)%nat ->
           mget K i j ==
           quadratic_kernel_entry probe X eta1 eta2 c i j
           + (if Nat.eqb (nrows probe) (nrows X)
              then (if Nat.eqb i j then jitter else 0) else 0))
  /\ (exists kprobe kX K,
        vmulm kappa probe = Ok kprobe
        /\ vmulm kappa X = Ok kX
        /\ cross_covariance X probe eta1 eta2 c kappa = Ok K
        /\ (forall i j, (i < nrows probe)%nat -> (j < nrows X)%nat ->
              mget K i j ==
              quadratic_kernel_entry kprobe kX eta1 eta2 c i j
              + (if Nat.eqb (nrows probe) (nrows X)
                 then (if Nat.eqb i j then default_jitter else 0) else 0))
        /\ forall Y vec omega mu var,
             compute_coefficient_mean_variance X Y probe vec eta1 eta2 c kappa omega
             = Ok (mu, var) ->
             exists k_xx k_prbprb D A Yw kmu LtL V varvec,
               kernel kX kX eta1 eta2 c default_jitter = Ok k_xx
               /\ kernel kprobe kprobe eta1 eta2 c default_jitter = Ok k_prbprb
               /\ mmulv (eye (nrows X)) (vmap1 (fun w => 1 / w) omega) = Ok D
               /\ madd k_xx D = Ok A
               /\ vdiv Y omega = Ok Yw
               /\ dot_mv K (vmap1 (fun x => (1 # 2) * x)
                                  (cho_solve (cho_factor A) Yw)) = Ok kmu
               /\ dot_vv vec kmu = Ok mu
               /\ matmul (transpose (solve_triangular (cho_factor A) (transpose K)))
                         (solve_triangular (cho_factor A) (transpose K)) = Ok LtL
               /\ msub k_prbprb LtL = Ok V
               /\ matmul_mv V vec = Ok varvec
               /\ dot_vv vec varvec = Ok var)
  /\ shape (singleton_probe (ncols X) d) = (2%nat, ncols X)
  /\ shape (pairwise_probe (ncols X) d1 d2) = (4%nat, ncols X).
Proof.
  intros Hc Hk.
  assert (Hshape : forall A B : matrix, ncols A = ncols B ->
            shape_eqb A B = Nat.eqb (nrows A) (nrows B)).
  { intros A B HAB. unfold shape_eqb. rewrite HAB, Nat.eqb_refl. apply andb_true_r. }
  split; [|split; [|split]].
  - destruct (kernel_value probe X eta1 eta2 c jitter Hc) as (K & HK & _ & _ & Hent).
    exists K. split; [exact HK|]. intros i j Hi Hj.
    rewrite (Hent i j Hi Hj), (Hshape _ _ Hc).
    destruct (Nat.eqb (nrows probe) (nrows X)); [|reflexivity].
    destruct (Nat.eqb i j); ring.
  - pose proof (vmulm_columns kappa probe ltac:(congruence)) as Hkprobe.
    pose proof (vmulm_columns kappa X Hk) as HkX.
    set (kprobe := mkmat (nrows probe) _ _) in Hkprobe.
    set (kX := mkmat (nrows X) _ _) in HkX.
    assert (Hc2 : ncols kprobe = ncols kX) by exact Hc.
    destruct (kernel_value kprobe kX eta1 eta2 c default_jitter Hc2)
      as (K & HK & _ & _ & Hent).
    assert (Hcross : cross_covariance X probe eta1 eta2 c kappa = Ok K).
    { unfold cross_covariance. rewrite Hkprobe, HkX. exact HK. }
    exists kprobe, kX, K.
    split; [exact Hkprobe|]. split; [exact HkX|]. split; [exact Hcross|]. split.
    + intros i j Hi Hj.
      rewrite (Hent i j Hi Hj), (Hshape _ _ Hc2). cbn [nrows kprobe kX].
      destruct (Nat.eqb (nrows probe) (nrows X)); [|reflexivity].
      destruct (Nat.eqb i j); ring.
    + intros Y vec omega mu var Hrun.
      unfold compute_coefficient_mean_variance in Hrun.
      rewrite Hkprobe, HkX in Hrun. cbn [rbind] in Hrun.
      destruct (kernel kX kX eta1 eta2 c default_jitter) as [k_xx|e] eqn:Ekxx; [|discriminate].
      cbn [rbind] in Hrun. rewrite HK in Hrun. cbn [rbind] in Hrun.
      destruct (kernel kprobe kprobe eta1 eta2 c default_jitter) as [k_prbprb|e] eqn:Ekpp;
        [|discriminate].
      cbn [rbind] in Hrun.
      destruct (mmulv (eye (nrows X)) (vmap1 (fun w => 1 / w) omega)) as [D|e] eqn:ED;
        [|discriminate].
      cbn [rbind] in Hrun.
      destruct (madd k_xx D) as [A|e] eqn:EA; [|discriminate]. cbn [rbind] in Hrun.
      cbn zeta in Hrun.
      destruct (vdiv Y omega) as [Yw|e] eqn:EYw; [|discriminate]. cbn [rbind] in Hrun.
      destruct (dot_mv K _) as [kmu|e] eqn:Ekmu; [|discriminate]. cbn [rbind] in Hrun.
      destruct (dot_vv vec kmu) as [mu'|e] eqn:Emu; [|discriminate]. cbn [rbind] in Hrun.
      destruct (matmul _ _) as [LtL|e] eqn:ELtL; [|discriminate]. cbn [rbind] in Hrun.
      destruct (msub k_prbprb LtL) as [V|e] eqn:EV; [|discriminate]. cbn [rbind] in Hrun.
      destruct (matmul_mv V vec) as [varvec|e] eqn:Evv; [|discriminate].
      cbn [rbind] in Hrun.
      destruct (dot_vv vec varvec) as [var'|e] eqn:Evar; [|discriminate].
      cbn [rbind] in Hrun. injection Hrun as <- <-.
      exists k_xx, k_prbprb, D, A, Yw, kmu, LtL, V, varvec.
      repeat (split; [first [reflexivity | assumption]|]). assumption.
  - apply singleton_probe_shape.
  - apply pairwise_probe_shape.
Qed.

Lemma kernel_jitter_on_equal_shapes_witness :
  (exists K,
      kernel (singleton_probe 2 0) sample_X 1 2 3 (1 # 10) = Ok K
      /\ forall i j, (i < 2)%nat -> (j < 2)%nat ->
           mget K i j ==
           quadratic_kernel_entry (singleton_probe 2 0) sample_X 1 2 3 i j
           + (if Nat.eqb i j then 1 # 10 else 0))
  /\ (exists kprobe kX K,
        vmulm sample_kappa (singleton_probe 2 0) = Ok kprobe
        /\ vmulm sample_kappa sample_X = Ok kX
        /\ cross_covariance sample_X (singleton_probe 2 0) 1 2 3 sample_kappa = Ok K
        /\ forall i j, (i < 2)%nat -> (j < 2)%nat ->
             mget K i j ==
             quadratic_kernel_entry kprobe kX 1 2 3 i j
             + (if Nat.eqb i j then default_jitter else 0)).
Proof.
  destruct (@kernel_jitter_on_equal_shapes sample_framework
              (singleton_probe 2 0) sample_X 1 2 3 (1 # 10) sample_kappa 0 0 1
              eq_refl eq_refl) as (H1 & H2 & _).
  split; [exact H1|].
  destruct H2 as (kprobe & kX & K & Hp & HX & HK & Hent & _).
  exists kprobe, kX, K. repeat split; assumption.
Defined.

(** The cross-covariance of a two-row data matrix and the singleton probe:
    the diagonal entry carries the jitter, the off-diagonal entry does
    not. *)
Example cross_covariance_two_rows :
  match cross_covariance sample_X (singleton_probe 2 0) 1 2 3 sample_kappa with
  | Ok K =>
      Qeq_bool (mget K 0 0) ((37 # 4) + default_jitter)
      && Qeq_bool (mget K 0 1) (39 # 4)
  | Raise _ => false
  end = true.
Proof. vm_compute. reflexivity. Qed.

(** ** Probes extract coefficients *)

(** A quadratic function at a point supported on one coordinate. *)
Lemma quadratic_one_point (P : nat) (c0 : Q) (theta : nat -> Q)
    (theta2 : nat -> nat -> Q) (x : nat -> Q) (d : nat) :
  (d < P)%nat ->
  (forall k, (k < P)%nat -> k <> d -> x k == 0) ->
  quadratic P c0 theta theta2 x == c0 + theta d * x d.
Proof.
  intros Hd Hx. unfold quadratic.
  rewrite (sum_upto_single P d (fun k => theta k * x k))
    by (try assumption; intros k Hk Hne; rewrite (Hx k Hk Hne); ring).
  rewrite sum_upto_zero; [ring|].
  intros k Hk. apply sum_upto_zero. intros l Hl.
  destruct (Nat.ltb_spec k l); [|reflexivity].
  destruct (Nat.eq_dec k d) as [->|Hne].
  - rewrite (Hx l) by lia. ring.
  - rewrite (Hx k) by assumption. ring.
Qed.

(** A quadratic function at a point supported on two coordinates. *)
Lemma quadratic_two_point (P : nat) (c0 : Q) (theta : nat -> Q)
    (theta2 : nat -> nat -> Q) (x : nat -> Q) (i j : nat) :
  (i < j)%nat -> (j < P)%nat ->
  (forall k, (k < P)%nat -> k <> i -> k <> j -> x k == 0) ->
  quadratic P c0 theta theta2 x
  == c0 + theta i * x i + theta j * x j + theta2 i j * x i * x j.
Proof.
  intros Hij Hj Hx. unfold quadratic.
  rewrite (sum_upto_two P i j (fun k => theta k * x k))
    by (try lia; intros k Hk H1 H2; rewrite (Hx k Hk H1 H2); ring).
  rewrite (sum_upto_two P i j
             (fun k => sum_upto P
                (fun l => if Nat.ltb k l then theta2 k l * x k * x l else 0))).
  - rewrite (sum_upto_single P j
               (fun l => if Nat.ltb i l then theta2 i l * x i * x l else 0)).
    + rewrite (sum_upto_zero P
                 (fun l => if Nat.ltb j l then theta2 j l * x j * x l else 0)).
      * destruct (Nat.ltb_spec i j); [ring | lia].
      * intros l Hl. destruct (Nat.ltb_spec j l); [|reflexivity].
        rewrite (Hx l) by lia. ring.
    + assumption.
    + intros l Hl Hne. destruct (Nat.ltb_spec i l); [|reflexivity].
      rewrite (Hx l) by lia. ring.
  - lia.
  - assumption.
  - lia.
  - intros k Hk H1 H2. apply sum_upto_zero. intros l Hl.
    destruct (Nat.ltb_spec k l); [|reflexivity].
    rewrite (Hx k) by assumption. ring.
Qed.

Lemma singleton_probe_entry (P d r k : nat) :
  (d < P)%nat ->
  mget (singleton_probe P d) r k
  = if Nat.eqb k d then nth r [1; -1] 0 else 0.
Proof.
  intro Hd. unfold singleton_probe, index_update_col. simpl.
  apply Nat.ltb_lt in Hd. rewrite Hd. reflexivity.
Qed.

Lemma pairwise_probe_entry (P i j r k : nat) :
  (i < P)%nat -> (j < P)%nat ->
  mget (pairwise_probe P i j) r k
  = if Nat.eqb k j then nth r [1; -1; 1; -1] 0
    else if Nat.eqb k i then nth r [1; 1; -1; -1] 0 else 0.
Proof.
  intros Hi Hj. unfold pairwise_probe, index_update_col. simpl.
  apply Nat.ltb_lt in Hi. rewrite Hi. simpl.
  apply Nat.ltb_lt in Hj. rewrite Hj. reflexivity.
Qed.

(** The value of a quadratic function at a row of the pairwise probe. *)
Lemma quadratic_at_pairwise_row (P : nat) (c0 : Q) (theta : nat -> Q)
    (theta2 : nat -> nat -> Q) (i j r : nat) :
  (i < P)%nat -> (j < P)%nat -> i <> j ->
  quadratic P c0 theta theta2 (mget (pairwise_probe P i j) r)
  == c0 + theta i * nth r [1; 1; -1; -1] 0 + theta j * nth r [1; -1; 1; -1] 0
     + theta2 (Nat.min i j) (Nat.max i j)
       * nth r [1; 1; -1; -1] 0 * nth r [1; -1; 1; -1] 0.
Proof.
  intros Hi Hj Hne.
  assert (Hzero : forall k, (k < P)%nat -> k <> i -> k <> j ->
                            mget (pairwise_probe P i j) r k == 0).
  { intros k Hk H1 H2. rewrite pairwise_probe_entry by assumption.
    destruct (Nat.eqb_spec k j); [lia|]. destruct (Nat.eqb_spec k i); [lia|].
    reflexivity. }
  assert (Hati : mget (pairwise_probe P i j) r i = nth r [1; 1; -1; -1] 0).
  { rewrite pairwise_probe_entry by assumption.
    destruct (Nat.eqb_spec i j); [lia|]. now rewrite Nat.eqb_refl. }
  assert (Hatj : mget (pairwise_probe P i j) r j = nth r [1; -1; 1; -1] 0).
  { rewrite pairwise_probe_entry by assumption. now rewrite Nat.eqb_refl. }
  destruct (Nat.lt_ge_cases i j) as [Hlt|Hge].
  - rewrite (quadratic_two_point P c0 theta theta2 _ i j) by (try lia; assumption).
    rewrite Hati, Hatj, Nat.min_l, Nat.max_r by lia. ring.
  - rewrite (quadratic_two_point P c0 theta theta2 _ j i)
      by (try lia; intros; apply Hzero; assumption).
    rewrite Hati, Hatj, Nat.min_r, Nat.max_l by lia. ring.
Qed.

(** C3: the probe points and weights of the post-processing extract the
    coefficients of a quadratic function: the singleton probe (rows
    [+e_d], [-e_d], weights 1/2, -1/2) yields [theta_d]; the pairwise probe
    (rows [+-e_i +- e_j], weights 1/4, -1/4, -1/4, 1/4) yields the
    coefficient of [x_i x_j] for [i <> j]. *)
Theorem probes_extract_coefficients (P : nat) (c0 : Q) (theta : nat -> Q)
    (theta2 : nat -> nat -> Q) (d i j : nat) :
  (d < P)%nat -> (i < P)%nat -> (j < P)%nat -> i <> j ->
  probe_response (singleton_probe P d) singleton_vec (quadratic P c0 theta theta2)
  == theta d
  /\ probe_response (pairwise_probe P i j) pairwise_vec (quadratic P c0 theta theta2)
     == theta2 (Nat.min i j) (Nat.max i j).
Proof.
  intros Hd Hi Hj Hne. split.
  - unfold probe_response, singleton_vec, sum_upto. simpl.
    assert (Hrow : forall r,
              quadratic P c0 theta theta2 (mget (singleton_probe P d) r)
              == c0 + theta d * nth r [1; -1] 0).
    { intro r. rewrite (quadratic_one_point P c0 theta theta2 _ d Hd).
      - rewrite singleton_probe_entry, Nat.eqb_refl by assumption. reflexivity.
      - intros k Hk Hkd. rewrite singleton_probe_entry by assumption.
        destruct (Nat.eqb_spec k d); [lia | reflexivity]. }
    rewrite (Hrow 0%nat), (Hrow 1%nat). simpl. field.
  - unfold probe_response, pairwise_vec, sum_upto. simpl.
    rewrite !(quadratic_at_pairwise_row P c0 theta theta2 i j) by assumption.
    simpl. field.
Qed.

Lemma probes_extract_coefficients_witness :
  probe_response (singleton_probe 4 2) singleton_vec
    (quadratic 4 5 (fun k => inject_Z (Z.of_nat k) + 1)
       (fun k l => inject_Z (Z.of_nat (10 * k + l))))
  == 3
  /\ probe_response (pairwise_probe 4 3 1) pairwise_vec
       (quadratic 4 5 (fun k => inject_Z (Z.of_nat k) + 1)
          (fun k l => inject_Z (Z.of_nat (10 * k + l))))
     == 13.
Proof.
  destruct (probes_extract_coefficients 4 5 (fun k => inject_Z (Z.of_nat k) + 1)
              (fun k l => inject_Z (Z.of_nat (10 * k + l))) 2 3 1) as [H1 H2];
    try lia.
  split.
  - rewrite H1. reflexivity.
  - rewrite H2. reflexivity.
Defined.

(** ** Mean and variance of a Gaussian mixture *)

Lemma Qsum_scale (a : Q) (l : list Q) :
  Qsum (map (fun x => a * x) l) == a * Qsum l.
Proof.
  induction l as [|x l IH]; simpl.
  - ring.
  - rewrite IH. ring.
Qed.

Lemma Qsum_combine_scale (a : Q) (mus variances : list Q) :
  List.length mus = List.length variances ->
  Qsum (map (fun c => a * (snd c + square (fst c))) (combine mus variances))
  == a * (Qsum variances + Qsum (map square mus)).
Proof.
  revert variances. induction mus as [|m mus IH]; intros [|v variances] Hlen;
    simpl in *; try discriminate.
  - ring.
  - rewrite IH by congruence. ring.
Qed.

Lemma Qsum_nonneg (l : list Q) : (forall x, In x l -> 0 <= x) -> 0 <= Qsum l.
Proof.
  induction l as [|x l IH]; intro H; simpl.
  - apply Qle_refl.
  - assert (0 <= x) by (apply H; now left).
    assert (0 <= Qsum l) by (apply IH; intros; apply H; now right).
    lra.
Qed.

(** The sum of the squared deviations from any centre [m]. *)
Lemma Qsum_deviations (m : Q) (l : list Q) :
  Qsum (map (fun x => square (x - m)) l)
  == Qsum (map square l) - 2 * m * Qsum l
     + inject_Z (Z.of_nat (List.length l)) * square m.
Proof.
  induction l as [|x l IH].
  - simpl. unfold square. ring.
  - cbn [map Qsum fold_right List.length]. fold (Qsum (map (fun x => square (x - m)) l)).
    fold (Qsum (map square l)). fold (Qsum l).
    rewrite IH, Nat2Z.inj_succ, <- Z.add_1_r, inject_Z_plus.
    unfold square. ring.
Qed.

Lemma length_pos_inject (l : list Q) :
  l <> [] -> 0 < inject_Z (Z.of_nat (List.length l)).
Proof.
  intro H. destruct l as [|x l]; [congruence|].
  replace 0 with (inject_Z 0) by reflexivity.
  rewrite <- Zlt_Qlt. simpl. lia.
Qed.

(** The spread term of the mixture variance is an average of squares. *)
Lemma spread_is_mean_of_squares (mus : list Q) :
  mus <> [] ->
  mean (map square mus) - square (mean mus)
  == Qsum (map (fun x => square (x - mean mus)) mus)
     / inject_Z (Z.of_nat (List.length mus)).
Proof.
  intro H. pose proof (length_pos_inject mus H) as Hn.
  rewrite Qsum_deviations. unfold mean, square. rewrite length_map.
  field. intro E. rewrite E in Hn. exact (Qlt_irrefl 0 Hn).
Qed.

(** C6 (as amended): in exact arithmetic, for non-empty sequences [mus]
    and [variances] of equal length, [gaussian_mixture_stats] returns the
    mean and the variance of the equally weighted Gaussian mixture with
    these component means and variances; the first component is
    [mean(mus)], the second is
    [mean(variances) + mean(mus^2) - mean(mus)^2]; when every variance is
    non-negative, so is the returned variance.  The numbers here are
    rationals; in float64 the second component can come out negative, as
    the last part of the file shows. *)
Theorem gaussian_mixture_stats_correct (mus variances : list Q) :
  mus <> [] ->
  List.length mus = List.length variances ->
  fst (gaussian_mixture_stats mus variances) == mixture_mean mus
  /\ snd (gaussian_mixture_stats mus variances) == mixture_variance mus variances
  /\ fst (gaussian_mixture_stats mus variances) = mean mus
  /\ snd (gaussian_mixture_stats mus variances)
     = mean variances + mean (map square mus) - square (mean mus)
  /\ ((forall v, In v variances -> 0 <= v) ->
      0 <= snd (gaussian_mixture_stats mus variances)).
Proof.
  intros Hne Hlen. pose proof (length_pos_inject mus Hne) as Hn.
  assert (Hn0 : ~ inject_Z (Z.of_nat (List.length mus)) == 0).
  { intro E. rewrite E in Hn. exact (Qlt_irrefl 0 Hn). }
  assert (Hmean : mean mus == mixture_mean mus).
  { unfold mixture_mean, mean, mixture_weight. rewrite Qsum_scale. now field. }
  cbn [gaussian_mixture_stats fst snd].
  split; [exact Hmean|]. split; [|split; [reflexivity|split; [reflexivity|]]].
  - unfold mixture_variance. rewrite <- Hmean.
    rewrite Qsum_combine_scale by assumption.
    unfold mean, mixture_weight. rewrite length_map, <- Hlen. now field.
  - intro Hv.
    assert (E : mean variances + mean (map square mus) - square (mean mus)
                == mean variances
                   + (mean (map square mus) - square (mean mus))) by ring.
    rewrite E, spread_is_mean_of_squares by assumption.
    assert (H1 : 0 <= mean variances).
    { unfold mean, Qdiv. apply Qmult_le_0_compat.
      - now apply Qsum_nonneg.
      - apply Qinv_le_0_compat. replace 0 with (inject_Z 0) by reflexivity.
        rewrite <- Zle_Qle. lia. }
    assert (H2 : 0 <= Qsum (map (fun x => square (x - mean mus)) mus)
                      / inject_Z (Z.of_nat (List.length mus))).
    { unfold Qdiv. apply Qmult_le_0_compat.
      - apply Qsum_nonneg. intros x Hx. apply in_map_iff in Hx.
        destruct Hx as (y & <- & _). unfold square.
        destruct (Qlt_le_dec (y - mean mus) 0) as [Hneg|Hpos].
        + setoid_replace ((y - mean mus) * (y - mean mus))
            with ((- (y - mean mus)) * (- (y - mean mus))) by ring.
          apply Qmult_le_0_compat; lra.
        + now apply Qmult_le_0_compat.
      - apply Qinv_le_0_compat. now apply Qlt_le_weak. }
    lra.
Qed.

Lemma gaussian_mixture_stats_correct_witness :
  fst (gaussian_mixture_stats [1; 3] [2; 4]) == 2
  /\ snd (gaussian_mixture_stats [1; 3] [2; 4]) == 4
  /\ 0 <= snd (gaussian_mixture_stats [1; 3] [2; 4]).
Proof.
  destruct (gaussian_mixture_stats_correct [1; 3] [2; 4])
    as (H1 & H2 & _ & _ & H5).
  - discriminate.
  - reflexivity.
  - split; [|split].
    + rewrite H1. reflexivity.
    + rewrite H2. reflexivity.
    + apply H5. intros v [<-|[<-|[]]]; discriminate.
Defined.
(** ** Classification of the dimensions *)

(** The interval [mean - 2 std, mean + 2 std] strictly contains zero. *)
Lemma contains_zero_true (mean std : Q) :
  contains_zero mean std = true <-> mean - 2 * std < 0 /\ 0 < mean + 2 * std.
Proof.
  unfold contains_zero. rewrite andb_true_iff, !Qltb_lt. reflexivity.
Qed.

Lemma contains_zero_false (mean std : Q) :
  contains_zero mean std = false <-> ~ (mean - 2 * std < 0 /\ 0 < mean + 2 * std).
Proof.
  rewrite <- contains_zero_true. destruct (contains_zero mean std); split; congruence.
Qed.

Lemma contains_zero_boundary (mean std : Q) :
  mean - 2 * std == 0 \/ mean + 2 * std == 0 -> contains_zero mean std = false.
Proof.
  intro H. apply contains_zero_false. intros [H1 H2]. destruct H as [E|E].
  - rewrite E in H1. exact (Qlt_irrefl 0 H1).
  - rewrite E in H2. exact (Qlt_irrefl 0 H2).
Qed.

(** The loop over the dimensions, started at dimension [dim0] with the
    dimensions [acc] already collected. *)
Lemma classify_dimensions_from (P : Z) (stats : list (Q * Q)) :
  forall (dim0 : nat) (acc : list nat) (w : world),
  exists added lines,
    classify_dimensions P dim0 stats acc w
    = (Ok (acc ++ added), mkworld (stdout w ++ lines) (files w) (clock w))
    /\ List.length lines = List.length stats
    /\ (forall k mean std, nth_error stats k = Some (mean, std) ->
          nth_error lines k
          = Some (PrintDimension (dim0 + k + 1) P
                    (if contains_zero mean std then "inactive" else "active")%string
                    mean std)
          /\ (In (dim0 + k)%nat added <-> contains_zero mean std = false))
    /\ (forall d, In d added -> (dim0 <= d < dim0 + List.length stats)%nat)
    /\ NoDup added.
Proof.
  induction stats as [|[mean std] rest IH]; intros dim0 acc w.
  - exists [], []. simpl. rewrite !app_nil_r. destruct w.
    split; [reflexivity|]. split; [reflexivity|]. split; [|split].
    + intros k m s H. destruct k; discriminate.
    + intros d [].
    + constructor.
  - cbn [classify_dimensions]. unfold bind at 1. cbn [print].
    set (label := (if contains_zero mean std then "inactive" else "active")%string).
    set (acc' := if String.eqb label "active" then acc ++ [dim0] else acc).
    set (w1 := mkworld _ _ _).
    destruct (IH (S dim0) acc' w1) as (added & lines & Hrun & Hlen & Hnth & Hrange & Hnd).
    exists ((if contains_zero mean std then [] else [dim0]) ++ added),
           (PrintDimension (dim0 + 1) P label mean std :: lines).
    split; [|split; [|split; [|split]]].
    + rewrite Hrun. subst w1 acc' label. cbn [stdout files clock].
      rewrite <- (app_assoc (stdout w)). cbn [app].
      destruct (contains_zero mean std); cbn [String.eqb Ascii.eqb Bool.eqb];
        cbn; rewrite <- ?app_assoc; reflexivity.
    + simpl. now rewrite Hlen.
    + intros [|k] m s Hk.
      * injection Hk as <- <-. rewrite Nat.add_0_r. split; [reflexivity|].
        rewrite in_app_iff. split.
        -- intros [Hin|Hin].
           ++ destruct (contains_zero mean std); [inversion Hin | reflexivity].
           ++ apply Hrange in Hin. lia.
        -- intros ->. left. now left.
      * cbn [nth_error] in Hk |- *. destruct (Hnth k m s Hk) as [Hline Hin].
        replace (dim0 + S k)%nat with (S dim0 + k)%nat by lia.
        split; [exact Hline|]. rewrite in_app_iff, <- Hin. split.
        -- intros [Hd|Hd]; [|exact Hd].
           destruct (contains_zero mean std); [inversion Hd|].
           destruct Hd as [Hd|[]]. lia.
        -- intro Hd. now right.
    + intros d Hd. apply in_app_iff in Hd. cbn [List.length]. destruct Hd as [Hd|Hd].
      * destruct (contains_zero mean std); [inversion Hd|].
        destruct Hd as [<-|[]]. lia.
      * apply Hrange in Hd. lia.
    + destruct (contains_zero mean std); [exact Hnd|].
      cbn [app]. constructor; [|exact Hnd].
      intro Hd. apply Hrange in Hd. lia.
Qed.

(** The loop started as [main] starts it. *)
Lemma dimension_classification_facts (P : Z) (stats : list (Q * Q)) (w : world) :
  exists active_dims lines,
    classify_dimensions P 0 stats [] w
    = (Ok active_dims, mkworld (stdout w ++ lines) (files w) (clock w))
    /\ List.length lines = List.length stats
    /\ NoDup active_dims
    /\ forall dim, In dim active_dims -> (dim < List.length stats)%nat.
Proof.
  destruct (classify_dimensions_from P stats 0 [] w)
    as (added & lines & Hrun & Hlen & _ & Hrange & Hnd).
  exists added, lines. split; [exact Hrun|]. split; [exact Hlen|].
  split; [exact Hnd|]. intros dim Hd. apply Hrange in Hd. lia.
Qed.

Lemma vmap_Forall2 {A B : Type} (f : A -> result B) (l : list A) :
  forall ys, vmap f l = Ok ys -> Forall2 (fun x y => f x = Ok y) l ys.
Proof.
  induction l as [|x l IH]; intros ys H; simpl in H.
  - injection H as <-. constructor.
  - destruct (f x) as [y|e] eqn:Ex; [|discriminate]. simpl in H.
    destruct (vmap f l) as [ys'|e]; [|discriminate]. simpl in H.
    injection H as <-. constructor; auto.
Qed.

Lemma vmap_length {A B : Type} (f : A -> result B) (l : list A) (ys : list B) :
  vmap f l = Ok ys -> List.length ys = List.length l.
Proof.
  intro H. symmetry. exact (Forall2_length (vmap_Forall2 f l ys H)).
Qed.

Lemma Forall2_nth_error {A B : Type} (R : A -> B -> Prop) (l : list A) (ys : list B) :
  Forall2 R l ys ->
  forall k x y, nth_error l k = Some x -> nth_error ys k = Some y -> R x y.
Proof.
  induction 1 as [|a b l ys Hab _ IH]; intros [|k] x y Hx Hy; simpl in *;
    try discriminate.
  - injection Hx as <-. injection Hy as <-. exact Hab.
  - eauto.
Qed.

Lemma Forall2_combine_In {A B : Type} (R : A -> B -> Prop) (l : list A) (ys : list B) :
  Forall2 R l ys -> forall x y, In (x, y) (combine l ys) -> R x y.
Proof.
  induction 1 as [|a b l ys Hab _ IH]; intros x y Hin; simpl in Hin.
  - destruct Hin.
  - destruct Hin as [E|Hin]; [injection E as <- <-; exact Hab | auto].
Qed.

(** [main] computes one summary per dimension: when the summaries are
    computed at all, the loop sees [num_dimensions] pairs and pair [dim] is
    the summary of dimension [dim]. *)
Lemma summaries_per_dimension `{ArrayFramework}
    (s : samples) (X : matrix) (Y : vector) (hypers : hyperparameters)
    (n : nat) (stats : list (Q * Q)) :
  vmap (fun dim => analyze_dimension s X Y dim hypers) (seq 0 n) = Ok stats ->
  List.length (combine (map fst stats) (map snd stats)) = n
  /\ forall dim mean std,
       nth_error (combine (map fst stats) (map snd stats)) dim = Some (mean, std) ->
       analyze_dimension s X Y dim hypers = Ok (mean, std).
Proof.
  intro Hv.
  assert (Hzip : forall l : list (Q * Q), combine (map fst l) (map snd l) = l).
  { induction l as [|[a b] l IH]; simpl; [reflexivity | now rewrite IH]. }
  rewrite Hzip. pose proof (vmap_length _ _ _ Hv) as Hlen.
  rewrite length_seq in Hlen. split; [exact Hlen|].
  intros dim mean std Hnth.
  pose proof (vmap_Forall2 _ _ _ Hv) as HF.
  assert (Hdim : (dim < n)%nat).
  { rewrite <- Hlen. apply nth_error_Some. congruence. }
  assert (Hseq : nth_error (seq 0 n) dim = Some dim).
  { rewrite nth_error_nth' with (d := 0%nat) by (rewrite length_seq; lia).
    now rewrite seq_nth. }
  exact (Forall2_nth_error _ _ _ HF dim dim (mean, std) Hseq Hnth).
Qed.

(** C1: after the posterior summaries [(mean, std)] of the dimensions are
    computed, the loop of [main] labels dimension [dim] "inactive" exactly
    when [mean - 2 std < 0] and [mean + 2 std > 0], and "active" otherwise
    (in particular when an endpoint of the interval is zero); the list of
    active dimensions it returns holds exactly the dimensions labelled
    "active", each once. *)
Theorem dimension_classification (P : Z) (stats : list (Q * Q)) (w : world) :
  exists active_dims lines,
    classify_dimensions P 0 stats [] w
    = (Ok active_dims, mkworld (stdout w ++ lines) (files w) (clock w))
    /\ List.length lines = List.length stats
    /\ NoDup active_dims
    /\ (forall dim, In dim active_dims -> (dim < List.length stats)%nat)
    /\ forall dim mean std, nth_error stats dim = Some (mean, std) ->
         exists label,
           nth_error lines dim = Some (PrintDimension (dim + 1) P label mean std)
           /\ (label = "inactive"%string
               <-> mean - 2 * std < 0 /\ 0 < mean + 2 * std)
           /\ (label = "active"%string
               <-> ~ (mean - 2 * std < 0 /\ 0 < mean + 2 * std))
           /\ (In dim active_dims <-> label = "active"%string)
           /\ (mean - 2 * std == 0 \/ mean + 2 * std == 0 -> In dim active_dims).
Proof.
  destruct (classify_dimensions_from P stats 0 [] w)
    as (added & lines & Hrun & Hlen & Hnth & Hrange & Hnd).
  exists added, lines. split; [exact Hrun|]. split; [exact Hlen|].
  split; [exact Hnd|]. split.
  - intros dim Hd. apply Hrange in Hd. lia.
  - intros dim mean std Hk. destruct (Hnth dim mean std Hk) as [Hline Hin].
    cbn [Nat.add] in Hline, Hin.
    exists (if contains_zero mean std then "inactive" else "active")%string.
    split; [exact Hline|].
    rewrite Hin.
    pose proof (contains_zero_true mean std) as [Ht1 Ht2].
    pose proof (contains_zero_false mean std) as [Hf1 Hf2].
    pose proof (contains_zero_boundary mean std) as Hb.
    destruct (contains_zero mean std).
    + split; [|split; [|split]].
      * split; [intros _; now apply Ht1 | reflexivity].
      * split; [discriminate | intro H; specialize (Hf2 H); discriminate].
      * split; discriminate.
      * exact Hb.
    + split; [|split; [|split]].
      * split; [discriminate | intro H; specialize (Ht2 H); discriminate].
      * split; [intros _; now apply Hf1 | reflexivity].
      * split; reflexivity.
      * reflexivity.
Qed.

(** Three dimensions: an interval around zero, an interval away from zero
    and an interval with an endpoint at zero. *)
Example dimension_classification_run :
  classify_dimensions 3 0 [(0, 1); (5, 1); (2, 1)] [] empty_world
  = (Ok [1%nat; 2%nat],
     mkworld [PrintDimension 1 3 "inactive" 0 1;
              PrintDimension 2 3 "active" 5 1;
              PrintDimension 3 3 "active" 2 1] [] 0).
Proof. reflexivity. Qed.
(** ** Pairwise statistics *)

Lemma map_fst_filter_combine {A B : Type} (f : A -> bool) (l : list A) :
  forall ys : list B, List.length ys = List.length l ->
  map fst (filter (fun c => f (fst c)) (combine l ys)) = filter f l.
Proof.
  induction l as [|x l IH]; intros [|y ys] H; simpl in *; try discriminate.
  - reflexivity.
  - destruct (f x); simpl; rewrite IH by congruence; reflexivity.
Qed.

Lemma NoDup_append {A : Type} (m n : list A) :
  NoDup m -> NoDup n -> (forall p, In p m -> ~ In p n) -> NoDup (m ++ n).
Proof.
  intros Hm Hn Hfresh. induction Hm as [|p m Hp Hm IH]; simpl.
  - exact Hn.
  - constructor.
    + rewrite in_app_iff. intros [H|H]; [contradiction|].
      exact (Hfresh p (or_introl eq_refl) H).
    + apply IH. intros q Hq. apply Hfresh. now right.
Qed.

Lemma NoDup_list_prod {A B : Type} (l : list A) (l' : list B) :
  NoDup l -> NoDup l' -> NoDup (list_prod l l').
Proof.
  intros Hl Hl'. induction Hl as [|x l Hx Hl IH]; simpl.
  - constructor.
  - apply NoDup_append.
    + clear -Hl'. induction Hl' as [|y l' Hy _ IH]; simpl; constructor; auto.
      intro H. apply in_map_iff in H. destruct H as (y' & E & Hin).
      injection E as <-. contradiction.
    + exact IH.
    + intros [a b] Hin Hin'. apply in_map_iff in Hin.
      destruct Hin as (y & E & _). injection E as <- <-.
      apply in_prod_iff in Hin'. tauto.
Qed.

Lemma NoDup_map_fst_unique {A B : Type} (l : list (A * B)) :
  NoDup (map fst l) ->
  forall a b b', In (a, b) l -> In (a, b') l -> b = b'.
Proof.
  induction l as [|[a0 b0] l IH]; intros Hnd a b b' H1 H2; simpl in *.
  - destruct H1.
  - inversion Hnd as [|? ? Hnotin Hnd']; subst.
    destruct H1 as [E1|H1], H2 as [E2|H2].
    + congruence.
    + injection E1 as <- <-. exfalso. apply Hnotin.
      apply in_map_iff. now exists (a0, b').
    + injection E2 as <- <-. exfalso. apply Hnotin.
      apply in_map_iff. now exists (a0, b).
    + eauto.
Qed.

(** The pairs that get past [if dim1 >= dim2: continue]. *)
Lemma classify_pairs_from (stats : list ((nat * nat) * (Q * Q))) :
  forall (acc : list (nat * nat)) (w : world),
  exists lines,
    let considered :=
      filter (fun c => Nat.ltb (fst (fst c)) (snd (fst c))) stats in
    classify_pairs stats acc w
    = (Ok (acc ++ map fst (filter (fun c => negb (contains_zero (fst (snd c))
                                                                (snd (snd c))))
                                  considered)),
       mkworld (stdout w ++ lines) (files w) (clock w))
    /\ List.length lines = List.length considered
    /\ forall k d1 d2 mean std,
         nth_error considered k = Some ((d1, d2), (mean, std)) ->
         nth_error lines k
         = Some (if contains_zero mean std
                 then PrintNoInteraction (d1 + 1) (d2 + 1) mean std
                 else PrintInteraction (d1 + 1) (d2 + 1) mean std).
Proof.
  induction stats as [|[[d1 d2] [mean std]] rest IH]; intros acc w.
  - exists []. simpl. rewrite !app_nil_r. destruct w.
    split; [reflexivity|]. split; [reflexivity|].
    intros k ? ? ? ? H. destruct k; discriminate.
  - cbn [classify_pairs filter fst snd].
    destruct (Nat.leb_spec d2 d1) as [Hle|Hlt].
    + destruct (Nat.ltb_spec d1 d2) as [Hlt|_]; [lia|].
      exact (IH acc w).
    + destruct (Nat.ltb_spec d1 d2) as [_|Hge]; [|lia].
      destruct (contains_zero mean std) eqn:Ecz; cbn [negb].
      * unfold bind at 1. cbn [print].
        destruct (IH acc (mkworld (stdout w ++ [PrintNoInteraction (d1 + 1) (d2 + 1) mean std])
                                  (files w) (clock w)))
          as (lines & Hrun & Hlen & Hnth).
        exists (PrintNoInteraction (d1 + 1) (d2 + 1) mean std :: lines).
        cbn zeta in *. cbn [filter fst snd]. rewrite Ecz. cbn [negb].
        split; [|split].
        -- rewrite Hrun. cbn [stdout files clock]. rewrite <- app_assoc. reflexivity.
        -- simpl. now rewrite Hlen.
        -- intros [|k] a b m s Hk; cbn [nth_error] in *.
           ++ injection Hk as <- <- <- <-. now rewrite Ecz.
           ++ now apply Hnth.
      * unfold bind at 1. cbn [print].
        destruct (IH (acc ++ [(d1, d2)])
                     (mkworld (stdout w ++ [PrintInteraction (d1 + 1) (d2 + 1) mean std])
                              (files w) (clock w)))
          as (lines & Hrun & Hlen & Hnth).
        exists (PrintInteraction (d1 + 1) (d2 + 1) mean std :: lines).
        cbn zeta in *. cbn [filter fst snd]. rewrite Ecz. cbn [negb map fst].
        split; [|split].
        -- rewrite Hrun. cbn [stdout files clock]. rewrite <- !app_assoc. reflexivity.
        -- simpl. now rewrite Hlen.
        -- intros [|k] a b m s Hk; cbn [nth_error] in *.
           ++ injection Hk as <- <- <- <-. now rewrite Ecz.
           ++ now apply Hnth.
Qed.

(** C5: pairwise statistics are reported only over the dimensions found
    active by the loop over the dimensions.  With no active dimension the
    pairwise stage computes and prints nothing.  Otherwise the pairs that
    are considered are exactly the pairs [(dim1, dim2)] of active
    dimensions with [dim1 < dim2], each once; a considered pair with
    statistics [(mean, std)] is appended to the identified interactions
    exactly when [mean - 2 std < 0 < mean + 2 std] fails, and every
    identified interaction is a considered pair. *)
Theorem pairwise_reporting `{ArrayFramework}
    (s : samples) (X : matrix) (Y : vector) (hypers : hyperparameters)
    (P : Z) (stats : list (Q * Q)) (w0 w : world) (active_dims : list nat) :
  fst (classify_dimensions P 0 stats [] w0) = Ok active_dims ->
  pairwise_stage s X Y hypers [] w = (Ok [], w)
  /\ (forall e,
        vmap (fun dim_pair =>
                analyze_pair_of_dimensions s X Y (fst dim_pair) (snd dim_pair) hypers)
             (list_prod active_dims active_dims) = Raise e ->
        pairwise_stage s X Y hypers active_dims w = (Raise e, w))
  /\ (forall pair_stats,
        vmap (fun dim_pair =>
                analyze_pair_of_dimensions s X Y (fst dim_pair) (snd dim_pair) hypers)
             (list_prod active_dims active_dims) = Ok pair_stats ->
        exists active_quad_dims considered lines,
          pairwise_stage s X Y hypers active_dims w
          = (Ok active_quad_dims, mkworld (stdout w ++ lines) (files w) (clock w))
          /\ NoDup (map fst considered)
          /\ (forall dim1 dim2,
                In (dim1, dim2) (map fst considered)
                <-> In dim1 active_dims /\ In dim2 active_dims /\ (dim1 < dim2)%nat)
          /\ List.length lines = List.length considered
          /\ (forall k dim1 dim2 mean std,
                nth_error considered k = Some ((dim1, dim2), (mean, std)) ->
                analyze_pair_of_dimensions s X Y dim1 dim2 hypers = Ok (mean, std)
                /\ ((~ (mean - 2 * std < 0 /\ 0 < mean + 2 * std)
                     /\ nth_error lines k
                        = Some (PrintInteraction (dim1 + 1) (dim2 + 1) mean std)
                     /\ In (dim1, dim2) active_quad_dims)
                    \/ ((mean - 2 * std < 0 /\ 0 < mean + 2 * std)
                        /\ nth_error lines k
                           = Some (PrintNoInteraction (dim1 + 1) (dim2 + 1) mean std)
                        /\ ~ In (dim1, dim2) active_quad_dims)))
          /\ (forall p, In p active_quad_dims -> In p (map fst considered))
          /\ NoDup active_quad_dims).
Proof.
  intro Hactive.
  assert (Hnd : NoDup active_dims).
  { destruct (dimension_classification_facts P stats w0)
      as (a & l & Hrun & _ & Hnd & _).
    rewrite Hrun in Hactive. injection Hactive as <-. exact Hnd. }
  split; [reflexivity|]. split.
  { intros e Ev. unfold pairwise_stage. destruct active_dims as [|d ds].
    - simpl in Ev. discriminate.
    - cbn [List.length Nat.ltb Nat.leb]. unfold bind, lift. rewrite Ev. reflexivity. }
  intros pstats Ev.
  set (dim_pairs := list_prod active_dims active_dims) in *.
  pose proof (vmap_Forall2 _ _ _ Ev) as HF.
  pose proof (vmap_length _ _ _ Ev) as Hlen.
  destruct (classify_pairs_from (combine dim_pairs pstats) [] w)
    as (lines & Hrun & Hlines & Hnth).
  cbn zeta in Hrun, Hlines, Hnth. cbn [app] in Hrun.
  set (considered :=
         filter (fun c : nat * nat * (Q * Q) => Nat.ltb (fst (fst c)) (snd (fst c)))
                (combine dim_pairs pstats)) in *.
  set (quads := map fst (filter _ considered)) in *.
  assert (Hfst : map fst considered
                 = filter (fun p => Nat.ltb (fst p) (snd p)) dim_pairs).
  { subst considered.
    exact (map_fst_filter_combine (fun p => Nat.ltb (fst p) (snd p))
             dim_pairs pstats Hlen). }
  assert (Hndc : NoDup (map fst considered)).
  { rewrite Hfst. apply NoDup_filter. now apply NoDup_list_prod. }
  exists quads, considered, lines.
  split; [|split; [|split; [|split; [|split; [|split]]]]].
  - unfold pairwise_stage. destruct active_dims as [|d ds].
    + subst dim_pairs. simpl in Ev. injection Ev as <-.
      simpl in Hrun. exact Hrun.
    + cbn [List.length Nat.ltb Nat.leb]. unfold bind, lift.
      fold dim_pairs. rewrite Ev. exact Hrun.
  - exact Hndc.
  - intros dim1 dim2. rewrite Hfst, filter_In. subst dim_pairs.
    rewrite in_prod_iff. cbn [fst snd]. rewrite Nat.ltb_lt. tauto.
  - exact Hlines.
  - intros k dim1 dim2 mean std Hk.
    assert (Hin : In ((dim1, dim2), (mean, std)) considered)
      by (eapply nth_error_In; exact Hk).
    assert (Hin' : In ((dim1, dim2), (mean, std)) (combine dim_pairs pstats)).
    { subst considered. apply filter_In in Hin. tauto. }
    split.
    + exact (Forall2_combine_In _ _ _ HF (dim1, dim2) (mean, std) Hin').
    + specialize (Hnth k dim1 dim2 mean std Hk).
      destruct (contains_zero mean std) eqn:Ecz.
      * right. split; [now apply contains_zero_true|]. split; [exact Hnth|].
        intro Hq. subst quads. apply in_map_iff in Hq.
        destruct Hq as ([p [m' s']] & Ep & Hq). cbn [fst] in Ep. subst p.
        apply filter_In in Hq. destruct Hq as [Hq Hneg]. cbn [fst snd] in Hneg.
        pose proof (NoDup_map_fst_unique considered Hndc _ _ _ Hin Hq) as E.
        injection E as <- <-. rewrite Ecz in Hneg. discriminate.
      * left. split; [now apply contains_zero_false|]. split; [exact Hnth|].
        subst quads. apply in_map_iff. exists ((dim1, dim2), (mean, std)).
        split; [reflexivity|]. apply filter_In. split; [exact Hin|].
        cbn [fst snd]. now rewrite Ecz.
  - intros p Hp. subst quads. apply in_map_iff in Hp.
    destruct Hp as (c & <- & Hc). apply filter_In in Hc.
    apply in_map. tauto.
  - subst quads. clear -Hndc. induction considered as [|c l IH]; simpl.
    + constructor.
    + inversion Hndc as [|? ? Hc Hl]; subst.
      destruct (negb _); [|auto]. simpl. constructor; [|auto].
      intro Hin. apply Hc. apply in_map_iff in Hin.
      destruct Hin as (c' & E & Hin). apply filter_In in Hin.
      rewrite <- E. apply in_map. tauto.
Qed.

Lemma pairwise_reporting_witness :
  exists active_quad_dims lines,
    @pairwise_stage sample_framework [sample_draw 2 2] sample_X (ones 2)
      (mkhypers 1 2 1 2 2 1 1) [0%nat; 1%nat] empty_world
    = (Ok active_quad_dims, mkworld lines [] 0)
    /\ forall p, In p active_quad_dims -> p = (0%nat, 1%nat).
Proof.
  assert (Hactive : fst (classify_dimensions 2 0 [(5, 1); (7, 1)] [] empty_world)
                    = Ok [0%nat; 1%nat]) by reflexivity.
  pose proof (@pairwise_reporting sample_framework [sample_draw 2 2] sample_X (ones 2)
                (mkhypers 1 2 1 2 2 1 1) 2 [(5, 1); (7, 1)] empty_world empty_world
                [0%nat; 1%nat] Hactive) as Hw.
  destruct Hw as (_ & _ & Hok).
  assert (Hstats : exists pair_stats,
            vmap (fun dim_pair =>
                    @analyze_pair_of_dimensions sample_framework [sample_draw 2 2]
                      sample_X (ones 2) (fst dim_pair) (snd dim_pair)
                      (mkhypers 1 2 1 2 2 1 1))
                 (list_prod [0%nat; 1%nat] [0%nat; 1%nat]) = Ok pair_stats)
    by (eexists; vm_compute; reflexivity).
  destruct Hstats as [pair_stats Ev].
  destruct (Hok pair_stats Ev)
    as (quads & considered & lines & Hrun & _ & Hmem & _ & _ & Hsub & _).
  exists quads, lines. split; [exact Hrun|].
  intros [d1 d2] Hp. apply Hsub, Hmem in Hp.
  destruct Hp as ([<-|[<-|[]]] & [<-|[<-|[]]] & Hlt); try lia; reflexivity.
Defined.

(** ** No file is written *)

Lemma only_prints_ret {A : Type} (a : A) : only_prints (ret a).
Proof. intro w. split; [reflexivity|]. exists []. simpl. now rewrite app_nil_r. Qed.

Lemma only_prints_lift {A : Type} (r : result A) : only_prints (lift r).
Proof. intro w. split; [reflexivity|]. exists []. simpl. now rewrite app_nil_r. Qed.

Lemma only_prints_print (l : line) : only_prints (print l).
Proof. intro w. split; [reflexivity|]. now exists [l]. Qed.

Lemma only_prints_time_time : only_prints time_time.
Proof. intro w. split; [reflexivity|]. exists []. simpl. now rewrite app_nil_r. Qed.

Lemma only_prints_sleep (dt : Q) : only_prints (sleep dt).
Proof. intro w. split; [reflexivity|]. exists []. simpl. now rewrite app_nil_r. Qed.

Lemma only_prints_assert (b : bool) : only_prints (assert b).
Proof. destruct b; [apply only_prints_ret | apply only_prints_lift]. Qed.

Lemma only_prints_bind {A B : Type} (m : M A) (f : A -> M B) :
  only_prints m -> (forall a, only_prints (f a)) -> only_prints (bind m f).
Proof.
  intros Hm Hf w. unfold bind. destruct (Hm w) as [Hfiles [l1 Hout]].
  destruct (m w) as [[a|e] w1]; simpl in *.
  - destruct (Hf a w1) as [Hfiles2 [l2 Hout2]]. split; [congruence|].
    exists (l1 ++ l2). rewrite Hout2, Hout. now rewrite app_assoc.
  - split; [assumption|]. now exists l1.
Qed.

Create HintDb frame.

#[global] Hint Resolve only_prints_ret only_prints_lift only_prints_print
  only_prints_time_time only_prints_sleep only_prints_assert : frame.

(** Peels the statements of a program off one by one. *)
Ltac frame :=
  repeat first
    [ apply only_prints_bind; [|intro]
    | solve [auto with frame]
    | match goal with
      | |- only_prints (let (_, _) := ?x in _) => destruct x
      | |- only_prints (if ?b then _ else _) => destruct b
      end ].

Lemma only_prints_get_data `{ArrayFramework} `{RandomState} (N S P seed : Z) :
  only_prints (get_data N S P seed).
Proof. unfold get_data. frame. Qed.

Lemma only_prints_run_inference `{Sampler} (a : args) (rng_key : Z)
    (X : matrix) (Y : vector) (hypers : hyperparameters) :
  only_prints (run_inference a rng_key X Y hypers).
Proof. unfold run_inference. frame. Qed.

Lemma only_prints_classify_dimensions (P : Z) (stats : list (Q * Q)) :
  forall dim acc, only_prints (classify_dimensions P dim stats acc).
Proof.
  induction stats as [|[mean std] rest IH]; intros dim acc; simpl.
  - frame.
  - apply only_prints_bind; [frame | intro; apply IH].
Qed.

Lemma only_prints_classify_pairs (stats : list ((nat * nat) * (Q * Q))) :
  forall acc, only_prints (classify_pairs stats acc).
Proof.
  induction stats as [|[[d1 d2] [mean std]] rest IH]; intro acc; simpl.
  - frame.
  - destruct (Nat.leb d2 d1); [apply IH|].
    destruct (negb (contains_zero mean std));
      (apply only_prints_bind; [frame | intro; apply IH]).
Qed.

Lemma only_prints_pairwise_stage `{ArrayFramework}
    (s : samples) (X : matrix) (Y : vector) (hypers : hyperparameters)
    (active_dims : list nat) :
  only_prints (pairwise_stage s X Y hypers active_dims).
Proof.
  unfold pairwise_stage. destruct (Nat.ltb 0 (List.length active_dims)).
  - apply only_prints_bind; [frame | intro; apply only_prints_classify_pairs].
  - frame.
Qed.

Lemma only_prints_run_for `{ArrayFramework} `{RandomState} `{Sampler}
    (a : args) (P N : Z) :
  only_prints (run_for a P N).
Proof.
  unfold run_for.
  apply only_prints_bind; [apply only_prints_get_data | intro d].
  apply only_prints_bind; [apply only_prints_run_inference | intro s].
  apply only_prints_bind; [frame | intro stats].
  apply only_prints_bind; [frame | intros _].
  apply only_prints_bind; [apply only_prints_classify_dimensions | intro active_dims].
  apply only_prints_bind; [frame | intros _].
  apply only_prints_bind; [frame | intros _].
  apply only_prints_bind; [frame | intros _].
  apply only_prints_bind; [apply only_prints_pairwise_stage | intro quads].
  frame.
Qed.

Lemma only_prints_for_each_N `{ArrayFramework} `{RandomState} `{Sampler}
    (a : args) (P : Z) (Ns : list Z) :
  forall res, only_prints (for_each_N a P Ns res).
Proof.
  induction Ns as [|N rest IH]; intro res; simpl.
  - frame.
  - apply only_prints_bind; [apply only_prints_run_for | intro; apply IH].
Qed.

(** The commented-out dump would have written a file. *)
Lemma pickle_dump_writes (path : string) (r : results) (w : world) :
  files (snd (pickle_dump path r w)) = (path, r) :: files w
  /\ ~ only_prints (pickle_dump path r).
Proof.
  split; [reflexivity|]. intro H. destruct (H w) as [Hf _]. simpl in Hf.
  apply (f_equal (@List.length _)) in Hf. simpl in Hf. lia.
Qed.

(** The statements of [main] themselves: none of them writes a file (the
    dump of the results is a comment), and the [print] calls only append
    lines to the standard output.  What the imported sampler does to the
    outside world while it runs (it is asked for a progress bar) is no part
    of [world], so this is a statement about the code of the script only. *)
Theorem main_writes_no_file `{ArrayFramework} `{RandomState} `{Sampler}
    (a : args) (w : world) :
  files (snd (main a w)) = files w
  /\ exists lines, stdout (snd (main a w)) = stdout w ++ lines.
Proof.
  assert (Hmain : only_prints (main a)).
  { unfold main.
    apply only_prints_bind; [apply only_prints_for_each_N | intro res]. frame. }
  exact (Hmain w).
Qed.

(** ** The argument [--num-data] *)

Lemma run_for_ignores_num_data `{ArrayFramework} `{RandomState} `{Sampler}
    (a : args) (n P N : Z) :
  run_for (set_num_data n a) P N = run_for a P N.
Proof. reflexivity. Qed.

(** The loop over [N] carries the stored arguments along unchanged. *)
Lemma for_each_N_num_data `{ArrayFramework} `{RandomState} `{Sampler}
    (a : args) (n P : Z) (Ns : list Z) :
  forall runs w,
    for_each_N (set_num_data n a) P Ns (mkresults (set_num_data n a) runs) w
    = match for_each_N a P Ns (mkresults a runs) w with
      | (Ok res, w') =>
          (Ok (mkresults (set_num_data n a) (results_runs res)), w')
      | (Raise e, w') => (Raise e, w')
      end
    /\ forall res w', for_each_N a P Ns (mkresults a runs) w = (Ok res, w') ->
                      results_args res = a.
Proof.
  induction Ns as [|N rest IH]; intros runs w.
  - split; [reflexivity|]. intros res w' E. injection E as <- _. reflexivity.
  - cbn [for_each_N]. rewrite run_for_ignores_num_data. unfold bind.
    destruct (run_for a P N w) as [[r|e] w1]; cbn [results_args results_runs].
    + exact (IH (runs ++ [(N, r)]) w1).
    + split; [reflexivity|]. intros res w' E. discriminate.
Qed.

(** A run of [main] that ends normally has printed the dictionary
    [results], with the arguments in it, last. *)
Lemma main_echoes_args `{ArrayFramework} `{RandomState} `{Sampler}
    (a : args) (w : world) :
  fst (main a w) = Ok tt ->
  exists runs,
    last (stdout (snd (main a w))) (PrintElapsed 0) = PrintResults (mkresults a runs).
Proof.
  unfold main, bind.
  destruct (for_each_N_num_data a 0 (num_dimensions a) [200%Z] [] w) as [_ Hargs].
  destruct (for_each_N a (num_dimensions a) [200%Z] (mkresults a []) w)
    as [[res|e] w1]; [|discriminate].
  intros _. specialize (Hargs res w1 eq_refl).
  exists (results_runs res). cbn [print ret snd stdout].
  rewrite last_last. destruct res as [a' runs]. cbn in Hargs |- *. now subst a'.
Qed.

Lemma map_erase_last (l : list line) (r r' : results) :
  erase_num_data (PrintResults r) = erase_num_data (PrintResults r') ->
  map erase_num_data (l ++ [PrintResults r]) = map erase_num_data (l ++ [PrintResults r']).
Proof. intro E. rewrite !map_app. cbn [map]. now rewrite E. Qed.

Lemma main_unfold `{ArrayFramework} `{RandomState} `{Sampler} (a : args) (w : world) :
  main a w
  = match for_each_N a (num_dimensions a) [200%Z] (mkresults a []) w with
    | (Ok res, w1) =>
        (Ok tt, mkworld (stdout w1 ++ [PrintResults res]) (files w1) (clock w1))
    | (Raise e, w1) => (Raise e, w1)
    end.
Proof.
  unfold main, bind.
  destruct (for_each_N a (num_dimensions a) [200%Z] (mkresults a []) w)
    as [[res|e] w1]; reflexivity.
Qed.

Lemma main_outcome_ignores_num_data `{ArrayFramework} `{RandomState} `{Sampler}
    (a : args) (n : Z) (w : world) :
  fst (main (set_num_data n a) w) = fst (main a w).
Proof.
  rewrite !main_unfold. cbn [num_dimensions set_num_data].
  destruct (for_each_N_num_data a n (num_dimensions a) [200%Z] [] w) as [E _].
  rewrite E. clear E.
  destruct (for_each_N a (num_dimensions a) [200%Z] (mkresults a []) w)
    as [[res|e] w1]; reflexivity.
Qed.

(** C9 (as amended): the value of [--num-data] is not used by any
    computation: the data set (of size 200), the inference, the summaries
    and the counts are the same for every value, a run ends the same way
    with the same clock and files, and prints the same lines, up to the
    value of [num_data] shown inside the arguments that the final line
    [RESULTS] echoes. *)
Theorem num_data_only_echoed `{ArrayFramework} `{RandomState} `{Sampler}
    (a : args) (n : Z) (w : world) :
  (forall P N, run_for (set_num_data n a) P N = run_for a P N)
  /\ fst (main (set_num_data n a) w) = fst (main a w)
  /\ files (snd (main (set_num_data n a) w)) = files (snd (main a w))
  /\ clock (snd (main (set_num_data n a) w)) = clock (snd (main a w))
  /\ map erase_num_data (stdout (snd (main (set_num_data n a) w)))
     = map erase_num_data (stdout (snd (main a w)))
  /\ removelast (stdout (snd (main (set_num_data n a) w)))
     = removelast (stdout (snd (main a w))).
Proof.
  split; [intros; apply run_for_ignores_num_data|].
  rewrite !main_unfold. cbn [num_dimensions set_num_data].
  destruct (for_each_N_num_data a n (num_dimensions a) [200%Z] [] w) as [E Hargs].
  rewrite E. clear E.
  destruct (for_each_N a (num_dimensions a) [200%Z] (mkresults a []) w)
    as [[res|e] w1]; cbn [fst snd files clock stdout].
  - specialize (Hargs res w1 eq_refl). repeat split; try reflexivity.
    + apply map_erase_last. cbn. now rewrite Hargs.
    + now rewrite !removelast_last.
  - repeat split; reflexivity.
Qed.

(** With [--num-data 5] the run on the small command line prints a final
    line that differs from the one printed with [--num-data 0]. *)
Lemma num_data_changes_output :
  fst (@main sample_framework sample_random sample_sampler small_args empty_world)
  = Ok tt
  /\ stdout (snd (@main sample_framework sample_random sample_sampler
                   (set_num_data 5 small_args) empty_world))
     <> stdout (snd (@main sample_framework sample_random sample_sampler
                       small_args empty_world)).
Proof.
  assert (Hok : fst (@main sample_framework sample_random sample_sampler
                       small_args empty_world) = Ok tt)
    by (vm_compute; reflexivity).
  split; [exact Hok|]. intro Heq.
  assert (Hok5 : fst (@main sample_framework sample_random sample_sampler
                        (set_num_data 5 small_args) empty_world) = Ok tt).
  { rewrite (@main_outcome_ignores_num_data sample_framework sample_random
               sample_sampler small_args 5 empty_world).
    exact Hok. }
  destruct (@main_echoes_args sample_framework sample_random sample_sampler
              small_args empty_world Hok) as [runs Hl].
  destruct (@main_echoes_args sample_framework sample_random sample_sampler
              (set_num_data 5 small_args) empty_world Hok5) as [runs5 Hl5].
  rewrite Heq, Hl in Hl5. discriminate.
Qed.
(** ** The synthetic data set *)

Lemma rand_length `{RandomState} (n : nat) :
  forall g, List.length (fst (rand n g)) = n.
Proof.
  induction n as [|n IH]; intro g; simpl.
  - reflexivity.
  - destruct (random_sample g) as [x g1]. specialize (IH g1).
    destruct (rand n g1) as [xs g2]. simpl in *. now rewrite IH.
Qed.

Lemma rand_range `{RandomState} (n : nat) :
  (forall g, 0 <= fst (random_sample g) /\ fst (random_sample g) < 1) ->
  forall g, Forall (fun x => 0 <= x /\ x < 1) (fst (rand n g)).
Proof.
  intro Hu. induction n as [|n IH]; intro g; simpl.
  - constructor.
  - specialize (Hu g). destruct (random_sample g) as [x g1]. specialize (IH g1).
    destruct (rand n g1) as [xs g2]. simpl in *. now constructor.
Qed.

Lemma binomial_length `{RandomState} (ps : list Q) :
  forall g, List.length (fst (binomial ps g)) = List.length ps.
Proof.
  induction ps as [|p ps IH]; intro g; simpl.
  - reflexivity.
  - destruct (binomial1 p g) as [b g1]. specialize (IH g1).
    destruct (binomial ps g1) as [bs g2]. simpl in *. now rewrite IH.
Qed.

Lemma sign_of_bit_cases (b : bool) : sign_of_bit b = 1 \/ sign_of_bit b = -1.
Proof. destruct b; [left | right]; reflexivity. Qed.

(** A coefficient [(1 + 1.5 u) * flip] with [u] in [0, 1) and [flip] a
    sign has magnitude between 1 and 2.5. *)
Lemma flipped_coefficient_range (xs : list Q) :
  Forall (fun x => 0 <= x /\ x < 1) xs ->
  forall bs,
    Forall (fun v => 1 <= Qabs v /\ Qabs v <= 5 # 2)
           (mul_lists (map (fun r => 1 + (3 # 2) * r) xs) (map sign_of_bit bs)).
Proof.
  induction 1 as [|x xs [Hx0 Hx1] _ IH]; intros [|b bs]; simpl; try constructor.
  - assert (Hpos : 0 <= 1 + (3 # 2) * x) by lra.
    destruct b.
    + setoid_replace ((1 + (3 # 2) * x) * sign_of_bit true)
        with (1 + (3 # 2) * x) by (unfold sign_of_bit; ring).
      rewrite (Qabs_pos _ Hpos). lra.
    + setoid_replace ((1 + (3 # 2) * x) * sign_of_bit false)
        with (- (1 + (3 # 2) * x)) by (unfold sign_of_bit; ring).
      rewrite Qabs_opp, (Qabs_pos _ Hpos). lra.
  - apply IH.
Qed.

Lemma mul_lists_length (xs ys : list Q) :
  List.length xs = List.length ys ->
  List.length (mul_lists xs ys) = List.length xs.
Proof.
  revert ys. induction xs as [|x xs IH]; intros [|y ys] H; simpl in *;
    try discriminate; auto.
Qed.

(** [get_data] stops at its first statement when the assertion fails. *)
Lemma get_data_assertion `{ArrayFramework} `{RandomState} (N S P seed : Z) (w : world) :
  ~ (S < P /\ P > 1 /\ S > 0)%Z ->
  get_data N S P seed w = (Raise AssertionError, w).
Proof.
  intro Hpre. unfold get_data, bind, assert.
  replace ((S <? P)%Z && (1 <? P)%Z && (0 <? S)%Z) with false; [reflexivity|].
  symmetry. apply not_true_is_false. intro Ht.
  apply andb_true_iff in Ht. destruct Ht as [Ht H3].
  apply andb_true_iff in Ht. destruct Ht as [H1 H2].
  apply Z.ltb_lt in H1, H2, H3. lia.
Qed.

(** With fewer than four columns the assertion passes and the column
    accesses [X[:, 2]], [X[:, 3]] raise. *)
Lemma get_data_few_columns `{ArrayFramework} `{RandomState}
    (N S P seed : Z) (w : world) :
  (S < P /\ P > 1 /\ S > 0)%Z ->
  (0 <= seed < 2 ^ 32)%Z -> (0 <= N)%Z -> (P < 4)%Z ->
  get_data N S P seed w = (Raise IndexError, w).
Proof.
  intros (H1 & H2 & H3) Hseed HN HP. unfold get_data, bind, assert.
  replace ((S <? P)%Z && (1 <? P)%Z && (0 <? S)%Z) with true
    by (symmetry; rewrite !andb_true_iff, !Z.ltb_lt; lia).
  cbn [ret]. unfold lift at 1, np_random_seed.
  replace ((0 <=? seed)%Z && (seed <? 2 ^ 32)%Z) with true
    by (symmetry; rewrite andb_true_iff, Z.leb_le, Z.ltb_lt; lia).
  destruct (rand (Z.to_nat S) (seeded seed)) as [u g1].
  destruct (binomial _ g1) as [b g2].
  unfold lift at 1.
  replace (N <? 0)%Z with false by (symmetry; apply Z.ltb_ge; lia).
  destruct (rand (Z.to_nat N * Z.to_nat P) g2) as [u2 g3].
  destruct (binomial _ g3) as [b2 g4].
  unfold lift, column. cbn [ncols nrows matrix_of_list].
  destruct (Nat.ltb_spec 0 (Z.to_nat P)); [|lia].
  destruct (Nat.ltb_spec 1 (Z.to_nat P)); [|lia].
  destruct (Nat.ltb_spec 2 (Z.to_nat P)); [|reflexivity].
  destruct (Nat.ltb_spec 3 (Z.to_nat P)); [lia|reflexivity].
Qed.
(** With at least four columns, a seed that [onp.random.seed] accepts and
    a non-negative [N], [get_data] returns the data set and prints one
    line. *)
Lemma get_data_returns `{ArrayFramework} `{RandomState}
    (N S P seed : Z) (w : world) :
  (0 <= N)%Z -> (4 <= P)%Z -> (0 < S < P)%Z -> (0 <= seed < 2 ^ 32)%Z ->
  exists d ones minus_ones,
    get_data N S P seed w
    = (Ok d, mkworld (stdout w ++ [PrintNumberOfOnes ones minus_ones])
                     (files w) (clock w))
    /\ shape (data_X d) = (Z.to_nat N, Z.to_nat P)
    /\ vlen (data_Y d) = Z.to_nat N
    /\ (forall i, (i < Z.to_nat N)%nat ->
          vget (data_Y d) i = 1 \/ vget (data_Y d) i = -1)
    /\ vlen (data_W d) = Z.to_nat S
    /\ ((forall g, 0 <= fst (random_sample g) /\ fst (random_sample g) < 1) ->
        forall k, (k < Z.to_nat S)%nat ->
          1 <= Qabs (vget (data_W d) k) /\ Qabs (vget (data_W d) k) <= 5 # 2)
    /\ data_pairwise_coefficient d = 3
    /\ data_expected_quad_dims d = [(0%nat, 1%nat); (2%nat, 3%nat)].
Proof.
  intros HN HP HS Hseed. unfold get_data, bind, assert.
  replace ((S <? P)%Z && (1 <? P)%Z && (0 <? S)%Z) with true
    by (symmetry; rewrite !andb_true_iff, !Z.ltb_lt; lia).
  cbn [ret]. unfold lift at 1, np_random_seed.
  replace ((0 <=? seed)%Z && (seed <? 2 ^ 32)%Z) with true
    by (symmetry; rewrite andb_true_iff, Z.leb_le, Z.ltb_lt; lia).
  pose proof (rand_length (Z.to_nat S) (seeded seed)) as Hlu.
  pose proof (fun Hu => rand_range (Z.to_nat S) Hu (seeded seed)) as Hru.
  destruct (rand (Z.to_nat S) (seeded seed)) as [u g1]. cbn [fst] in Hlu, Hru.
  pose proof (binomial_length
                (repeat (1 # 2) (List.length (map (fun r => 1 + (3 # 2) * r) u))) g1)
    as Hlb.
  destruct (binomial _ g1) as [b g2]. cbn [fst] in Hlb.
  rewrite repeat_length, length_map in Hlb.
  unfold lift at 1.
  replace (N <? 0)%Z with false by (symmetry; apply Z.ltb_ge; lia).
  destruct (rand (Z.to_nat N * Z.to_nat P) g2) as [u2 g3].
  destruct (binomial _ g3) as [b2 g4].
  unfold lift, column. cbn [ncols nrows matrix_of_list].
  destruct (Nat.ltb_spec 0 (Z.to_nat P)); [|lia].
  destruct (Nat.ltb_spec 1 (Z.to_nat P)); [|lia].
  destruct (Nat.ltb_spec 2 (Z.to_nat P)); [|lia].
  destruct (Nat.ltb_spec 3 (Z.to_nat P)); [|lia].
  match goal with
  | |- context [binomial (map sigmoid ?l) g4] =>
      pose proof (binomial_length (map sigmoid l) g4) as Hly;
      destruct (binomial (map sigmoid l) g4) as [b3 g5]
  end.
  cbn [fst] in Hly. rewrite !length_map, length_seq in Hly.
  cbn [print vlen vec_of_list nrows ncols matrix_of_list].
  rewrite length_map, Hly, !Z2Nat.id, !Z.eqb_refl by lia.
  cbn [andb ret].
  eexists _, _, _. split; [reflexivity|].
  cbn [data_X data_Y data_W data_pairwise_coefficient data_expected_quad_dims
       shape nrows ncols vlen vget vec_of_list matrix_of_list].
  split; [reflexivity|]. split; [now rewrite length_map|]. split.
  { intros i Hi.
    assert (Hall : Forall (fun v => v = 1 \/ v = -1) (map sign_of_bit b3)).
    { apply Forall_forall. intros v Hv. apply in_map_iff in Hv.
      destruct Hv as (c & <- & _). apply sign_of_bit_cases. }
    rewrite Forall_forall in Hall. apply Hall, nth_In.
    rewrite length_map. lia. }
  assert (Hlw : List.length (mul_lists (map (fun r => 1 + (3 # 2) * r) u)
                                       (map sign_of_bit b)) = Z.to_nat S).
  { rewrite mul_lists_length; rewrite !length_map; congruence. }
  split; [exact Hlw|]. split; [|split; reflexivity].
  intros Hu k Hk.
  pose proof (flipped_coefficient_range u (Hru Hu) b) as Hall.
  rewrite Forall_forall in Hall. apply Hall, nth_In. lia.
Qed.

Lemma lcg_uniform_range (g : Z) : 0 <= lcg_uniform g /\ lcg_uniform g < 1.
Proof.
  unfold lcg_uniform, Qle, Qlt. simpl.
  pose proof (Z.mod_pos_bound g 1000). lia.
Qed.

Lemma get_data_returns_witness :
  exists d ones minus_ones,
    @get_data sample_framework sample_random 5 2 4 0 empty_world
    = (Ok d, mkworld [PrintNumberOfOnes ones minus_ones] [] 0)
    /\ shape (data_X d) = (5%nat, 4%nat)
    /\ vlen (data_Y d) = 5%nat
    /\ vlen (data_W d) = 2%nat.
Proof.
  destruct (@get_data_returns sample_framework sample_random 5 2 4 0 empty_world)
    as (d & a & b & Hrun & HX & HY & _ & HW & _); try lia.
  exists d, a, b. repeat split; assumption.
Defined.

Lemma get_data_rejected_seed `{ArrayFramework} `{RandomState}
    (N S P seed : Z) (w : world) :
  (S < P /\ P > 1 /\ S > 0)%Z -> ~ (0 <= seed < 2 ^ 32)%Z ->
  get_data N S P seed w = (Raise ValueError, w).
Proof.
  intros (H1 & H2 & H3) Hseed. unfold get_data, bind, assert.
  replace ((S <? P)%Z && (1 <? P)%Z && (0 <? S)%Z) with true
    by (symmetry; rewrite !andb_true_iff, !Z.ltb_lt; lia).
  cbn [ret]. unfold lift at 1, np_random_seed.
  replace ((0 <=? seed)%Z && (seed <? 2 ^ 32)%Z) with false; [reflexivity|].
  symmetry. apply not_true_is_false. intro Ht.
  apply andb_true_iff in Ht. rewrite Z.leb_le, Z.ltb_lt in Ht. lia.
Qed.

Lemma get_data_negative_N `{ArrayFramework} `{RandomState}
    (N S P seed : Z) (w : world) :
  (S < P /\ P > 1 /\ S > 0)%Z -> (0 <= seed < 2 ^ 32)%Z -> (N < 0)%Z ->
  get_data N S P seed w = (Raise ValueError, w).
Proof.
  intros (H1 & H2 & H3) Hseed HN. unfold get_data, bind, assert.
  replace ((S <? P)%Z && (1 <? P)%Z && (0 <? S)%Z) with true
    by (symmetry; rewrite !andb_true_iff, !Z.ltb_lt; lia).
  cbn [ret]. unfold lift at 1, np_random_seed.
  replace ((0 <=? seed)%Z && (seed <? 2 ^ 32)%Z) with true
    by (symmetry; rewrite andb_true_iff, Z.leb_le, Z.ltb_lt; lia).
  destruct (rand (Z.to_nat S) (seeded seed)) as [u g1].
  destruct (binomial _ g1) as [b g2].
  unfold lift at 1.
  replace (N <? 0)%Z with true by (symmetry; apply Z.ltb_lt; lia).
  reflexivity.
Qed.

(** X15: [get_data] raises [AssertionError] exactly when its first
    statement does, that is, when [S < P and P > 1 and S > 0] fails;
    nothing has been drawn or printed then.  In particular the two
    assertions on the shapes at its end never fail. *)
Lemma get_data_assertion_exact `{ArrayFramework} `{RandomState}
    (N S P seed : Z) (w : world) :
  (fst (get_data N S P seed w) = Raise AssertionError
   <-> ~ (S < P /\ P > 1 /\ S > 0)%Z)
  /\ (~ (S < P /\ P > 1 /\ S > 0)%Z -> snd (get_data N S P seed w) = w).
Proof.
  split; [split|].
  - intros Hraise Hpre.
    destruct (Z_lt_le_dec seed 0) as [Hs|Hs];
      [rewrite get_data_rejected_seed in Hraise by (try assumption; lia);
       discriminate|].
    destruct (Z_lt_le_dec seed (2 ^ 32)) as [Hs'|Hs'];
      [|rewrite get_data_rejected_seed in Hraise by (try assumption; lia);
        discriminate].
    destruct (Z_lt_le_dec N 0) as [HN|HN];
      [rewrite get_data_negative_N in Hraise by (try assumption; lia);
       discriminate|].
    destruct (Z_lt_le_dec P 4) as [HP|HP];
      [rewrite get_data_few_columns in Hraise by (try assumption; lia);
       discriminate|].
    destruct (get_data_returns N S P seed w) as (d & a & b & Hrun & _); try lia.
    rewrite Hrun in Hraise. discriminate.
  - intro Hpre. now rewrite get_data_assertion.
  - intro Hpre. now rewrite get_data_assertion.
Qed.

(** C10: the failing input.  The arguments [N=20, S=1, P=2, seed=0]
    satisfy [S < P and P > 1 and S > 0]; [get_data] does not return but
    raises [IndexError], whatever the random draws are. *)
Theorem get_data_guard_admits_two_columns `{ArrayFramework} `{RandomState} (w : world) :
  (1 < 2 /\ 2 > 1 /\ 1 > 0)%Z
  /\ get_data 20 1 2 0 w = (Raise IndexError, w).
Proof.
  split; [lia|]. apply get_data_few_columns; lia.
Qed.

(** C4: the failing input.  For [N=1, P=3, S=2, seed=0], which satisfies
    [N >= 1], [P > 1] and [0 < S < P], [get_data] returns no data set: the
    access [X[:, 3]] raises [IndexError]. *)
Theorem get_data_three_columns_no_dataset `{ArrayFramework} `{RandomState} (w : world) :
  (1 >= 1 /\ 3 > 1 /\ 0 < 2 < 3)%Z
  /\ get_data 1 2 3 0 w = (Raise IndexError, w).
Proof.
  split; [lia|]. apply get_data_few_columns; lia.
Qed.
(** * Further properties of the script *)

(** ** The data set in detail *)

Lemma list_of_vec_of_list (l : list Q) : list_of_vec (vec_of_list l) = l.
Proof.
  unfold list_of_vec, vec_of_list. cbn [vlen vget].
  induction l as [|x l IH]; [reflexivity|].
  cbn [List.length seq map nth]. f_equal.
  rewrite <- seq_shift, map_map. exact IH.
Qed.

Lemma count_signs (l : list Q) :
  Forall (fun v => v = 1 \/ v = -1) l ->
  (count_eq 1 l + count_eq (-1) l = List.length l)%nat.
Proof.
  unfold count_eq. induction 1 as [|v l [-> | ->] _ IH]; simpl in *; lia.
Qed.

(** A covariate [(u + 0.5) * flip] with [u] in [0, 1) and [flip] a sign has
    magnitude in [0.5, 1.5). *)
Lemma flipped_covariate_range (xs : list Q) :
  Forall (fun x => 0 <= x /\ x < 1) xs ->
  forall bs,
    Forall (fun v => 1 # 2 <= Qabs v /\ Qabs v < 3 # 2)
           (mul_lists (map (fun r => r + (1 # 2)) xs) (map sign_of_bit bs)).
Proof.
  induction 1 as [|x xs [Hx0 Hx1] _ IH]; intros [|b bs]; simpl; try constructor.
  - assert (Hpos : 0 <= x + (1 # 2)) by lra.
    destruct b.
    + setoid_replace ((x + (1 # 2)) * sign_of_bit true)
        with (x + (1 # 2)) by (unfold sign_of_bit; ring).
      rewrite (Qabs_pos _ Hpos). lra.
    + setoid_replace ((x + (1 # 2)) * sign_of_bit false)
        with (- (x + (1 # 2))) by (unfold sign_of_bit; ring).
      rewrite Qabs_opp, (Qabs_pos _ Hpos). lra.
  - apply IH.
Qed.

(** The value [get_data] returns on its domain, in terms of the draws it
    makes: [u], [b] for the coefficients, [u2], [b2] for the covariates and
    [b3] for the responses. *)
Lemma get_data_structure `{ArrayFramework} `{RandomState}
    (N S P seed : Z) (w : world) :
  (0 <= N)%Z -> (4 <= P)%Z -> (0 < S < P)%Z -> (0 <= seed < 2 ^ 32)%Z ->
  exists u b u2 b2 b3,
    List.length u = Z.to_nat S /\ List.length b = Z.to_nat S
    /\ List.length u2 = (Z.to_nat N * Z.to_nat P)%nat
    /\ List.length b2 = (Z.to_nat N * Z.to_nat P)%nat
    /\ List.length b3 = Z.to_nat N
    /\ ((forall g, 0 <= fst (random_sample g) /\ fst (random_sample g) < 1) ->
        Forall (fun x => 0 <= x /\ x < 1) u /\ Forall (fun x => 0 <= x /\ x < 1) u2)
    /\ let X := matrix_of_list (Z.to_nat N) (Z.to_nat P)
                  (mul_lists (map (fun r => r + (1 # 2)) u2) (map sign_of_bit b2)) in
       let Y := vec_of_list (map sign_of_bit b3) in
       let W := vec_of_list (mul_lists (map (fun r => 1 + (3 # 2) * r) u)
                                       (map sign_of_bit b)) in
       get_data N S P seed w
       = (Ok (mkdata X Y W 3 [(0%nat, 1%nat); (2%nat, 3%nat)]),
          mkworld (stdout w ++ [PrintNumberOfOnes (count_eq 1 (list_of_vec Y))
                                                  (count_eq (-1) (list_of_vec Y))])
                  (files w) (clock w)).
Proof.
  intros HN HP HS Hseed. unfold get_data, bind, assert.
  replace ((S <? P)%Z && (1 <? P)%Z && (0 <? S)%Z) with true
    by (symmetry; rewrite !andb_true_iff, !Z.ltb_lt; lia).
  cbn [ret]. unfold lift at 1, np_random_seed.
  replace ((0 <=? seed)%Z && (seed <? 2 ^ 32)%Z) with true
    by (symmetry; rewrite andb_true_iff, Z.leb_le, Z.ltb_lt; lia).
  pose proof (rand_length (Z.to_nat S) (seeded seed)) as Hlu.
  pose proof (fun Hu => rand_range (Z.to_nat S) Hu (seeded seed)) as Hru.
  destruct (rand (Z.to_nat S) (seeded seed)) as [u g1]. cbn [fst] in Hlu, Hru.
  pose proof (binomial_length
                (repeat (1 # 2) (List.length (map (fun r => 1 + (3 # 2) * r) u))) g1)
    as Hlb.
  destruct (binomial _ g1) as [b g2]. cbn [fst] in Hlb.
  rewrite repeat_length, length_map in Hlb.
  unfold lift at 1.
  replace (N <? 0)%Z with false by (symmetry; apply Z.ltb_ge; lia).
  pose proof (rand_length (Z.to_nat N * Z.to_nat P) g2) as Hlu2.
  pose proof (fun Hu => rand_range (Z.to_nat N * Z.to_nat P) Hu g2) as Hru2.
  destruct (rand (Z.to_nat N * Z.to_nat P) g2) as [u2 g3]. cbn [fst] in Hlu2, Hru2.
  pose proof (binomial_length
                (repeat (1 # 2) (List.length (map (fun r => r + (1 # 2)) u2))) g3)
    as Hlb2.
  destruct (binomial _ g3) as [b2 g4]. cbn [fst] in Hlb2.
  rewrite repeat_length, length_map in Hlb2.
  unfold lift, column. cbn [ncols nrows matrix_of_list].
  destruct (Nat.ltb_spec 0 (Z.to_nat P)); [|lia].
  destruct (Nat.ltb_spec 1 (Z.to_nat P)); [|lia].
  destruct (Nat.ltb_spec 2 (Z.to_nat P)); [|lia].
  destruct (Nat.ltb_spec 3 (Z.to_nat P)); [|lia].
  match goal with
  | |- context [binomial (map sigmoid ?l) g4] =>
      pose proof (binomial_length (map sigmoid l) g4) as Hly;
      destruct (binomial (map sigmoid l) g4) as [b3 g5]
  end.
  cbn [fst] in Hly. rewrite !length_map, length_seq in Hly.
  cbn [print vlen vec_of_list nrows ncols matrix_of_list].
  rewrite length_map, Hly, !Z2Nat.id, !Z.eqb_refl by lia.
  cbn [andb ret].
  exists u, b, u2, b2, b3.
  split; [exact Hlu|]. split; [congruence|]. split; [exact Hlu2|].
  split; [congruence|]. split; [exact Hly|]. split; [auto|]. reflexivity.
Qed.

(** X1: on its domain (at least four columns, [0 < S < P], a seed that
    [onp.random.seed] accepts, [N >= 0]) [get_data] returns and prints one
    line; the two printed numbers are the numbers of [+1] and [-1] among
    the responses and add up to [N]; and when the uniform draws lie in
    [0, 1), every covariate has magnitude in [0.5, 1.5]. *)
Theorem get_data_dataset `{ArrayFramework} `{RandomState}
    (N S P seed : Z) (w : world) :
  (forall g, 0 <= fst (random_sample g) /\ fst (random_sample g) < 1) ->
  (0 <= N)%Z -> (4 <= P)%Z -> (0 < S < P)%Z -> (0 <= seed < 2 ^ 32)%Z ->
  exists d,
    get_data N S P seed w
    = (Ok d,
       mkworld (stdout w ++ [PrintNumberOfOnes
                               (count_eq 1 (list_of_vec (data_Y d)))
                               (count_eq (-1) (list_of_vec (data_Y d)))])
               (files w) (clock w))
    /\ (count_eq 1 (list_of_vec (data_Y d)) + count_eq (-1) (list_of_vec (data_Y d))
        = Z.to_nat N)%nat
    /\ forall i k, (i < Z.to_nat N)%nat -> (k < Z.to_nat P)%nat ->
         1 # 2 <= Qabs (mget (data_X d) i k) /\ Qabs (mget (data_X d) i k) <= 3 # 2.
Proof.
  intros Hu HN HP HS Hseed.
  destruct (get_data_structure N S P seed w HN HP HS Hseed)
    as (u & b & u2 & b2 & b3 & Hlu & Hlb & Hlu2 & Hlb2 & Hlb3 & Hrange & Hrun).
  cbn zeta in Hrun. eexists. split; [exact Hrun|].
  cbn [data_X data_Y]. split.
  - rewrite list_of_vec_of_list, count_signs, length_map; [exact Hlb3|].
    apply Forall_forall. intros v Hv. apply in_map_iff in Hv.
    destruct Hv as (c & <- & _). apply sign_of_bit_cases.
  - intros i k Hi Hk.
    cut (1 # 2 <= Qabs (mget (matrix_of_list (Z.to_nat N) (Z.to_nat P)
                                (mul_lists (map (fun x => x + (1 # 2)) u2)
                                           (map sign_of_bit b2))) i k)
         /\ Qabs (mget (matrix_of_list (Z.to_nat N) (Z.to_nat P)
                                (mul_lists (map (fun x => x + (1 # 2)) u2)
                                           (map sign_of_bit b2))) i k) < 3 # 2).
    { intros [Hlo Hhi]. split; [exact Hlo | apply Qlt_le_weak; exact Hhi]. }
    cbn [mget matrix_of_list].
    destruct (Hrange Hu) as [_ Hr2].
    pose proof (flipped_covariate_range u2 Hr2 b2) as Hall.
    rewrite Forall_forall in Hall. apply Hall, nth_In.
    rewrite mul_lists_length; rewrite !length_map; [|congruence].
    rewrite Hlu2. nia.
Qed.

Lemma get_data_dataset_witness :
  exists d,
    fst (@get_data sample_framework sample_random 5 2 4 7 empty_world) = Ok d
    /\ (count_eq 1 (list_of_vec (data_Y d)) + count_eq (-1) (list_of_vec (data_Y d))
        = 5)%nat
    /\ 1 # 2 <= Qabs (mget (data_X d) 4 3).
Proof.
  destruct (@get_data_dataset sample_framework sample_random 5 2 4 7 empty_world)
    as (d & Hrun & Hcount & HX); try lia.
  - intro g. apply lcg_uniform_range.
  - exists d. rewrite Hrun. split; [reflexivity|]. split; [exact Hcount|].
    apply (HX 4%nat 3%nat); simpl; lia.
Defined.
(** ** More on the kernel *)

Lemma rowdot_sym (X Z : matrix) (i j : nat) :
  ncols X = ncols Z -> rowdot X Z i j == rowdot Z X j i.
Proof.
  intro Hc. unfold rowdot. rewrite Hc. apply sum_upto_ext. intros. ring.
Qed.

Lemma quadratic_kernel_entry_sym (X Z : matrix) (eta1 eta2 c : Q) (i j : nat) :
  ncols X = ncols Z ->
  quadratic_kernel_entry X Z eta1 eta2 c i j
  == quadratic_kernel_entry Z X eta1 eta2 c j i.
Proof.
  intro Hc. unfold quadratic_kernel_entry.
  rewrite (rowdot_sym X Z i j Hc).
  assert (E : sum_upto (ncols X)
                (fun k => square (mget X i k) * square (mget Z j k))
              == sum_upto (ncols Z)
                   (fun k => square (mget Z j k) * square (mget X i k))).
  { rewrite Hc. apply sum_upto_ext. intros. ring. }
  rewrite E. reflexivity.
Qed.

(** X2: [kernel] is symmetric in its two matrix arguments: with equal
    column counts, [kernel(X, Z)] and [kernel(Z, X)] both return and are
    transposes of each other; in particular the Gram matrix [kernel(X, X)]
    is a symmetric matrix. *)
Theorem kernel_symmetric (X Z : matrix) (eta1 eta2 c jitter : Q) :
  ncols X = ncols Z ->
  exists K K',
    kernel X Z eta1 eta2 c jitter = Ok K
    /\ kernel Z X eta1 eta2 c jitter = Ok K'
    /\ shape K = (nrows X, nrows Z) /\ shape K' = (nrows Z, nrows X)
    /\ forall i j, (i < nrows X)%nat -> (j < nrows Z)%nat ->
         mget K i j == mget K' j i.
Proof.
  intro Hc.
  destruct (kernel_value X Z eta1 eta2 c jitter Hc) as (K & HK & Hr & Hcl & Hent).
  destruct (kernel_value Z X eta1 eta2 c jitter (eq_sym Hc))
    as (K' & HK' & Hr' & Hcl' & Hent').
  exists K, K'. split; [exact HK|]. split; [exact HK'|].
  split; [unfold shape; congruence|]. split; [unfold shape; congruence|].
  intros i j Hi Hj. rewrite (Hent i j Hi Hj), (Hent' j i Hj Hi).
  rewrite (quadratic_kernel_entry_sym X Z eta1 eta2 c i j Hc).
  assert (Es : shape_eqb Z X = shape_eqb X Z).
  { unfold shape_eqb. now rewrite (Nat.eqb_sym (nrows Z)), (Nat.eqb_sym (ncols Z)). }
  rewrite Es, (Nat.eqb_sym j i). reflexivity.
Qed.

Lemma kernel_symmetric_witness :
  exists K K',
    kernel sample_X sample_Z 1 2 3 default_jitter = Ok K
    /\ kernel sample_Z sample_X 1 2 3 default_jitter = Ok K'
    /\ mget K 1 2 == mget K' 2 1.
Proof.
  destruct (kernel_symmetric sample_X sample_Z 1 2 3 default_jitter eq_refl)
    as (K & K' & HK & HK' & _ & _ & Hsym).
  exists K, K'. split; [exact HK|]. split; [exact HK'|].
  apply Hsym; simpl; lia.
Defined.

(** X3: [kernel] raises [TypeError] exactly when its two arguments have
    different numbers of columns (the inner products are undefined);
    otherwise it returns a matrix with one row per row of [X] and one
    column per row of [Z]. *)
Theorem kernel_defined_iff_columns_agree (X Z : matrix) (eta1 eta2 c jitter : Q) :
  (ncols X <> ncols Z <-> kernel X Z eta1 eta2 c jitter = Raise TypeError)
  /\ (ncols X = ncols Z <->
      exists K, kernel X Z eta1 eta2 c jitter = Ok K
                /\ shape K = (nrows X, nrows Z)).
Proof.
  assert (Hbad : ncols X <> ncols Z -> kernel X Z eta1 eta2 c jitter = Raise TypeError).
  { intro Hne. unfold kernel, dot. apply Nat.eqb_neq in Hne. now rewrite Hne. }
  assert (Hgood : ncols X = ncols Z ->
                  exists K, kernel X Z eta1 eta2 c jitter = Ok K
                            /\ shape K = (nrows X, nrows Z)).
  { intro Hc. destruct (kernel_value X Z eta1 eta2 c jitter Hc)
      as (K & HK & Hr & Hcl & _).
    exists K. split; [exact HK|]. unfold shape. congruence. }
  split; split.
  - exact Hbad.
  - intros Hraise Hc. destruct (Hgood Hc) as (K & HK & _). congruence.
  - exact Hgood.
  - intros (K & HK & _). destruct (Nat.eq_dec (ncols X) (ncols Z)) as [E|Hne];
      [exact E|]. rewrite (Hbad Hne) in HK. discriminate.
Qed.

(** ** Thinning and inference *)

(** Element [i] of [every_nth k skip l] is element [skip + i * k] of [l]. *)
Lemma every_nth_nth_error {A : Type} (k : nat) (l : list A) :
  (0 < k)%nat ->
  forall skip i, nth_error (every_nth k skip l) i = nth_error l (skip + i * k).
Proof.
  intro Hk. induction l as [|x t IH]; intros skip i.
  - assert (Hnil : forall n, nth_error (@nil A) n = None) by (intros []; reflexivity).
    cbn [every_nth]. now rewrite !Hnil.
  - destruct skip as [|s]; cbn [every_nth].
    + destruct i as [|i']; [reflexivity|].
      cbn [nth_error]. rewrite IH.
      replace (0 + S i' * k)%nat with (S (k - 1 + i' * k)) by lia.
      reflexivity.
    + rewrite IH. reflexivity.
Qed.

Lemma every_nth_one {A : Type} (l : list A) : every_nth 1 0 l = l.
Proof. induction l as [|x t IH]; simpl; [reflexivity | now rewrite IH]. Qed.

Lemma every_nth_length_le {A : Type} (k : nat) (l : list A) :
  forall skip, (List.length (every_nth k skip l) <= List.length l)%nat.
Proof.
  induction l as [|x t IH]; intro skip; simpl; [lia|].
  destruct skip; simpl; [specialize (IH (k - 1)%nat) | specialize (IH skip)]; lia.
Qed.

(** X5: the slice [l[::k]] of the thinning step.  For [k > 0] its element
    [i] is element [i * k] of [l], so the first element is kept, the order
    is kept and nothing is added; [k = 1] gives [l] back; a negative [k]
    does the same on the reversed list; [k = 0] raises [ValueError]. *)
Theorem slice_step_semantics {A : Type} (l : list A) (k : Z) :
  ((0 < k)%Z ->
   exists s, slice_step l k = Ok s
             /\ (forall i, nth_error s i = nth_error l (i * Z.to_nat k))
             /\ (List.length s <= List.length l)%nat)
  /\ (k = 1%Z -> slice_step l k = Ok l)
  /\ ((k < 0)%Z ->
      exists s, slice_step l k = Ok s
                /\ forall i, nth_error s i = nth_error (rev l) (i * Z.to_nat (- k)))
  /\ (k = 0%Z -> slice_step l k = Raise ValueError).
Proof.
  unfold slice_step. split; [|split; [|split]].
  - intro Hk. destruct (Z.eqb_spec k 0); [lia|].
    destruct (Z.ltb_spec 0 k); [|lia].
    eexists. split; [reflexivity|]. split.
    + intro i. rewrite every_nth_nth_error by lia. reflexivity.
    + apply every_nth_length_le.
  - intros ->. simpl. now rewrite every_nth_one.
  - intro Hk. destruct (Z.eqb_spec k 0); [lia|].
    destruct (Z.ltb_spec 0 k); [lia|].
    eexists. split; [reflexivity|].
    intro i. rewrite every_nth_nth_error by lia. reflexivity.
  - intros ->. reflexivity.
Qed.

Lemma slice_step_semantics_witness :
  exists s, slice_step [10; 11; 12; 13; 14; 15; 16]%Z 3 = Ok s
            /\ nth_error s 2 = Some 16%Z /\ nth_error s 3 = None.
Proof.
  destruct (slice_step_semantics [10; 11; 12; 13; 14; 15; 16]%Z 3)
    as [Hpos _].
  destruct (Hpos eq_refl) as (s & Hs & Hnth & _).
  exists s. split; [exact Hs|]. rewrite !Hnth. split; reflexivity.
Defined.

(** X6: what [run_inference] does around a run of the sampler that
    returns [draws].  It prints two lines, the summary of all the draws
    (thinning comes after) and then the elapsed time, and writes no file.
    With a non-zero [--thinning] it returns the slice of the draws, which
    is not empty when the draws are not; with [--thinning 0] it raises
    [ValueError], after the sampler has run and both lines are printed. *)
Theorem run_inference_effects `{Sampler}
    (a : args) (rng_key : Z) (X : matrix) (Y : vector) (hypers : hyperparameters)
    (w : world) (draws : samples) (dt : Q) :
  mcmc_run (mtd a) (num_warmup a) (num_samples a) (num_chains a)
           (if existsb (String.eqb "NUMPYRO_SPHINXBUILD") os_environ
            then false else true)
           rng_key X Y hypers = Ok (draws, dt) ->
  exists elapsed w',
    stdout w' = stdout w ++ [PrintSummary draws; PrintElapsed elapsed]
    /\ files w' = files w
    /\ (thinning a <> 0%Z ->
        exists s, run_inference a rng_key X Y hypers w = (Ok s, w')
                  /\ slice_step draws (thinning a) = Ok s
                  /\ (draws <> [] -> s <> []))
    /\ (thinning a = 0%Z ->
        run_inference a rng_key X Y hypers w = (Raise ValueError, w')).
Proof.
  intro Hrun. exists (clock w + dt - clock w).
  exists (mkworld (stdout w ++ [PrintSummary draws;
                                PrintElapsed (clock w + dt - clock w)])
                  (files w) (clock w + dt)).
  split; [reflexivity|]. split; [reflexivity|].
  unfold run_inference, bind, lift, time_time, sleep, print, ret.
  rewrite Hrun. cbn [fst snd stdout files clock].
  rewrite <- app_assoc. cbn [app].
  split.
  - intro Hk. unfold slice_step.
    destruct (Z.eqb_spec (thinning a) 0); [contradiction|].
    destruct (Z.ltb_spec 0 (thinning a)).
    + eexists. split; [reflexivity|]. split; [reflexivity|].
      intro Hne. destruct draws as [|d ds]; [congruence|]. discriminate.
    + eexists. split; [reflexivity|]. split; [reflexivity|].
      intro Hne. destruct (rev draws) as [|d ds] eqn:Er; [|discriminate].
      apply (f_equal (@rev _)) in Er. rewrite rev_involutive in Er. now subst.
  - intros ->. reflexivity.
Qed.

Lemma run_inference_effects_witness :
  exists s elapsed w',
    @run_inference sample_sampler (mkargs 3 2 1 6 0 4 0 2 2 "cpu") 0
      sample_X (ones 2) (mkhypers 2 2 1 2 2 1 1) empty_world
    = (Ok s, w')
    /\ stdout w' = [PrintSummary (repeat (sample_draw 2 2) 3); PrintElapsed elapsed]
    /\ files w' = []
    /\ List.length s = 2%nat.
Proof.
  destruct (@run_inference_effects sample_sampler (mkargs 3 2 1 6 0 4 0 2 2 "cpu") 0
              sample_X (ones 2) (mkhypers 2 2 1 2 2 1 1) empty_world
              (repeat (sample_draw 2 2) 3) 1 eq_refl)
    as (elapsed & w' & Hout & Hfiles & Hok & _).
  destruct (Hok ltac:(discriminate)) as (s & Hs & Hslice & _).
  exists s, elapsed, w'. split; [exact Hs|]. split; [exact Hout|].
  split; [exact Hfiles|]. injection Hslice as <-. reflexivity.
Defined.
(** ** The posterior marginals never fail on well-shaped input *)

Lemma kernel_shape (X Z : matrix) (eta1 eta2 c jitter : Q) :
  ncols X = ncols Z ->
  exists K, kernel X Z eta1 eta2 c jitter = Ok K
            /\ nrows K = nrows X /\ ncols K = nrows Z.
Proof.
  intro Hc. destruct (kernel_value X Z eta1 eta2 c jitter Hc) as (K & HK & Hr & Hcl & _).
  now exists K.
Qed.

Lemma msub_same_shape (A B : matrix) :
  nrows A = nrows B -> ncols A = ncols B ->
  exists D, msub A B = Ok D /\ nrows D = nrows A /\ ncols D = ncols A.
Proof.
  intros Hr Hc. unfold msub. rewrite <- Hr, <- Hc, !broadcast_dim_same.
  eexists. split; [reflexivity|]. split; reflexivity.
Qed.

(** The shapes [compute_coefficient_mean_variance] expects: [probe] and
    [X] have as many columns as [kappa] has entries, [Y] and [omega] have
    one entry per row of [X], and [vec] has one entry per row of [probe]. *)
Lemma compute_coefficient_mean_variance_returns `{ArrayFramework}
    (X : matrix) (Y : vector) (probe : matrix) (vec : vector)
    (eta1 eta2 c : Q) (kappa omega : vector) :
  (forall L b, vlen (cho_solve L b) = vlen b) ->
  (forall L B, shape (solve_triangular L B) = shape B) ->
  ncols probe = ncols X -> vlen kappa = ncols X ->
  vlen Y = nrows X -> vlen omega = nrows X -> vlen vec = nrows probe ->
  exists mu var,
    compute_coefficient_mean_variance X Y probe vec eta1 eta2 c kappa omega
    = Ok (mu, var).
Proof.
  intros Hsolve Htri Hp Hk HY Hw Hv. unfold compute_coefficient_mean_variance.
  rewrite (vmulm_columns kappa probe) by congruence. cbn [rbind].
  rewrite (vmulm_columns kappa X) by congruence. cbn [rbind].
  set (kprobe := mkmat (nrows probe) _ _). set (kX := mkmat (nrows X) _ _).
  destruct (kernel_shape kX kX eta1 eta2 c default_jitter eq_refl)
    as (kxx & -> & Hxr & Hxc). cbn [rbind].
  destruct (kernel_shape kprobe kX eta1 eta2 c default_jitter Hp)
    as (kpx & -> & Hpr & Hpc). cbn [rbind].
  destruct (kernel_shape kprobe kprobe eta1 eta2 c default_jitter eq_refl)
    as (kpp & -> & Hppr & Hppc). cbn [rbind].
  cbn [nrows ncols kprobe kX] in Hxr, Hxc, Hpr, Hpc, Hppr, Hppc.
  unfold mmulv. cbn [ncols nrows eye vlen vmap1]. rewrite Hw, broadcast_dim_same.
  cbn [rbind].
  rewrite madd_same_shape by (cbn [nrows ncols]; congruence). cbn [rbind].
  set (L := cho_factor _).
  unfold vdiv. rewrite HY, Hw, broadcast_dim_same. cbn [rbind].
  set (Yw := mkvec (nrows X) _).
  unfold dot_mv. cbn [vlen vmap1]. rewrite (Hsolve L Yw). cbn [vlen Yw].
  rewrite Hpc, Nat.eqb_refl. cbn [rbind].
  unfold dot_vv. cbn [vlen]. rewrite Hv, Hpr, Nat.eqb_refl. cbn [rbind].
  pose proof (Htri L (transpose kpx)) as Hshape.
  unfold shape in Hshape. cbn [transpose nrows ncols] in Hshape.
  injection Hshape as Hlr Hlc.
  unfold matmul. cbn [transpose nrows ncols]. rewrite Nat.eqb_refl. cbn [rbind].
  destruct (msub_same_shape kpp
              (mkmat (ncols (solve_triangular L (transpose kpx)))
                     (ncols (solve_triangular L (transpose kpx)))
                     (fun i j =>
                        sum_upto (nrows (solve_triangular L (transpose kpx)))
                          (fun k => mget (transpose (solve_triangular L (transpose kpx))) i k
                                    * mget (solve_triangular L (transpose kpx)) k j))))
    as (var & Hvar & Hvr & Hvc); [cbn [nrows]; congruence | cbn [ncols]; congruence |].
  cbn [transpose mget] in Hvar |- *. rewrite Hvar. cbn [rbind].
  unfold matmul_mv. rewrite Hvc, Hppc, Hv, Nat.eqb_refl. cbn [rbind vlen].
  rewrite Hvr, Hppr, Nat.eqb_refl. cbn [rbind].
  eexists _, _. reflexivity.
Qed.
Lemma vmap_all_ok {A B : Type} (f : A -> result B) (l : list A) :
  (forall x, In x l -> exists y, f x = Ok y) ->
  exists ys, vmap f l = Ok ys /\ List.length ys = List.length l.
Proof.
  induction l as [|x l IH]; intro Hf.
  - exists []. split; reflexivity.
  - destruct (Hf x (or_introl eq_refl)) as [y Hy].
    destruct IH as (ys & Hys & Hlen); [intros; apply Hf; now right|].
    exists (y :: ys). cbn [vmap]. rewrite Hy. cbn [rbind]. rewrite Hys.
    split; [reflexivity | simpl; now rewrite Hlen].
Qed.

(** X7: the posterior summaries are defined on well-shaped input.  When
    [Y] has one entry per row of [X], every draw has one [kappa] per column
    and one [omega] per row of [X], and the linear solvers return arrays
    of the shape of their right-hand side, [analyze_dimension] and
    [analyze_pair_of_dimensions] return for every dimension and every pair
    of dimensions (no shape error can occur); the mean they return is the
    mean of the per-draw means and the deviation is the square root of the
    mixture variance. *)
Theorem posterior_summaries_return `{ArrayFramework}
    (s : samples) (X : matrix) (Y : vector) (hypers : hyperparameters)
    (dimension dim1 dim2 : nat) :
  (forall L b, vlen (cho_solve L b) = vlen b) ->
  (forall L B, shape (solve_triangular L B) = shape B) ->
  vlen Y = nrows X ->
  Forall (fun d => vlen (draw_kappa d) = ncols X /\ vlen (draw_omega d) = nrows X) s ->
  (exists mv,
      vmap (fun d => compute_singleton_mean_variance X Y dimension
                       (draw_eta1 d) (draw_eta2 d) (hyper_c hypers)
                       (draw_kappa d) (draw_omega d)) s = Ok mv
      /\ List.length mv = List.length s
      /\ analyze_dimension s X Y dimension hypers
         = Ok (mean (map fst mv),
               np_sqrt (snd (gaussian_mixture_stats (map fst mv) (map snd mv)))))
  /\ (exists mv,
        vmap (fun d => compute_pairwise_mean_variance X Y dim1 dim2
                         (draw_eta1 d) (draw_eta2 d) (hyper_c hypers)
                         (draw_kappa d) (draw_omega d)) s = Ok mv
        /\ List.length mv = List.length s
        /\ analyze_pair_of_dimensions s X Y dim1 dim2 hypers
           = Ok (mean (map fst mv),
                 np_sqrt (snd (gaussian_mixture_stats (map fst mv) (map snd mv))))).
Proof.
  intros Hsolve Htri HY Hs. rewrite Forall_forall in Hs. split.
  - destruct (vmap_all_ok
                (fun d => compute_singleton_mean_variance X Y dimension
                            (draw_eta1 d) (draw_eta2 d) (hyper_c hypers)
                            (draw_kappa d) (draw_omega d)) s)
      as (mv & Hmv & Hlen).
    { intros d Hd. destruct (Hs d Hd) as [Hk Hw].
      pose proof (singleton_probe_shape (ncols X) dimension) as Hshape.
      injection Hshape as Hr Hc.
      destruct (compute_coefficient_mean_variance_returns X Y
                  (singleton_probe (ncols X) dimension) singleton_vec
                  (draw_eta1 d) (draw_eta2 d) (hyper_c hypers)
                  (draw_kappa d) (draw_omega d))
        as (mu & var & Hrun); auto.
      exists (mu, var). exact Hrun. }
    exists mv. split; [exact Hmv|]. split; [exact Hlen|].
    unfold analyze_dimension. rewrite Hmv. reflexivity.
  - destruct (vmap_all_ok
                (fun d => compute_pairwise_mean_variance X Y dim1 dim2
                            (draw_eta1 d) (draw_eta2 d) (hyper_c hypers)
                            (draw_kappa d) (draw_omega d)) s)
      as (mv & Hmv & Hlen).
    { intros d Hd. destruct (Hs d Hd) as [Hk Hw].
      pose proof (pairwise_probe_shape (ncols X) dim1 dim2) as Hshape.
      injection Hshape as Hr Hc.
      destruct (compute_coefficient_mean_variance_returns X Y
                  (pairwise_probe (ncols X) dim1 dim2) pairwise_vec
                  (draw_eta1 d) (draw_eta2 d) (hyper_c hypers)
                  (draw_kappa d) (draw_omega d))
        as (mu & var & Hrun); auto.
      exists (mu, var). exact Hrun. }
    exists mv. split; [exact Hmv|]. split; [exact Hlen|].
    unfold analyze_pair_of_dimensions. rewrite Hmv. reflexivity.
Qed.

Lemma posterior_summaries_return_witness :
  (exists mean std,
      @analyze_dimension sample_framework [sample_draw 2 2; sample_draw 2 2]
        sample_X (ones 2) 1 (mkhypers 1 2 1 2 2 1 1) = Ok (mean, std))
  /\ (exists mean std,
        @analyze_pair_of_dimensions sample_framework [sample_draw 2 2; sample_draw 2 2]
          sample_X (ones 2) 0 1 (mkhypers 1 2 1 2 2 1 1) = Ok (mean, std)).
Proof.
  destruct (@posterior_summaries_return sample_framework
              [sample_draw 2 2; sample_draw 2 2] sample_X (ones 2)
              (mkhypers 1 2 1 2 2 1 1) 1 0 1) as [H1 H2].
  - reflexivity.
  - reflexivity.
  - reflexivity.
  - repeat constructor.
  - destruct H1 as (mv & _ & _ & Hrun). destruct H2 as (mv' & _ & _ & Hrun').
    split; eexists _, _; eassumption.
Defined.
(** ** The reported counts *)

Section SetCountFacts.

Context {A : Type} (eq_dec : forall x y : A, {x = y} + {x <> y}).

Lemma mem_true_iff (x : A) (l : list A) : mem eq_dec x l = true <-> In x l.
Proof. unfold mem. destruct (in_dec eq_dec x l); split; auto; discriminate. Qed.

Lemma filter_split_length (f : A -> bool) (l : list A) :
  (List.length (filter f l) + List.length (filter (fun x => negb (f x)) l)
   = List.length l)%nat.
Proof.
  induction l as [|x l IH]; simpl; [reflexivity|].
  destruct (f x); simpl; lia.
Qed.

Lemma len_inter_plus_diff (a b : list A) :
  (len_inter eq_dec a b + len_diff eq_dec a b = List.length (nodup eq_dec a))%nat.
Proof. unfold len_inter, len_diff. apply filter_split_length. Qed.

Lemma len_inter_sym (a b : list A) : len_inter eq_dec a b = len_inter eq_dec b a.
Proof.
  unfold len_inter. apply Permutation_length, NoDup_Permutation.
  - apply NoDup_filter, NoDup_nodup.
  - apply NoDup_filter, NoDup_nodup.
  - intro x. rewrite !filter_In, !nodup_In, !mem_true_iff. tauto.
Qed.

Lemma len_diff_zero (a b : list A) :
  len_diff eq_dec a b = 0%nat <-> incl a b.
Proof.
  unfold len_diff. rewrite length_zero_iff_nil. split.
  - intros Hnil x Hx. destruct (in_dec eq_dec x b) as [Hin|Hout]; [exact Hin|].
    assert (Hf : In x (filter (fun y => negb (mem eq_dec y b)) (nodup eq_dec a))).
    { apply filter_In. rewrite nodup_In. split; [exact Hx|].
      destruct (mem eq_dec x b) eqn:E; [|reflexivity].
      apply mem_true_iff in E. contradiction. }
    rewrite Hnil in Hf. destruct Hf.
  - intro Hincl. destruct (filter _ _) as [|x l] eqn:E; [reflexivity|].
    assert (Hx : In x (filter (fun y => negb (mem eq_dec y b)) (nodup eq_dec a)))
      by (rewrite E; now left).
    apply filter_In in Hx. destruct Hx as [Hx Hneg]. apply nodup_In in Hx.
    apply Hincl, mem_true_iff in Hx. rewrite Hx in Hneg. discriminate.
Qed.

End SetCountFacts.

(** The interactions found by the pairwise stage are distinct pairs of
    distinct active dimensions. *)
Lemma pairwise_stage_pairs `{ArrayFramework}
    (s : samples) (X : matrix) (Y : vector) (hypers : hyperparameters)
    (active_dims : list nat) (w w' : world) (quads : list (nat * nat)) :
  NoDup active_dims ->
  pairwise_stage s X Y hypers active_dims w = (Ok quads, w') ->
  NoDup quads
  /\ forall d1 d2, In (d1, d2) quads ->
       In d1 active_dims /\ In d2 active_dims /\ (d1 < d2)%nat.
Proof.
  intros Hnd Hrun. unfold pairwise_stage in Hrun.
  destruct (Nat.ltb 0 (List.length active_dims)).
  2:{ injection Hrun as <- _. split; [constructor | intros ? ? []]. }
  unfold bind, lift in Hrun.
  destruct (vmap _ (list_prod active_dims active_dims)) as [pstats|e] eqn:Ev;
    [|discriminate].
  pose proof (vmap_length _ _ _ Ev) as Hlen.
  destruct (classify_pairs_from (combine (list_prod active_dims active_dims) pstats) [] w)
    as (lines & Hcl & _).
  cbn zeta in Hcl. rewrite Hcl in Hrun. injection Hrun as <- _. cbn [app].
  set (considered := filter _ (combine _ pstats)).
  assert (Hfst : map fst considered
                 = filter (fun p => Nat.ltb (fst p) (snd p))
                          (list_prod active_dims active_dims)).
  { exact (map_fst_filter_combine (fun p => Nat.ltb (fst p) (snd p)) _ pstats Hlen). }
  assert (Hndc : NoDup (map fst considered)).
  { rewrite Hfst. apply NoDup_filter. now apply NoDup_list_prod. }
  split.
  - clear -Hndc. induction considered as [|c l IH]; simpl; [constructor|].
    inversion Hndc as [|? ? Hc Hl]; subst.
    destruct (negb _); [|auto]. simpl. constructor; [|auto].
    intro Hin. apply Hc. apply in_map_iff in Hin.
    destruct Hin as (c' & E & Hin). apply filter_In in Hin.
    rewrite <- E. apply in_map. tauto.
  - intros d1 d2 Hin. apply in_map_iff in Hin. destruct Hin as (c & Ec & Hc).
    apply filter_In in Hc. destruct Hc as [Hc _].
    assert (Hp : In (d1, d2) (map fst considered))
      by (rewrite <- Ec; now apply in_map).
    rewrite Hfst in Hp. apply filter_In in Hp. destruct Hp as [Hp Hlt].
    apply in_prod_iff in Hp. cbn [fst snd] in Hlt. apply Nat.ltb_lt in Hlt. tauto.
Qed.

(** [get_data] returns only on the domain on which it is shown to return. *)
Lemma get_data_success_domain `{ArrayFramework} `{RandomState}
    (N S P seed : Z) (w : world) (d : dataset) (w1 : world) :
  get_data N S P seed w = (Ok d, w1) ->
  (0 <= N)%Z /\ (4 <= P)%Z /\ (0 < S < P)%Z /\ (0 <= seed < 2 ^ 32)%Z.
Proof.
  intro Edata.
  destruct (Z_lt_le_dec S P) as [H1|H1];
    [|rewrite get_data_assertion in Edata by lia; discriminate].
  destruct (Z_lt_le_dec 1 P) as [H2|H2];
    [|rewrite get_data_assertion in Edata by lia; discriminate].
  destruct (Z_lt_le_dec 0 S) as [H3|H3];
    [|rewrite get_data_assertion in Edata by lia; discriminate].
  destruct (Z_lt_le_dec seed 0) as [Hs|Hs];
    [rewrite get_data_rejected_seed in Edata by lia; discriminate|].
  destruct (Z_lt_le_dec seed (2 ^ 32)) as [Hs'|Hs'];
    [|rewrite get_data_rejected_seed in Edata by lia; discriminate].
  destruct (Z_lt_le_dec N 0) as [HN|HN];
    [rewrite get_data_negative_N in Edata by lia; discriminate|].
  destruct (Z_lt_le_dec P 4) as [HP|HP];
    [rewrite get_data_few_columns in Edata by lia; discriminate|].
  lia.
Qed.

(** ** A complete run *)

Lemma In_every_nth {A : Type} (k : nat) (l : list A) :
  forall skip x, In x (every_nth k skip l) -> In x l.
Proof.
  induction l as [|y t IH]; intros skip x Hx; [exact Hx|].
  destruct skip as [|sk]; cbn [every_nth] in Hx.
  - destruct Hx as [->|Hx]; [now left | right; eauto].
  - right. eauto.
Qed.

Lemma slice_step_incl {A : Type} (l s : list A) (k : Z) :
  slice_step l k = Ok s -> incl s l.
Proof.
  unfold slice_step. destruct (k =? 0)%Z; [discriminate|].
  destruct (0 <? k)%Z; intro E; injection E as <-; intros x Hx;
    apply In_every_nth in Hx; [exact Hx | now apply in_rev].
Qed.

Lemma run_inference_returns `{Sampler}
    (a : args) (rng_key : Z) (X : matrix) (Y : vector) (hypers : hyperparameters)
    (w : world) (draws : samples) (dt : Q) :
  mcmc_run (mtd a) (num_warmup a) (num_samples a) (num_chains a)
           (if existsb (String.eqb "NUMPYRO_SPHINXBUILD") os_environ
            then false else true)
           rng_key X Y hypers = Ok (draws, dt) ->
  thinning a <> 0%Z ->
  exists s w', run_inference a rng_key X Y hypers w = (Ok s, w') /\ incl s draws.
Proof.
  intros Hrun Hk. unfold run_inference, bind, lift, time_time, sleep, print, ret.
  rewrite Hrun. cbn [fst snd].
  destruct (slice_step draws (thinning a)) as [s|e] eqn:Es.
  - eexists _, _. split; [reflexivity|]. now apply slice_step_incl in Es.
  - unfold slice_step in Es. destruct (Z.eqb_spec (thinning a) 0); [contradiction|].
    destruct (0 <? thinning a)%Z; discriminate.
Qed.

Lemma analyze_dimension_returns `{ArrayFramework}
    (s : samples) (X : matrix) (Y : vector) (hypers : hyperparameters) (dimension : nat) :
  (forall L b, vlen (cho_solve L b) = vlen b) ->
  (forall L B, shape (solve_triangular L B) = shape B) ->
  vlen Y = nrows X ->
  Forall (fun d => vlen (draw_kappa d) = ncols X /\ vlen (draw_omega d) = nrows X) s ->
  exists ms, analyze_dimension s X Y dimension hypers = Ok ms.
Proof.
  intros Hsolve Htri HY Hs. rewrite Forall_forall in Hs.
  destruct (vmap_all_ok
              (fun d => compute_singleton_mean_variance X Y dimension
                          (draw_eta1 d) (draw_eta2 d) (hyper_c hypers)
                          (draw_kappa d) (draw_omega d)) s)
    as (mv & Hmv & _).
  { intros d Hd. destruct (Hs d Hd) as [Hk Hw].
    pose proof (singleton_probe_shape (ncols X) dimension) as Hshape.
    injection Hshape as Hr Hc.
    destruct (compute_coefficient_mean_variance_returns X Y
                (singleton_probe (ncols X) dimension) singleton_vec
                (draw_eta1 d) (draw_eta2 d) (hyper_c hypers)
                (draw_kappa d) (draw_omega d))
      as (mu & var & Hrun); auto.
    exists (mu, var). exact Hrun. }
  unfold analyze_dimension. rewrite Hmv. cbn [rbind]. eexists. reflexivity.
Qed.

Lemma analyze_pair_of_dimensions_returns `{ArrayFramework}
    (s : samples) (X : matrix) (Y : vector) (hypers : hyperparameters) (dim1 dim2 : nat) :
  (forall L b, vlen (cho_solve L b) = vlen b) ->
  (forall L B, shape (solve_triangular L B) = shape B) ->
  vlen Y = nrows X ->
  Forall (fun d => vlen (draw_kappa d) = ncols X /\ vlen (draw_omega d) = nrows X) s ->
  exists ms, analyze_pair_of_dimensions s X Y dim1 dim2 hypers = Ok ms.
Proof.
  intros Hsolve Htri HY Hs. rewrite Forall_forall in Hs.
  destruct (vmap_all_ok
              (fun d => compute_pairwise_mean_variance X Y dim1 dim2
                          (draw_eta1 d) (draw_eta2 d) (hyper_c hypers)
                          (draw_kappa d) (draw_omega d)) s)
    as (mv & Hmv & _).
  { intros d Hd. destruct (Hs d Hd) as [Hk Hw].
    pose proof (pairwise_probe_shape (ncols X) dim1 dim2) as Hshape.
    injection Hshape as Hr Hc.
    destruct (compute_coefficient_mean_variance_returns X Y
                (pairwise_probe (ncols X) dim1 dim2) pairwise_vec
                (draw_eta1 d) (draw_eta2 d) (hyper_c hypers)
                (draw_kappa d) (draw_omega d))
      as (mu & var & Hrun); auto.
    exists (mu, var). exact Hrun. }
  unfold analyze_pair_of_dimensions. rewrite Hmv. cbn [rbind]. eexists. reflexivity.
Qed.

Lemma pairwise_stage_returns `{ArrayFramework}
    (s : samples) (X : matrix) (Y : vector) (hypers : hyperparameters)
    (active_dims : list nat) (w : world) :
  (forall dim1 dim2, exists ms, analyze_pair_of_dimensions s X Y dim1 dim2 hypers = Ok ms) ->
  exists quads w', pairwise_stage s X Y hypers active_dims w = (Ok quads, w').
Proof.
  intro Hpair. unfold pairwise_stage.
  destruct (Nat.ltb 0 (List.length active_dims)); [|eexists _, _; reflexivity].
  destruct (vmap_all_ok
              (fun dim_pair => analyze_pair_of_dimensions s X Y
                                 (fst dim_pair) (snd dim_pair) hypers)
              (list_prod active_dims active_dims)) as (pstats & Hv & _).
  { intros [d1 d2] _. apply Hpair. }
  unfold bind, lift. rewrite Hv.
  destruct (classify_pairs_from (combine (list_prod active_dims active_dims) pstats) [] w)
    as (lines & Hcl & _).
  cbn zeta in Hcl. rewrite Hcl. eexists _, _. reflexivity.
Qed.

(** X9: a complete run.  Let the command line give at least four
    dimensions, [0 < active_dimensions < num_dimensions], a seed that
    [onp.random.seed] accepts and a non-zero thinning; let the sampler
    return, for the data it is given, draws with one [kappa] per column
    and one [omega] per row of [X]; and let the linear solvers return
    arrays of the shape of their right-hand side.  Then [main] ends
    normally; the last line it prints is the dictionary [results], which
    holds the arguments and exactly one entry, for [N = 200]. *)
Theorem main_returns `{ArrayFramework} `{RandomState} `{Sampler}
    (a : args) (w : world) :
  (forall L b, vlen (cho_solve L b) = vlen b) ->
  (forall L B, shape (solve_triangular L B) = shape B) ->
  (forall X Y hypers, exists draws dt,
      mcmc_run (mtd a) (num_warmup a) (num_samples a) (num_chains a)
               (if existsb (String.eqb "NUMPYRO_SPHINXBUILD") os_environ
                then false else true)
               (seed a) X Y hypers = Ok (draws, dt)
      /\ Forall (fun d => vlen (draw_kappa d) = ncols X
                          /\ vlen (draw_omega d) = nrows X) draws) ->
  (4 <= num_dimensions a)%Z ->
  (0 < active_dimensions a < num_dimensions a)%Z ->
  (0 <= seed a < 2 ^ 32)%Z ->
  thinning a <> 0%Z ->
  exists r w',
    run_for a (num_dimensions a) 200 w = (Ok r, w')
    /\ main a w
       = (Ok tt,
          mkworld (stdout w' ++ [PrintResults (mkresults a [(200%Z, r)])])
                  (files w') (clock w')).
Proof.
  intros Hsolve Htri Hsampler HP HS Hseed Hthin.
  assert (Hrun : exists r w', run_for a (num_dimensions a) 200 w = (Ok r, w')).
  { unfold run_for, bind.
    destruct (get_data_structure 200 (active_dimensions a) (num_dimensions a) (seed a) w)
      as (u & b & u2 & b2 & b3 & _ & _ & _ & _ & Hlb3 & _ & Hdata); try lia.
    cbn zeta in Hdata. rewrite Hdata.
    cbn [data_X data_Y data_W data_pairwise_coefficient data_expected_quad_dims].
    set (X := matrix_of_list _ _ _). set (Y := vec_of_list (map sign_of_bit b3)).
    set (hypers := mkhypers _ _ _ _ _ _ _).
    destruct (Hsampler X Y hypers) as (draws & dt & Hmc & Hshape).
    match goal with
    | |- context [run_inference a (seed a) X Y hypers ?w0] =>
        destruct (run_inference_returns a (seed a) X Y hypers w0 draws dt Hmc Hthin)
          as (s & w2 & Hri & Hincl)
    end.
    rewrite Hri.
    assert (Hs : Forall (fun d => vlen (draw_kappa d) = ncols X
                                  /\ vlen (draw_omega d) = nrows X) s).
    { rewrite Forall_forall in Hshape |- *. intros d Hd. apply Hshape, Hincl, Hd. }
    assert (HY : vlen Y = nrows X).
    { subst X Y. cbn [vlen vec_of_list nrows matrix_of_list].
      now rewrite length_map. }
    destruct (vmap_all_ok (fun dim => analyze_dimension s X Y dim hypers)
                (seq 0 (Z.to_nat (num_dimensions a)))) as (stats & Hv & _).
    { intros dim _. now apply analyze_dimension_returns. }
    unfold lift at 1. rewrite Hv. cbn [print].
    match goal with
    | |- context [classify_dimensions ?P0 0 ?st [] ?w0] =>
        destruct (dimension_classification_facts P0 st w0)
          as (active & lines & Hcl & _);
        rewrite Hcl
    end.
    cbn [stdout files clock].
    match goal with
    | |- context [pairwise_stage s X Y hypers active ?w0] =>
        destruct (pairwise_stage_returns s X Y hypers active w0) as (quads & w3 & Hpw);
          [intros; now apply analyze_pair_of_dimensions_returns|];
        rewrite Hpw
    end.
    eexists _, _. reflexivity. }
  destruct Hrun as (r & w' & Hrun). exists r, w'. split; [exact Hrun|].
  rewrite main_unfold. cbn [for_each_N]. unfold bind. rewrite Hrun. reflexivity.
Qed.

Lemma main_returns_witness :
  exists r w',
    @main sample_framework sample_random sample_sampler
      (mkargs 3 2 1 6 0 4 0 2 1 "cpu") empty_world
    = (Ok tt,
       mkworld (stdout w' ++ [PrintResults
                                (mkresults (mkargs 3 2 1 6 0 4 0 2 1 "cpu")
                                           [(200%Z, r)])])
               (files w') (clock w')).
Proof.
  destruct (@main_returns sample_framework sample_random sample_sampler
              (mkargs 3 2 1 6 0 4 0 2 1 "cpu") empty_world)
    as (r & w' & _ & Hmain).
  - reflexivity.
  - reflexivity.
  - intros X Y hypers. eexists _, _. split; [reflexivity|].
    apply Forall_forall. intros d Hd. apply repeat_spec in Hd. subst d.
    split; reflexivity.
  - simpl. lia.
  - simpl. lia.
  - simpl. lia.
  - discriminate.
  - exists r, w'. exact Hmain.
Defined.
(** ** The link function *)

(** X11: [sigmoid] maps into the closed unit interval wherever the
    exponential is not negative, so its value is a valid success
    probability for the binomial draw of the responses. *)
Theorem sigmoid_is_probability `{ArrayFramework} (x : Q) :
  0 <= np_exp (- x) ->
  0 <= sigmoid x /\ sigmoid x <= 1.
Proof.
  intro He. unfold sigmoid.
  assert (Hpos : 0 < 1 + np_exp (- x)) by lra.
  split.
  - apply Qle_shift_div_l; [exact Hpos | lra].
  - apply Qle_shift_div_r; [exact Hpos | lra].
Qed.

Lemma sigmoid_is_probability_witness :
  0 <= @sigmoid sample_framework 3 /\ @sigmoid sample_framework 3 <= 1.
Proof.
  apply (@sigmoid_is_probability sample_framework 3). discriminate.
Defined.

(** ** Arguments that [get_data] rejects *)

(** X12: when the command line violates
    [active_dimensions < num_dimensions and num_dimensions > 1 and active_dimensions > 0],
    [main] ends with [AssertionError] before anything is sampled, drawn or
    printed. *)
Theorem main_rejects_bad_dimensions `{ArrayFramework} `{RandomState} `{Sampler}
    (a : args) (w : world) :
  ~ (active_dimensions a < num_dimensions a /\ num_dimensions a > 1
     /\ active_dimensions a > 0)%Z ->
  main a w = (Raise AssertionError, w).
Proof.
  intro Hbad. rewrite main_unfold. cbn [for_each_N]. unfold bind at 1.
  unfold run_for. unfold bind at 1.
  rewrite get_data_assertion by exact Hbad. reflexivity.
Qed.

Lemma main_rejects_bad_dimensions_witness :
  @main sample_framework sample_random sample_sampler
    (mkargs 300 200 1 6 0 4 0 4 10 "cpu") empty_world
  = (Raise AssertionError, empty_world).
Proof.
  apply (@main_rejects_bad_dimensions sample_framework sample_random sample_sampler
           (mkargs 300 200 1 6 0 4 0 4 10 "cpu") empty_world).
  simpl. lia.
Defined.
(** ** The pairwise probe on the diagonal *)

Lemma quadratic_ext (P : nat) (c0 : Q) (theta : nat -> Q) (theta2 : nat -> nat -> Q)
    (x y : nat -> Q) :
  (forall k, (k < P)%nat -> x k == y k) ->
  quadratic P c0 theta theta2 x == quadratic P c0 theta theta2 y.
Proof.
  intro Hxy. unfold quadratic.
  rewrite (sum_upto_ext P (fun k => theta k * x k) (fun k => theta k * y k))
    by (intros k Hk; now rewrite (Hxy k Hk)).
  rewrite (sum_upto_ext P
             (fun k => sum_upto P
                (fun l => if Nat.ltb k l then theta2 k l * x k * x l else 0))
             (fun k => sum_upto P
                (fun l => if Nat.ltb k l then theta2 k l * y k * y l else 0))).
  - reflexivity.
  - intros k Hk. apply sum_upto_ext. intros l Hl.
    destruct (Nat.ltb k l); [|reflexivity].
    now rewrite (Hxy k Hk), (Hxy l Hl).
Qed.

(** X13: the source notes that the pairwise numbers are only meaningful
    for [i != j].  On the diagonal the second column update overwrites
    the first, the four probe rows are [+e_i, -e_i, +e_i, -e_i], and the
    weights cancel: for [dim1 = dim2] the pairwise probe returns 0 for
    every quadratic function, whatever its coefficients are. *)
Theorem pairwise_probe_diagonal_cancels (P : nat) (c0 : Q) (theta : nat -> Q)
    (theta2 : nat -> nat -> Q) (i : nat) :
  (i < P)%nat ->
  probe_response (pairwise_probe P i i) pairwise_vec (quadratic P c0 theta theta2)
  == 0.
Proof.
  intro Hi. unfold probe_response, pairwise_vec, sum_upto. simpl.
  assert (H02 : quadratic P c0 theta theta2 (mget (pairwise_probe P i i) 2)
                == quadratic P c0 theta theta2 (mget (pairwise_probe P i i) 0)).
  { apply quadratic_ext. intros k _. rewrite !pairwise_probe_entry by assumption.
    destruct (Nat.eqb k i); reflexivity. }
  assert (H13 : quadratic P c0 theta theta2 (mget (pairwise_probe P i i) 3)
                == quadratic P c0 theta theta2 (mget (pairwise_probe P i i) 1)).
  { apply quadratic_ext. intros k _. rewrite !pairwise_probe_entry by assumption.
    destruct (Nat.eqb k i); reflexivity. }
  rewrite H02, H13. ring.
Qed.

Lemma pairwise_probe_diagonal_cancels_witness :
  probe_response (pairwise_probe 4 2 2) pairwise_vec
    (quadratic 4 5 (fun k => inject_Z (Z.of_nat k) + 1)
       (fun k l => inject_Z (Z.of_nat (10 * k + l))))
  == 0.
Proof.
  apply (pairwise_probe_diagonal_cancels 4 5 (fun k => inject_Z (Z.of_nat k) + 1)
           (fun k l => inject_Z (Z.of_nat (10 * k + l))) 2).
  lia.
Defined.

(** ** How many pairs are reported *)

Lemma filter_lt_pairs_map (x : nat) (l : list nat) :
  List.length (filter (fun p : nat * nat => Nat.ltb (fst p) (snd p))
                      (map (fun y => (x, y)) l))
  = List.length (filter (fun y => Nat.ltb x y) l).
Proof.
  induction l as [|y l IH]; simpl; [reflexivity|].
  destruct (Nat.ltb x y); simpl; now rewrite IH.
Qed.

Lemma filter_lt_pairs_cons (o : list nat) (x : nat) (l : list nat) :
  List.length (filter (fun p : nat * nat => Nat.ltb (fst p) (snd p))
                      (list_prod o (x :: l)))
  = (List.length (filter (fun z => Nat.ltb z x) o)
     + List.length (filter (fun p : nat * nat => Nat.ltb (fst p) (snd p))
                           (list_prod o l)))%nat.
Proof.
  induction o as [|z o IH]; [reflexivity|].
  cbn [list_prod map]. cbn [app filter fst snd].
  destruct (Nat.ltb z x); cbn [List.length];
    rewrite !filter_app, !length_app, IH; lia.
Qed.

Lemma filter_split_around (x : nat) (l : list nat) :
  ~ In x l ->
  (List.length (filter (fun y => Nat.ltb x y) l)
   + List.length (filter (fun z => Nat.ltb z x) l) = List.length l)%nat.
Proof.
  induction l as [|y l IH]; intro Hx; simpl; [reflexivity|].
  assert (Hne : x <> y) by (intro E; apply Hx; now left).
  specialize (IH (fun H => Hx (or_intror H))).
  destruct (Nat.ltb_spec x y), (Nat.ltb_spec y x); simpl; lia.
Qed.

(** Among the pairs of a duplicate-free list, [n (n - 1) / 2] are
    increasing. *)
Lemma increasing_pairs_count (l : list nat) :
  NoDup l ->
  (2 * List.length (filter (fun p : nat * nat => Nat.ltb (fst p) (snd p))
                           (list_prod l l))
   = List.length l * (List.length l - 1))%nat.
Proof.
  induction 1 as [|x l Hx Hnd IH]; [reflexivity|].
  cbn [list_prod map]. cbn [app filter fst snd]. rewrite Nat.ltb_irrefl.
  rewrite filter_app, length_app, filter_lt_pairs_map, filter_lt_pairs_cons.
  pose proof (filter_split_around x l Hx) as Hsplit.
  cbn [List.length]. nia.
Qed.

(** The lines the pairwise stage prints for a duplicate-free list of
    dimensions. *)
Lemma pairwise_stage_output `{ArrayFramework}
    (s : samples) (X : matrix) (Y : vector) (hypers : hyperparameters)
    (w w' : world)
    (active_dims : list nat) (active_quad_dims : list (nat * nat)) :
  NoDup active_dims ->
  pairwise_stage s X Y hypers active_dims w = (Ok active_quad_dims, w') ->
  exists lines,
    stdout w' = stdout w ++ lines
    /\ (2 * List.length lines
        = List.length active_dims * (List.length active_dims - 1))%nat
    /\ (List.length active_quad_dims <= List.length lines)%nat
    /\ forall l, In l lines ->
         exists dim1 dim2 mean std,
           (dim1 < dim2)%nat
           /\ (l = PrintInteraction (dim1 + 1) (dim2 + 1) mean std
               \/ l = PrintNoInteraction (dim1 + 1) (dim2 + 1) mean std).
Proof.
  intros Hnd Hrun.
  unfold pairwise_stage in Hrun.
  destruct active_dims as [|d0 ds] eqn:Eact.
  { cbn in Hrun. injection Hrun as <- <-. exists []. rewrite app_nil_r.
    split; [reflexivity|]. split; [reflexivity|]. split; [simpl; lia|].
    intros l []. }
  rewrite <- Eact in *. replace (Nat.ltb 0 (List.length active_dims)) with true in Hrun
    by (rewrite Eact; reflexivity).
  unfold bind, lift in Hrun.
  destruct (vmap _ (list_prod active_dims active_dims)) as [pstats|e] eqn:Ev;
    [|discriminate].
  pose proof (vmap_length _ _ _ Ev) as Hlen.
  destruct (classify_pairs_from (combine (list_prod active_dims active_dims) pstats) [] w)
    as (lines & Hcl & Hlines & Hnth).
  cbn zeta in Hcl, Hlines, Hnth. rewrite Hcl in Hrun. injection Hrun as <- <-.
  cbn [app stdout].
  set (considered := filter _ (combine _ pstats)) in *.
  assert (Hfst : map fst considered
                 = filter (fun p => Nat.ltb (fst p) (snd p))
                          (list_prod active_dims active_dims)).
  { exact (map_fst_filter_combine (fun p => Nat.ltb (fst p) (snd p)) _ pstats Hlen). }
  exists lines. split; [reflexivity|]. split; [|split].
  - rewrite Hlines, <- (length_map fst considered), Hfst.
    now apply increasing_pairs_count.
  - rewrite length_map, Hlines.
    clear. induction considered as [|c l IH]; simpl; [lia|].
    destruct (negb _); simpl; lia.
  - intros l Hl. apply In_nth_error in Hl. destruct Hl as [k Hk].
    assert (Hk' : (k < List.length considered)%nat).
    { rewrite <- Hlines. apply nth_error_Some. congruence. }
    destruct (nth_error considered k) as [[[d1 d2] [m sd]]|] eqn:Ec;
      [|apply nth_error_None in Ec; lia].
    specialize (Hnth k d1 d2 m sd Ec). rewrite Hnth in Hk. injection Hk as <-.
    exists d1, d2, m, sd. split.
    + apply nth_error_In in Ec. subst considered. apply filter_In in Ec.
      destruct Ec as [_ Hlt]. now apply Nat.ltb_lt in Hlt.
    + destruct (contains_zero m sd); [right | left]; reflexivity.
Qed.

(** X14: with [n > 0] active dimensions found by the loop over the
    dimensions, a pairwise stage that completes prints exactly
    [n (n - 1) / 2] lines, one per unordered pair of distinct active
    dimensions, each either an identified or a rejected interaction, and
    identifies at most that many interactions. *)
Theorem pairwise_stage_line_count `{ArrayFramework}
    (s : samples) (X : matrix) (Y : vector) (hypers : hyperparameters)
    (P : Z) (stats : list (Q * Q)) (w0 w w' : world)
    (active_dims : list nat) (active_quad_dims : list (nat * nat)) :
  fst (classify_dimensions P 0 stats [] w0) = Ok active_dims ->
  pairwise_stage s X Y hypers active_dims w = (Ok active_quad_dims, w') ->
  exists lines,
    stdout w' = stdout w ++ lines
    /\ (2 * List.length lines
        = List.length active_dims * (List.length active_dims - 1))%nat
    /\ (List.length active_quad_dims <= List.length lines)%nat
    /\ forall l, In l lines ->
         exists dim1 dim2 mean std,
           (dim1 < dim2)%nat
           /\ (l = PrintInteraction (dim1 + 1) (dim2 + 1) mean std
               \/ l = PrintNoInteraction (dim1 + 1) (dim2 + 1) mean std).
Proof.
  intros Hactive Hrun.
  assert (Hnd : NoDup active_dims).
  { destruct (dimension_classification_facts P stats w0)
      as (a & l & Hcl & _ & Hnd & _).
    rewrite Hcl in Hactive. injection Hactive as <-. exact Hnd. }
  exact (pairwise_stage_output s X Y hypers w w' active_dims active_quad_dims Hnd Hrun).
Qed.

Lemma pairwise_stage_line_count_witness :
  exists lines,
    stdout (snd (@pairwise_stage sample_framework [sample_draw 2 2] sample_X (ones 2)
                   (mkhypers 1 2 1 2 2 1 1) [0%nat; 1%nat] empty_world))
    = lines
    /\ List.length lines = 1%nat.
Proof.
  destruct (@pairwise_stage sample_framework [sample_draw 2 2] sample_X (ones 2)
              (mkhypers 1 2 1 2 2 1 1) [0%nat; 1%nat] empty_world)
    as [[quads|e] w'] eqn:Erun.
  - assert (Hactive : fst (classify_dimensions 2 0 [(5, 1); (7, 1)] [] empty_world)
                      = Ok [0%nat; 1%nat]) by reflexivity.
    destruct (@pairwise_stage_line_count sample_framework [sample_draw 2 2] sample_X
                (ones 2) (mkhypers 1 2 1 2 2 1 1) 2 [(5, 1); (7, 1)]
                empty_world empty_world w' [0%nat; 1%nat] quads Hactive Erun)
      as (lines & Hout & Hcount & _).
    exists lines. cbn [snd]. split; [exact Hout|]. simpl in Hcount. lia.
  - apply (f_equal fst) in Erun. vm_compute in Erun. discriminate.
Defined.
(** ** The layout of the report *)

Lemma run_inference_output `{Sampler}
    (a : args) (rng_key : Z) (X : matrix) (Y : vector) (hypers : hyperparameters)
    (w w' : world) (s : samples) :
  run_inference a rng_key X Y hypers w = (Ok s, w') ->
  exists draws elapsed,
    stdout w' = stdout w ++ [PrintSummary draws; PrintElapsed elapsed]
    /\ incl s draws.
Proof.
  unfold run_inference, bind, lift, time_time, sleep, print, ret.
  destruct (mcmc_run _ _ _ _ _ _ _ _ _) as [[draws dt]|e]; [|discriminate].
  cbn [fst snd stdout files clock].
  destruct (slice_step draws (thinning a)) as [s'|e] eqn:Es; [|discriminate].
  intro E. injection E as <- <-. cbn [stdout].
  eexists draws, _. split.
  - rewrite <- app_assoc. reflexivity.
  - now apply slice_step_incl in Es.
Qed.

(** The loop over the dimensions, with what it prints for the dimensions
    it marks active. *)
Lemma classify_dimensions_active (P : Z) (stats : list (Q * Q)) (w : world) :
  exists active_dims lines,
    classify_dimensions P 0 stats [] w
    = (Ok active_dims, mkworld (stdout w ++ lines) (files w) (clock w))
    /\ NoDup active_dims
    /\ (forall dim,
          In dim active_dims
          <-> exists mean std,
                nth_error stats dim = Some (mean, std)
                /\ contains_zero mean std = false)
    /\ (forall dim,
          In dim active_dims
          <-> exists mean std,
                In (PrintDimension (dim + 1) P "active" mean std) lines).
Proof.
  destruct (classify_dimensions_from P stats 0 [] w)
    as (added & lines & Hrun & Hlen & Hnth & Hrange & Hnd).
  exists added, lines. split; [exact Hrun|]. split; [exact Hnd|].
  assert (Hstat : forall dim,
            In dim added
            <-> exists mean std,
                  nth_error stats dim = Some (mean, std)
                  /\ contains_zero mean std = false).
  { intro dim. split.
    - intro Hin. pose proof (Hrange dim Hin) as Hlt.
      destruct (nth_error stats dim) as [[mean std]|] eqn:Es;
        [|apply nth_error_None in Es; lia].
      exists mean, std. split; [reflexivity|].
      apply (proj2 (Hnth dim mean std Es)). exact Hin.
    - intros (mean & std & Es & Hcz).
      apply (proj2 (Hnth dim mean std Es)). exact Hcz. }
  split; [exact Hstat|].
  intro dim. rewrite Hstat. split.
  - intros (mean & std & Es & Hcz). exists mean, std.
    destruct (Hnth dim mean std Es) as [Hline _].
    rewrite Hcz in Hline. cbn [Nat.add] in Hline.
    exact (nth_error_In _ _ Hline).
  - intros (mean & std & Hin). apply In_nth_error in Hin. destruct Hin as [k Hk].
    assert (Hk' : (k < List.length stats)%nat).
    { rewrite <- Hlen. apply nth_error_Some. congruence. }
    destruct (nth_error stats k) as [[m sd]|] eqn:Es;
      [|apply nth_error_None in Es; lia].
    destruct (Hnth k m sd Es) as [Hline _]. rewrite Hline in Hk.
    cbn [Nat.add] in Hk. injection Hk as Hdim Hlabel -> ->.
    assert (k = dim) by lia. subst k.
    exists mean, std. split; [exact Es|].
    destruct (contains_zero mean std); [discriminate | reflexivity].
Qed.

(** The pairs that the pairwise stage returns are the pairs for which it
    prints an interaction. *)
Lemma pairwise_stage_interactions `{ArrayFramework}
    (s : samples) (X : matrix) (Y : vector) (hypers : hyperparameters)
    (w w' : world)
    (active_dims : list nat) (active_quad_dims : list (nat * nat)) :
  pairwise_stage s X Y hypers active_dims w = (Ok active_quad_dims, w') ->
  exists lines,
    stdout w' = stdout w ++ lines
    /\ forall d1 d2,
         In (d1, d2) active_quad_dims
         <-> exists mean std,
               In (PrintInteraction (d1 + 1) (d2 + 1) mean std) lines.
Proof.
  intro Hrun. unfold pairwise_stage in Hrun.
  destruct (Nat.ltb 0 (List.length active_dims)).
  2:{ injection Hrun as <- <-. exists []. rewrite app_nil_r.
      split; [reflexivity|]. intros d1 d2. split; [intros [] | intros (? & ? & [])]. }
  unfold bind, lift in Hrun.
  destruct (vmap _ (list_prod active_dims active_dims)) as [pstats|e] eqn:Ev;
    [|discriminate].
  destruct (classify_pairs_from (combine (list_prod active_dims active_dims) pstats) [] w)
    as (lines & Hcl & Hlines & Hnth).
  cbn zeta in Hcl, Hlines, Hnth. rewrite Hcl in Hrun. injection Hrun as <- <-.
  cbn [app stdout].
  set (considered := filter _ (combine _ pstats)) in *.
  exists lines. split; [reflexivity|]. intros d1 d2. split.
  - intro Hin. apply in_map_iff in Hin. destruct Hin as ([[a b] [m sd]] & Ec & Hc).
    cbn [fst] in Ec. injection Ec as -> ->.
    apply filter_In in Hc. destruct Hc as [Hc Hcz]. cbn [fst snd] in Hcz.
    apply negb_true_iff in Hcz.
    apply In_nth_error in Hc. destruct Hc as [k Hk].
    specialize (Hnth k d1 d2 m sd Hk). rewrite Hcz in Hnth.
    exists m, sd. exact (nth_error_In _ _ Hnth).
  - intros (mean & std & Hin). apply In_nth_error in Hin. destruct Hin as [k Hk].
    assert (Hk' : (k < List.length considered)%nat).
    { rewrite <- Hlines. apply nth_error_Some. congruence. }
    destruct (nth_error considered k) as [[[a b] [m sd]]|] eqn:Ec;
      [|apply nth_error_None in Ec; lia].
    specialize (Hnth k a b m sd Ec). rewrite Hnth in Hk.
    destruct (contains_zero m sd) eqn:Hcz; [discriminate|].
    injection Hk as Ha Hb -> ->.
    assert (a = d1) by lia. assert (b = d2) by lia. subst a b.
    apply in_map_iff. exists ((d1, d2), (mean, std)). split; [reflexivity|].
    apply filter_In. split; [exact (nth_error_In _ _ Ec)|].
    cbn [fst snd]. now rewrite Hcz.
Qed.

(** X8: the entry [results[N]] of every completed iteration of the loop
    of [main], and the two lists [active_dims] and [active_quad_dims] that
    its counts are taken from.  The entry holds one mean and one deviation
    per dimension and one expected coefficient per active dimension of the
    data.  A dimension is in [active_dims] exactly when the two-sigma
    interval of its stored mean and deviation does not strictly contain
    zero, which is exactly when its printed line says active; a pair is in
    [active_quad_dims] exactly when an interaction is printed for it, and
    then both its dimensions are active and the first is the smaller.  The
    counts of the entry are those of these lists against the expected
    dimensions [0 .. S-1] and the expected pairs [(0, 1)] and [(2, 3)],
    and they add up: correct plus false singletons is the number of
    dimensions found active (the number printed), correct plus missed
    singletons is the number of expected ones, and likewise for the pairs,
    of which two are expected; no false and no missed singleton means that
    exactly the expected dimensions were found. *)
Theorem run_results_consistent `{ArrayFramework} `{RandomState} `{Sampler}
    (a : args) (P N : Z) (w w' : world) (r : run_results) :
  run_for a P N w = (Ok r, w') ->
  exists (active_dims : list nat) (active_quad_dims : list (nat * nat))
         (before dim_lines pair_lines : list line),
    stdout w'
    = stdout w ++ before ++ dim_lines
      ++ [PrintSingletons (correct_singletons r) (false_singletons r)
                          (missed_singletons r);
          PrintTotalActive (List.length active_dims) (active_dimensions a);
          PrintPairwiseCoefficient 3]
      ++ pair_lines
      ++ [PrintQuads (correct_quads r) (false_quads r) (missed_quads r)]
    /\ (forall dim,
          In dim active_dims
          <-> exists mean std,
                nth_error (coeff_means r) dim = Some mean
                /\ nth_error (coeff_stds r) dim = Some std
                /\ contains_zero mean std = false)
    /\ (forall dim,
          In dim active_dims
          <-> exists mean std,
                In (PrintDimension (dim + 1) (num_dimensions a) "active" mean std)
                   dim_lines)
    /\ (forall d1 d2,
          In (d1, d2) active_quad_dims
          <-> exists mean std,
                In (PrintInteraction (d1 + 1) (d2 + 1) mean std) pair_lines)
    /\ (forall d1 d2,
          In (d1, d2) active_quad_dims ->
          In d1 active_dims /\ In d2 active_dims /\ (d1 < d2)%nat)
    /\ NoDup active_dims
    /\ NoDup active_quad_dims
    /\ correct_singletons r
       = len_inter Nat.eq_dec active_dims (seq 0 (Z.to_nat (active_dimensions a)))
    /\ false_singletons r
       = len_diff Nat.eq_dec active_dims (seq 0 (Z.to_nat (active_dimensions a)))
    /\ missed_singletons r
       = len_diff Nat.eq_dec (seq 0 (Z.to_nat (active_dimensions a))) active_dims
    /\ correct_quads r
       = len_inter pair_eq_dec active_quad_dims [(0%nat, 1%nat); (2%nat, 3%nat)]
    /\ false_quads r
       = len_diff pair_eq_dec active_quad_dims [(0%nat, 1%nat); (2%nat, 3%nat)]
    /\ missed_quads r
       = len_diff pair_eq_dec [(0%nat, 1%nat); (2%nat, 3%nat)] active_quad_dims
    /\ In (PrintTotalActive (List.length active_dims) (active_dimensions a)) (stdout w')
    /\ List.length (coeff_means r) = Z.to_nat (num_dimensions a)
    /\ List.length (coeff_stds r) = Z.to_nat (num_dimensions a)
    /\ List.length (expected_thetas r) = Z.to_nat (active_dimensions a)
    /\ (correct_singletons r + false_singletons r = List.length active_dims)%nat
    /\ (correct_singletons r + missed_singletons r
        = Z.to_nat (active_dimensions a))%nat
    /\ (correct_quads r + false_quads r = List.length active_quad_dims)%nat
    /\ (correct_quads r + missed_quads r = 2)%nat
    /\ (false_singletons r = 0%nat /\ missed_singletons r = 0%nat
        <-> forall dim, In dim active_dims
                        <-> (dim < Z.to_nat (active_dimensions a))%nat).
Proof.
  unfold run_for, bind. intro Hrun.
  destruct (get_data N (active_dimensions a) P (seed a) w) as [[d|e] w1] eqn:Edata;
    [|discriminate].
  destruct (get_data_success_domain N (active_dimensions a) P (seed a) w d w1 Edata)
    as (HN & HP & HS & Hseed).
  destruct (get_data_returns N (active_dimensions a) P (seed a) w HN HP HS Hseed)
    as (d' & o & m & Hd & _ & _ & _ & HW & _ & Hcoef & Hpairs).
  rewrite Hd in Edata. injection Edata as -> <-.
  match type of Hrun with
  | context [run_inference a (seed a) ?X0 ?Y0 ?hy ?w0] =>
      destruct (run_inference a (seed a) X0 Y0 hy w0) as [[s|e] w2] eqn:Eri;
        [|discriminate];
      destruct (run_inference_output a (seed a) X0 Y0 hy w0 w2 s Eri)
        as (draws & elapsed & Hout2 & _)
  end.
  cbn [stdout] in Hout2.
  unfold lift at 1 in Hrun.
  destruct (vmap _ (seq 0 (Z.to_nat (num_dimensions a)))) as [stats|e] eqn:Ev;
    [|discriminate].
  pose proof (vmap_length _ _ _ Ev) as Hlen. rewrite length_seq in Hlen.
  cbn [print] in Hrun.
  match type of Hrun with
  | context [classify_dimensions ?P0 0 ?st [] ?w0] =>
      destruct (classify_dimensions_active P0 st w0)
        as (active & lines & Hcl & Hnd & Hstat & Hprinted);
      rewrite Hcl in Hrun
  end.
  cbn [stdout files clock] in Hrun.
  match type of Hrun with
  | context [pairwise_stage s ?X0 ?Y0 ?hy active ?w0] =>
      destruct (pairwise_stage s X0 Y0 hy active w0) as [[quads|e] w3] eqn:Epair;
        [|discriminate];
      destruct (pairwise_stage_pairs s X0 Y0 hy active w0 w3 quads Hnd Epair)
        as [Hndq Hquads];
      destruct (pairwise_stage_interactions s X0 Y0 hy w0 w3 active quads Epair)
        as (plines & Hout3 & Hinter)
  end.
  cbn [stdout] in Hout3.
  injection Hrun as <- <-.
  cbn [coeff_means coeff_stds expected_thetas correct_singletons false_singletons
       missed_singletons correct_quads false_quads missed_quads stdout].
  rewrite Hpairs. rewrite Hcoef in Hout3.
  assert (Hcomb : combine (map fst stats) (map snd stats) = stats).
  { clear. induction stats as [|[m0 s0] t IH]; [reflexivity|].
    cbn [map combine fst snd]. now rewrite IH. }
  rewrite Hcomb in Hstat.
  assert (Hexp : List.length (list_of_vec (data_W d)) = Z.to_nat (active_dimensions a)).
  { unfold list_of_vec. now rewrite length_map, length_seq. }
  assert (Hlayout :
    stdout w3
    = stdout w
      ++ [PrintNumberOfOnes o m; PrintSummary draws; PrintElapsed elapsed;
          PrintCoefficients (active_dimensions a) (list_of_vec (data_W d))]
      ++ lines
      ++ [PrintSingletons
            (len_inter Nat.eq_dec active (seq 0 (Z.to_nat (active_dimensions a))))
            (len_diff Nat.eq_dec active (seq 0 (Z.to_nat (active_dimensions a))))
            (len_diff Nat.eq_dec (seq 0 (Z.to_nat (active_dimensions a))) active);
          PrintTotalActive (List.length active) (active_dimensions a);
          PrintPairwiseCoefficient 3]
      ++ plines).
  { rewrite Hout3, Hout2. rewrite <- !app_assoc. reflexivity. }
  exists active, quads,
    [PrintNumberOfOnes o m; PrintSummary draws; PrintElapsed elapsed;
     PrintCoefficients (active_dimensions a) (list_of_vec (data_W d))],
    lines, plines.
  split.
  { rewrite Hlayout. rewrite <- !app_assoc. reflexivity. }
  split.
  { intro dim. rewrite Hstat. split.
    - intros (mean & std & Hst & Hcz). exists mean, std.
      rewrite !nth_error_map, Hst. split; [reflexivity|]. split; [reflexivity | exact Hcz].
    - intros (mean & std & Hm & Hs & Hcz). exists mean, std. split; [|exact Hcz].
      rewrite nth_error_map in Hm, Hs.
      destruct (nth_error stats dim) as [[m0 s0]|]; cbn in Hm, Hs; congruence. }
  split; [exact Hprinted|].
  split; [exact Hinter|].
  split; [exact Hquads|].
  split; [exact Hnd|].
  split; [exact Hndq|].
  do 6 (split; [reflexivity|]).
  split.
  { apply in_or_app. left. rewrite Hlayout.
    apply in_or_app. right. apply in_or_app. right.
    apply in_or_app. right. apply in_or_app. left. right. now left. }
  split; [now rewrite length_map|]. split; [now rewrite length_map|].
  split; [exact Hexp|].
  split.
  { rewrite len_inter_plus_diff. now rewrite nodup_fixed_point. }
  split.
  { rewrite len_inter_sym, len_inter_plus_diff.
    rewrite nodup_fixed_point by apply seq_NoDup. apply length_seq. }
  split.
  { rewrite len_inter_plus_diff. now rewrite nodup_fixed_point. }
  split.
  { rewrite len_inter_sym, len_inter_plus_diff. reflexivity. }
  rewrite !len_diff_zero. split.
  - intros [Hfalse Hmissed] dim. split; intro Hin.
    + apply Hfalse in Hin. apply in_seq in Hin. lia.
    + apply Hmissed. apply in_seq. lia.
  - intro Hall. split; intros dim Hin.
    + apply Hall in Hin. apply in_seq. lia.
    + apply Hall. apply in_seq in Hin. lia.
Qed.

Lemma run_results_consistent_witness :
  exists r (active_dims : list nat) (active_quad_dims : list (nat * nat)),
    fst (@run_for sample_framework sample_random sample_sampler small_args 4 5
           empty_world) = Ok r
    /\ NoDup active_dims
    /\ (forall d1 d2, In (d1, d2) active_quad_dims ->
          In d1 active_dims /\ In d2 active_dims /\ (d1 < d2)%nat)
    /\ (correct_singletons r + false_singletons r = List.length active_dims)%nat
    /\ (correct_singletons r + missed_singletons r = 2)%nat
    /\ (correct_quads r + missed_quads r = 2)%nat.
Proof.
  destruct (@run_for sample_framework sample_random sample_sampler small_args 4 5
              empty_world) as [[r|e] w'] eqn:Erun.
  - destruct (@run_results_consistent sample_framework sample_random sample_sampler
                small_args 4 5 empty_world w' r Erun)
      as (active & quads & before & dl & pl & _ & _ & _ & _ & Hq & Hnd & _ & _ & _ & _
          & _ & _ & _ & _ & _ & _ & _ & Hcf & Hs & _ & Hcq & _).
    exists r, active, quads. split; [reflexivity|]. split; [exact Hnd|].
    split; [exact Hq|]. split; [exact Hcf|]. split; [exact Hs | exact Hcq].
  - apply (f_equal fst) in Erun. vm_compute in Erun. discriminate.
Defined.

(** X16: the report of a completed iteration of the loop of [main], line
    by line: the counts of the responses, the summary and the elapsed time
    of the sampler, the expected coefficients, one line per dimension
    ([num_dimensions] lines), the singleton counts, the number of active
    dimensions [n], the pairwise coefficient 3, [n (n - 1) / 2] lines for
    the pairs, and the pair counts. *)
Theorem run_report_layout `{ArrayFramework} `{RandomState} `{Sampler}
    (a : args) (P N : Z) (w w' : world) (r : run_results) :
  run_for a P N w = (Ok r, w') ->
  exists ones minus_ones draws elapsed dim_lines n pair_lines,
    stdout w'
    = stdout w
      ++ [PrintNumberOfOnes ones minus_ones; PrintSummary draws; PrintElapsed elapsed;
          PrintCoefficients (active_dimensions a) (expected_thetas r)]
      ++ dim_lines
      ++ [PrintSingletons (correct_singletons r) (false_singletons r)
                          (missed_singletons r);
          PrintTotalActive n (active_dimensions a);
          PrintPairwiseCoefficient 3]
      ++ pair_lines
      ++ [PrintQuads (correct_quads r) (false_quads r) (missed_quads r)]
    /\ (ones + minus_ones = Z.to_nat N)%nat
    /\ List.length dim_lines = Z.to_nat (num_dimensions a)
    /\ (2 * List.length pair_lines = n * (n - 1))%nat
    /\ (n <= Z.to_nat (num_dimensions a))%nat.
Proof.
  unfold run_for, bind. intro Hrun.
  destruct (get_data N (active_dimensions a) P (seed a) w) as [[d|e] w1] eqn:Edata;
    [|discriminate].
  destruct (get_data_success_domain N (active_dimensions a) P (seed a) w d w1 Edata)
    as (HN & HP & HS & Hseed).
  destruct (get_data_structure N (active_dimensions a) P (seed a) w HN HP HS Hseed)
    as (u & b & u2 & b2 & b3 & _ & _ & _ & _ & Hlb3 & _ & Hd).
  cbn zeta in Hd. rewrite Hd in Edata. injection Edata as <- <-.
  cbn [data_X data_Y data_W data_pairwise_coefficient data_expected_quad_dims] in Hrun.
  match type of Hrun with
  | context [run_inference a (seed a) ?X0 ?Y0 ?hy ?w0] =>
      destruct (run_inference a (seed a) X0 Y0 hy w0) as [[s|e] w2] eqn:Eri;
        [|discriminate];
      destruct (run_inference_output a (seed a) X0 Y0 hy w0 w2 s Eri)
        as (draws & elapsed & Hout2 & _)
  end.
  cbn [stdout] in Hout2.
  unfold lift at 1 in Hrun.
  destruct (vmap _ (seq 0 (Z.to_nat (num_dimensions a)))) as [stats|e] eqn:Ev;
    [|discriminate].
  pose proof (vmap_length _ _ _ Ev) as Hlen. rewrite length_seq in Hlen.
  cbn [print] in Hrun.
  match type of Hrun with
  | context [classify_dimensions ?P0 0 ?st [] ?w0] =>
      destruct (dimension_classification_facts P0 st w0)
        as (active & lines & Hcl & Hll & Hnd & Hrange);
      rewrite Hcl in Hrun
  end.
  cbn [stdout files clock] in Hrun.
  match type of Hrun with
  | context [pairwise_stage s ?X0 ?Y0 ?hy active ?w0] =>
      destruct (pairwise_stage s X0 Y0 hy active w0) as [[quads|e] w3] eqn:Epair;
        [|discriminate];
      destruct (pairwise_stage_output s X0 Y0 hy w0 w3 active quads Hnd Epair)
        as (plines & Hout3 & Hcount & _)
  end.
  cbn [stdout] in Hout3.
  injection Hrun as <- <-.
  cbn [stdout expected_thetas correct_singletons false_singletons missed_singletons
       correct_quads false_quads missed_quads].
  assert (Hstats : List.length (combine (map fst stats) (map snd stats))
                   = Z.to_nat (num_dimensions a)).
  { rewrite length_combine, !length_map, Nat.min_id. exact Hlen. }
  eexists _, _, draws, elapsed, lines, (List.length active), plines.
  split; [|split; [|split; [|split]]].
  - rewrite Hout3, Hout2. rewrite <- !app_assoc. reflexivity.
  - rewrite list_of_vec_of_list, count_signs, length_map; [exact Hlb3|].
    apply Forall_forall. intros v Hv. apply in_map_iff in Hv.
    destruct Hv as (c & <- & _). apply sign_of_bit_cases.
  - now rewrite Hll.
  - exact Hcount.
  - rewrite <- Hstats.
    assert (Hincl : incl active (seq 0 (List.length (combine (map fst stats)
                                                             (map snd stats))))).
    { intros x Hx. apply in_seq. apply Hrange in Hx. lia. }
    pose proof (NoDup_incl_length Hnd Hincl) as Hle.
    now rewrite length_seq in Hle.
Qed.

Lemma run_report_layout_witness :
  exists r w' (dim_lines : list line) n (pair_lines : list line),
    @run_for sample_framework sample_random sample_sampler small_args 4 5 empty_world
    = (Ok r, w')
    /\ List.length dim_lines = 4%nat
    /\ (2 * List.length pair_lines = n * (n - 1))%nat
    /\ (List.length (stdout w')
        = 4 + List.length dim_lines + 3 + List.length pair_lines + 1)%nat.
Proof.
  destruct (@run_for sample_framework sample_random sample_sampler small_args 4 5
              empty_world) as [[r|e] w'] eqn:Erun.
  - destruct (@run_report_layout sample_framework sample_random sample_sampler
                small_args 4 5 empty_world w' r Erun)
      as (o & m & dr & el & dl & n & pl & Hout & _ & Hdl & Hpl & _).
    exists r, w', dl, n, pl. split; [reflexivity|]. split; [exact Hdl|].
    split; [exact Hpl|]. rewrite Hout, !length_app. cbn [List.length stdout empty_world].
    lia.
  - apply (f_equal fst) in Erun. vm_compute in Erun. discriminate.
Defined.

(** ** A failing sampler *)

(** X17: an exception of the sampler ends the run.  On a command line
    that [get_data] accepts, if the sampler raises [e] then [main] raises
    [e]; by then it has printed the counts of the responses and nothing
    else, no summary and no results, and it has written no file. *)
Theorem main_propagates_sampler_error `{ArrayFramework} `{RandomState} `{Sampler}
    (a : args) (w : world) (e : exn) :
  (4 <= num_dimensions a)%Z ->
  (0 < active_dimensions a < num_dimensions a)%Z ->
  (0 <= seed a < 2 ^ 32)%Z ->
  (forall X Y hypers,
      mcmc_run (mtd a) (num_warmup a) (num_samples a) (num_chains a)
               (if existsb (String.eqb "NUMPYRO_SPHINXBUILD") os_environ
                then false else true)
               (seed a) X Y hypers = Raise e) ->
  exists ones minus_ones w',
    main a w = (Raise e, w')
    /\ stdout w' = stdout w ++ [PrintNumberOfOnes ones minus_ones]
    /\ files w' = files w
    /\ (ones + minus_ones = 200)%nat.
Proof.
  intros HP HS Hseed Hraise.
  destruct (get_data_structure 200 (active_dimensions a) (num_dimensions a) (seed a) w)
    as (u & b & u2 & b2 & b3 & _ & _ & _ & _ & Hlb3 & _ & Hdata); try lia.
  cbn zeta in Hdata.
  eexists _, _, _. split; [|split; [|split]].
  - rewrite main_unfold. cbn [for_each_N]. unfold bind at 1.
    unfold run_for. unfold bind at 1. rewrite Hdata.
    unfold bind at 1. unfold run_inference. unfold bind at 1. cbn [time_time].
    unfold bind at 1, lift at 1.
    cbn [data_X data_Y]. rewrite Hraise. reflexivity.
  - reflexivity.
  - reflexivity.
  - rewrite list_of_vec_of_list, count_signs, length_map; [exact Hlb3|].
    apply Forall_forall. intros v Hv. apply in_map_iff in Hv.
    destruct Hv as (c & <- & _). apply sign_of_bit_cases.
Qed.

Lemma main_propagates_sampler_error_witness :
  exists ones minus_ones w',
    @main sample_framework sample_random failing_sampler
      (mkargs 3 2 1 6 0 4 0 2 1 "cpu") empty_world
    = (Raise ValueError, w')
    /\ stdout w' = [PrintNumberOfOnes ones minus_ones]
    /\ files w' = [].
Proof.
  destruct (@main_propagates_sampler_error sample_framework sample_random
              failing_sampler (mkargs 3 2 1 6 0 4 0 2 1 "cpu") empty_world ValueError)
    as (o & m & w' & Hmain & Hout & Hfiles & _).
  - simpl. lia.
  - simpl. lia.
  - simpl. lia.
  - reflexivity.
  - exists o, m, w'. split; [exact Hmain|]. split; [exact Hout | exact Hfiles].
Defined.
(** * Rounding *)

(** ** The kernel in float64 *)

(** With [X = [[1]]], [Z = [[1], [1]]] (same number of columns, different
    shapes), [eta1 = 0], [eta2 = 1e9] and [c = 1] the four terms of
    [kernel] are [2e18], [-5e17], [-1e18] and [1 - 5e17], which rounds to
    [-5e17]: their float64 sum is [0.0].  The quadratic form
    [c^2 + eta1^2 (x.z) + (eta2^2 / 2) ((x.z)^2 - sum_k x_k^2 z_k^2)] is 1
    at these rows, evaluated in float64 and evaluated exactly. *)
Lemma kernel_f64_cancellation :
  fshape [[1%float]] <> fshape [[1%float]; [1%float]]
  /\ match kernel_f64 [[1%float]] [[1%float]; [1%float]] 0 1e9 1 default_jitter_f64 with
     | Ok [[k00; k01]] => (PrimFloat.eqb k00 0 && PrimFloat.eqb k01 0)%bool
     | _ => false
     end = true
  /\ PrimFloat.eqb (quadratic_kernel_entry_f64 [1%float] [1%float] 0 1e9 1) 1 = true
  /\ quadratic_kernel_entry (matrix_of_list 1 1 [1]) (matrix_of_list 2 1 [1; 1])
       0 1000000000 1 0 0 == 1.
Proof.
  split; [discriminate|]. split; [vm_compute; reflexivity|].
  split; [vm_compute; reflexivity|]. vm_compute. reflexivity.
Qed.

(** With equal shapes and [eta2 = 1e8] the constant term is [-5e15] and the
    jitter [1e-6] added to it is lost to rounding: the cross-covariance of
    the scaled singleton probe [[1], [-1]] and the scaled data [[1], [1]]
    is the same matrix with the default jitter and with no jitter. *)
Lemma kernel_f64_absorbs_jitter :
  fshape [[1%float]; [(-1)%float]] = fshape [[1%float]; [1%float]]
  /\ kernel_f64 [[1%float]; [(-1)%float]] [[1%float]; [1%float]] 0 1e8 0 default_jitter_f64
     = kernel_f64 [[1%float]; [(-1)%float]] [[1%float]; [1%float]] 0 1e8 0 0
  /\ match kernel_f64 [[1%float]; [(-1)%float]] [[1%float]; [1%float]] 0 1e8 0
             default_jitter_f64 with
     | Ok [[k00; _]; [_; k11]] =>
         (PrimFloat.eqb k00 (quadratic_kernel_entry_f64 [1%float] [1%float] 0 1e8 0)
          && PrimFloat.eqb k11 (quadratic_kernel_entry_f64 [(-1)%float] [1%float] 0 1e8 0))%bool
     | _ => false
     end = true.
Proof.
  split; [reflexivity|]. split; vm_compute; reflexivity.
Qed.

(** ** The mixture statistics in float64 *)

(** Two component means one unit in the last place apart and zero
    variances: the float64 variance is about [-2.8e-17], negative. *)
Lemma gaussian_mixture_stats_f64_negative_variance :
  forallb (fun v => PrimFloat.leb 0 v) [0%float; 0%float] = true
  /\ PrimFloat.ltb
       (snd (gaussian_mixture_stats_f64
               [0x1.fb5355e16737ap-2%float; 0x1.fb5355e167379p-2%float]
               [0%float; 0%float]))
       0 = true.
Proof. split; vm_compute; reflexivity. Qed.
